(** * SinusX codec (qCC_io/SinusxFilter.cpp): a shallow embedding

    The SinusX filter of CloudCompare writes polylines to a line-oriented
    ASCII format ([SinusxFilter::saveToFile]) and reads them back
    ([SinusxFilter::loadFile]).  This file embeds both functions and proves
    properties of the embedding.

    Conventions of the model.
    - A text file is the list of its lines, without the line terminators:
      that is what [QTextStream::readLine] hands to the reader and what the
      writer produces with [endl].
    - [QString] is [string]; the Qt functions the filter calls on it are
      gathered in module [QString].
    - Coordinates ([double], and [PointCoordinateType] inside a point
      cloud) are values of an abstract type [coord]; the conversion between
      the two C++ types is taken to be the identity.  The numeric
      conversions of Qt ([toInt], [toDouble], [QString::number]) are
      operations of the interface [Numeric].
    - [ccLog::Warning] appends to a log of structured diagnostics.
    - [assert] stops the run when its condition is false, unless the
      filter is compiled with NDEBUG (as a release build is): [NDEBUG] is
      a parameter of the model.
    - The device reports no error while the file is read:
      [file.error() == QFile::NoError] holds at every test.
    - Allocations can fail: the k-th allocation request of a load succeeds
      iff [alloc_ok k]. *)

From Stdlib Require Import List String Ascii ZArith Bool Arith Lia.
From Stdlib Require Import DecimalString.
Import ListNotations.
Open Scope string_scope.

(** ** Qt strings *)

Module QString.

(** [QString::isEmpty]; a null string is empty too. *)
Definition isEmpty (s : string) : bool :=
  match s with
  | EmptyString => true
  | String _ _ => false
  end.

(** [s.startsWith(p)] *)
Fixpoint startsWith (s p : string) : bool :=
  match p with
  | EmptyString => true
  | String b p' =>
      match s with
      | EmptyString => false
      | String a s' => Ascii.eqb a b && startsWith s' p'
      end
  end.

(** [s.right(n)]: the [n] rightmost characters. *)
Definition right (s : string) (n : nat) : string :=
  substring (String.length s - n) n s.

(** [s.at(0)], for a non-empty [s]. *)
Definition at0 (s : string) : ascii :=
  match s with
  | EmptyString => Ascii.zero
  | String c _ => c
  end.

(** [s.replace(before, after)] on characters. *)
Fixpoint replace (before after : ascii) (s : string) : string :=
  match s with
  | EmptyString => EmptyString
  | String c rest =>
      String (if Ascii.eqb c before then after else c)
             (replace before after rest)
  end.

(** The characters matched by the regular expression [\s], among the
    ASCII ones: the space, and the controls from tab to carriage return. *)
Definition isSpace (c : ascii) : bool :=
  let n := nat_of_ascii c in
  Nat.eqb n 32 || (Nat.leb 9 n && Nat.leb n 13).

Definition flush (tok : string) : list string :=
  if isEmpty tok then [] else [tok].

Fixpoint splitFrom (tok s : string) : list string :=
  match s with
  | EmptyString => flush tok
  | String c rest =>
      if isSpace c then flush tok ++ splitFrom EmptyString rest
      else splitFrom (tok ++ String c EmptyString) rest
  end.

(** [s.split(QRegExp("\\s+"), QString::SkipEmptyParts)] *)
Definition split (s : string) : list string := splitFrom EmptyString s.

End QString.

(** ** Numbers *)

(** What the filter needs from [double] and from Qt's conversions. *)
Class Numeric : Type := {
  coord : Type;
  czero : coord;
  cadd : coord -> coord -> coord;
  csub : coord -> coord -> coord;
  (** [x >= 0] *)
  cge0 : coord -> bool;
  (** [QString::toDouble(&ok)]: [None] when [ok] is false *)
  toDouble : string -> option coord;
  (** [QString::toInt(&ok)] *)
  toInt : string -> option Z;
  (** [QString::number(x, format, precision)] *)
  number : coord -> ascii -> nat -> string;
  (** [QVariant(double).toInt()] *)
  qRound : coord -> Z
}.

Section Vectors.
Context {N : Numeric}.

(** [CCVector3d] and [CCVector3] *)
Record Vec3 : Type := mkVec3 { vx : coord; vy : coord; vz : coord }.

Definition vzero : Vec3 := mkVec3 czero czero czero.

Definition vadd (a b : Vec3) : Vec3 :=
  mkVec3 (cadd (vx a) (vx b)) (cadd (vy a) (vy b)) (cadd (vz a) (vz b)).

Definition vsub (a b : Vec3) : Vec3 :=
  mkVec3 (csub (vx a) (vx b)) (csub (vy a) (vy b)) (csub (vz a) (vz b)).

(** [P.u[k]] for k = 0, 1, 2 *)
Definition u (P : Vec3) (k : nat) : coord :=
  match k with
  | 0 => vx P
  | 1 => vy P
  | _ => vz P
  end.
End Vectors.

(** ** Status codes and curve types *)

(** The values of [CC_FILE_ERROR] that a SinusX load or save can name. *)
Inductive CC_FILE_ERROR : Type :=
| CC_FERR_NO_ERROR
| CC_FERR_BAD_ARGUMENT
| CC_FERR_WRITING
| CC_FERR_READING
| CC_FERR_NO_SAVE
| CC_FERR_NO_LOAD
| CC_FERR_NOT_ENOUGH_MEMORY
| CC_FERR_MALFORMED_FILE.

Definition CC_FILE_ERROR_eqb (a b : CC_FILE_ERROR) : bool :=
  match a, b with
  | CC_FERR_NO_ERROR, CC_FERR_NO_ERROR
  | CC_FERR_BAD_ARGUMENT, CC_FERR_BAD_ARGUMENT
  | CC_FERR_WRITING, CC_FERR_WRITING
  | CC_FERR_READING, CC_FERR_READING
  | CC_FERR_NO_SAVE, CC_FERR_NO_SAVE
  | CC_FERR_NO_LOAD, CC_FERR_NO_LOAD
  | CC_FERR_NOT_ENOUGH_MEMORY, CC_FERR_NOT_ENOUGH_MEMORY
  | CC_FERR_MALFORMED_FILE, CC_FERR_MALFORMED_FILE => true
  | _, _ => false
  end.

(** [enum CurveType { INVALID = -1, CUREV_S = 0, CURVE_P = 1, CURVE_N = 2,
    CURVE_C = 3 }] (the first name is spelled as in the source). *)
Inductive CurveType : Type :=
| INVALID
| CUREV_S
| CURVE_P
| CURVE_N
| CURVE_C.

(** [SHORTCUT[] = { 'S', 'P', 'N', 'C' }], read backwards: the curve type
    of a tag, as the chain of comparisons of [loadFile] finds it. *)
Definition curveTypeOfChar (c : ascii) : CurveType :=
  if Ascii.eqb c "S" then CUREV_S
  else if Ascii.eqb c "P" then CURVE_P
  else if Ascii.eqb c "N" then CURVE_N
  else if Ascii.eqb c "C" then CURVE_C
  else INVALID.

(** ** Entities *)

Section Entities.
Context {N : Numeric}.

Inductive QVariant : Type :=
| VInt (z : Z)
| VDouble (d : coord).

(** [QVariant::toInt(&ok)] *)
Definition variantToInt (v : QVariant) : option Z :=
  match v with
  | VInt z => Some z
  | VDouble d => Some (qRound d)
  end.

(** The meta-data of a polyline, at the two keys the filter uses:
    [ccPolyline::MetaKeyUpDir()] and [ccPolyline::MetaKeyConstAltitude()]. *)
Record MetaData : Type := mkMetaData {
  metaUpDir : option QVariant;
  metaConstAltitude : option QVariant
}.

(** [ccPointCloud], as far as the filter touches it. *)
Record ccPointCloud : Type := mkCloud {
  points : list Vec3;
  capacity : nat;
  enabled : bool
}.

(** [ccPolyline]: a list of indexes into its vertex cloud, with display
    attributes.  [size()] is the number of indexes. *)
Record ccPolyline : Type := mkPoly {
  name : string;
  visible : bool;
  closed : bool;
  is2DMode : bool;
  metaData : MetaData;
  globalShift : Vec3;
  vertices : ccPointCloud;
  pointIndexes : list nat
}.

Definition size (poly : ccPolyline) : nat := List.length (pointIndexes poly).

(** [poly->getPoint(j)] *)
Definition getPoint (poly : ccPolyline) (j : nat) : Vec3 :=
  nth (nth j (pointIndexes poly) 0) (points (vertices poly)) vzero.

(** Modelled from the spec: [ccShiftedObject::toGlobal3d] is not part of
    the filter's file.  The writer converts a vertex "to the curve's
    absolute (global) frame (undoing any local recentering shift the
    in-memory representation holds)"; the reader stores [Pd + Pshift] and
    records [Pshift], so undoing it subtracts the recorded shift. *)
Definition toGlobal3d (poly : ccPolyline) (P : Vec3) : Vec3 :=
  vsub P (globalShift poly).

(** [new ccPointCloud("vertices")] followed by [setEnabled(false)] is
    [mkCloud [] 0 false].  [new ccPolyline(currentVertices)] gives a
    polyline without index; its constructor is not part of the filter's
    file, and it is taken to name the polyline "Polyline", visible, open,
    not in 2D mode, without meta-data and without shift. *)
Definition newPolyline (cloud : ccPointCloud) : ccPolyline :=
  mkPoly "Polyline" true false false (mkMetaData None None) vzero cloud [].

Definition setName (s : string) (p : ccPolyline) : ccPolyline :=
  mkPoly s (visible p) (closed p) (is2DMode p) (metaData p)
         (globalShift p) (vertices p) (pointIndexes p).

Definition setVisible (b : bool) (p : ccPolyline) : ccPolyline :=
  mkPoly (name p) b (closed p) (is2DMode p) (metaData p)
         (globalShift p) (vertices p) (pointIndexes p).

Definition setClosed (b : bool) (p : ccPolyline) : ccPolyline :=
  mkPoly (name p) (visible p) b (is2DMode p) (metaData p)
         (globalShift p) (vertices p) (pointIndexes p).

Definition setMetaData (m : MetaData) (p : ccPolyline) : ccPolyline :=
  mkPoly (name p) (visible p) (closed p) (is2DMode p) m
         (globalShift p) (vertices p) (pointIndexes p).

Definition setGlobalShift (s : Vec3) (p : ccPolyline) : ccPolyline :=
  mkPoly (name p) (visible p) (closed p) (is2DMode p) (metaData p)
         s (vertices p) (pointIndexes p).

Definition setVertices (c : ccPointCloud) (p : ccPolyline) : ccPolyline :=
  mkPoly (name p) (visible p) (closed p) (is2DMode p) (metaData p)
         (globalShift p) c (pointIndexes p).

(** [addPointIndex(first, last)], once the allocation has succeeded. *)
Definition addPointIndex (first last : nat) (p : ccPolyline) : ccPolyline :=
  mkPoly (name p) (visible p) (closed p) (is2DMode p) (metaData p)
         (globalShift p) (vertices p)
         (pointIndexes p ++ seq first (last - first)).

Definition setEnabled (b : bool) (c : ccPointCloud) : ccPointCloud :=
  mkCloud (points c) (capacity c) b.

(** [reserve(n)] and [resize(n)] (to the current size), once the
    allocation has succeeded. *)
Definition setCapacity (n : nat) (c : ccPointCloud) : ccPointCloud :=
  mkCloud (points c) n (enabled c).

Definition addPoint (P : Vec3) (c : ccPointCloud) : ccPointCloud :=
  mkCloud (points c ++ [P]) (capacity c) (enabled c).

(** What [saveToFile] is given: a polyline, a group of entities, or an
    entity of another kind. *)
#[warnings="-register-all"] Inductive ccHObject : Type :=
| PolylineEntity (p : ccPolyline)
| HierarchyObject (children : list ccHObject)
| OtherEntity.

(** The messages sent to [ccLog::Warning]. *)
Inductive Diagnostic : Type :=
| BlockLineCorrupted (line : nat)
| UnhandledCurveType (tag : ascii) (line : nat)
| FlagsLineCorrupted (line : nat)
| AltitudeLineCorrupted (line : nat)
| BasePlaneLineCorrupted (line : nat)
| PointLineCorrupted (line : nat)
| Recentered (shift : Vec3)
| NotEnoughVertices (polyName : string).

(** The diagnostics that report a malformed line. *)
Definition isMalformedLine (d : Diagnostic) : bool :=
  match d with
  | Recentered _ | NotEnoughVertices _ => false
  | _ => true
  end.
End Entities.

(** ** The reader: [SinusxFilter::loadFile] *)

(** The collaborators of a load that live outside the filter. *)
Record Host {N : Numeric} : Type := mkHost {
  (** [FileIOFilter::HandleGlobalShift(P, Pshift, parameters)]: from the
      point and the current value of [Pshift], the returned flag and the
      value of [Pshift] after the call (it is passed by reference). *)
  HandleGlobalShift : Vec3 -> Vec3 -> bool * Vec3;
  (** whether the k-th allocation request of the load succeeds *)
  alloc_ok : nat -> bool;
  (** whether the filter is compiled with NDEBUG, so that [assert] does
      nothing *)
  NDEBUG : bool
}.

Arguments mkHost {N} HandleGlobalShift alloc_ok NDEBUG.

Section Reader.
Context {N : Numeric}.
Variable host : Host.

(** The local variables of [loadFile], the text stream, the output
    container, the warning log and the count of allocation requests. *)
Record State : Type := mkState {
  stream : list string;
  currentLine : string;
  currentPoly : option ccPolyline;
  lineNumber : nat;
  curveType : CurveType;
  cpIndex : nat;
  result : CC_FILE_ERROR;
  Pshift : Vec3;
  firstVertex : bool;
  container : list ccPolyline;
  warnings : list Diagnostic;
  allocations : nat
}.

Definition withInput (s : list string) (l : string) (n : nat) (st : State) :=
  mkState s l (currentPoly st) n (curveType st) (cpIndex st) (result st)
          (Pshift st) (firstVertex st) (container st) (warnings st)
          (allocations st).

Definition withPoly (p : option ccPolyline) (st : State) :=
  mkState (stream st) (currentLine st) p (lineNumber st) (curveType st)
          (cpIndex st) (result st) (Pshift st) (firstVertex st)
          (container st) (warnings st) (allocations st).

Definition withCurveType (t : CurveType) (st : State) :=
  mkState (stream st) (currentLine st) (currentPoly st) (lineNumber st) t
          (cpIndex st) (result st) (Pshift st) (firstVertex st)
          (container st) (warnings st) (allocations st).

Definition withCpIndex (i : nat) (st : State) :=
  mkState (stream st) (currentLine st) (currentPoly st) (lineNumber st)
          (curveType st) i (result st) (Pshift st) (firstVertex st)
          (container st) (warnings st) (allocations st).

(** [firstVertex = false], and the value that the call of
    [HandleGlobalShift] leaves in [Pshift] *)
Definition withShift (s : Vec3) (st : State) :=
  mkState (stream st) (currentLine st) (currentPoly st) (lineNumber st)
          (curveType st) (cpIndex st) (result st) s false
          (container st) (warnings st) (allocations st).

Definition addChild (p : ccPolyline) (st : State) :=
  mkState (stream st) (currentLine st) (currentPoly st) (lineNumber st)
          (curveType st) (cpIndex st) (result st) (Pshift st)
          (firstVertex st) (container st ++ [p]) (warnings st)
          (allocations st).

(** [ccLog::Warning(...)] *)
Definition warning (d : Diagnostic) (st : State) :=
  mkState (stream st) (currentLine st) (currentPoly st) (lineNumber st)
          (curveType st) (cpIndex st) (result st) (Pshift st)
          (firstVertex st) (container st) (warnings st ++ [d])
          (allocations st).

(** the three statements [Warning(..); result = CC_FERR_MALFORMED_FILE;
    continue;] *)
Definition malformed (d : Diagnostic) (st : State) :=
  mkState (stream st) (currentLine st) (currentPoly st) (lineNumber st)
          (curveType st) (cpIndex st) CC_FERR_MALFORMED_FILE (Pshift st)
          (firstVertex st) (container st) (warnings st ++ [d])
          (allocations st).

(** An allocation request: its outcome, and the state that counts it. *)
Definition allocate (st : State) : bool * State :=
  (alloc_ok host (allocations st),
   mkState (stream st) (currentLine st) (currentPoly st) (lineNumber st)
           (curveType st) (cpIndex st) (result st) (Pshift st)
           (firstVertex st) (container st) (warnings st)
           (S (allocations st))).

(** [currentLine = stream.readLine(); ++lineNumber;]: at the end of the
    stream, [readLine] returns a null string. *)
Definition readLine (st : State) : State :=
  match stream st with
  | [] => withInput [] EmptyString (S (lineNumber st)) st
  | l :: rest => withInput rest l (S (lineNumber st)) st
  end.

(** The test made on a block that ends (lines 189-195 and 437-443):
    [currentVertices->size() != 0 && resize(size()) &&
    addPointIndex(0, size())], with [container.addChild(currentPoly)]
    when it holds.  The conjunction is evaluated left to right and stops
    at the first false operand. *)
Definition attachIfValid (poly : ccPolyline) (st : State) : State :=
  let n := List.length (points (vertices poly)) in
  if Nat.eqb n 0 then st
  else
    let (resized, st1) := allocate st in
    if negb resized then st1
    else
      let (indexed, st2) := allocate st1 in
      if negb indexed then st2
      else
        addChild (addPointIndex 0 n
                    (setVertices (setCapacity n (vertices poly)) poly)) st2.

(** The start of the branch of a line that starts with "B": the block
    that was open ends (lines 187-203). *)
Definition closeBlock (st : State) : State :=
  match currentPoly st with
  | None => st
  | Some poly => withPoly None (attachIfValid poly st)
  end.

(** The rest of that branch: the header of the new block. *)
Definition openBlock (st : State) : State :=
  let tokens := QString.split (currentLine st) in
  if Nat.ltb (List.length tokens) 2
     || Nat.ltb 1 (String.length (nth 1 tokens EmptyString))
  then malformed (BlockLineCorrupted (lineNumber st)) st
  else
    let curveTypeChar := QString.at0 (nth 1 tokens EmptyString) in
    let st1 := withCurveType (curveTypeOfChar curveTypeChar) st in
    match curveType st1 with
    | INVALID =>
        malformed (UnhandledCurveType curveTypeChar (lineNumber st)) st1
    | _ =>
        withCpIndex 0
          (withPoly (Some (newPolyline (mkCloud [] 0 false))) st1)
    end.

(** [case 0] of the switch on [cpIndex]: the flags line. *)
Definition flagsLine (tokens : list string) (poly : ccPolyline)
    (st : State) : State :=
  let bad := malformed (FlagsLineCorrupted (lineNumber st)) st in
  if Nat.eqb (List.length tokens) 3 then
    match toInt (nth 1 tokens EmptyString),
          toInt (nth 2 tokens EmptyString) with
    | Some isConnected, Some isClosed =>
        let poly1 :=
          if Z.eqb isConnected 0
          then setVertices (setEnabled true (vertices poly))
                           (setVisible false poly)
          else poly in
        let poly2 := setClosed (negb (Z.eqb isClosed 0)) poly1 in
        withCpIndex (S (cpIndex st)) (withPoly (Some poly2) st)
    | _, _ => bad
    end
  else bad.

(** [case 2]: the base plane. *)
Definition basePlaneLine (tokens : list string) (poly : ccPolyline)
    (st : State) : State :=
  let bad := malformed (BasePlaneLineCorrupted (lineNumber st)) st in
  if Nat.eqb (List.length tokens) 2 then
    let basePlaneChar := QString.at0 (nth 1 tokens EmptyString) in
    let vertDir :=
      if Ascii.eqb basePlaneChar "0" then Some 2%Z
      else if Ascii.eqb basePlaneChar "1" then Some 0%Z
      else if Ascii.eqb basePlaneChar "2" then Some 1%Z
      else None in
    match vertDir with
    | Some d =>
        let m := mkMetaData (Some (VInt d))
                            (metaConstAltitude (metaData poly)) in
        withCpIndex (S (cpIndex st))
          (withPoly (Some (setMetaData m poly)) st)
    | None => bad
    end
  else bad.

(** [case 1], contour lines: the constant altitude. *)
Definition altitudeLine (tokens : list string) (poly : ccPolyline)
    (st : State) : State :=
  let bad := malformed (AltitudeLineCorrupted (lineNumber st)) st in
  if Nat.eqb (List.length tokens) 2 then
    match toDouble (nth 1 tokens EmptyString) with
    | Some z =>
        let m := mkMetaData (metaUpDir (metaData poly))
                            (Some (VDouble z)) in
        withCpIndex (S (cpIndex st))
          (withPoly (Some (setMetaData m poly)) st)
    | None => bad
    end
  else bad.

(** What an iteration of the main loop does next: go on with the loop
    ([continue], or the end of the body), leave the function, or stop
    the program on a failed assertion. *)
Inductive Step : Type :=
| Continue (st : State)
| Return (e : CC_FILE_ERROR) (st : State)
| Abort (st : State).

(** [assert(condition);] in the state [st], followed by [next]. *)
Definition assertion (condition : bool) (st : State) (next : Step) : Step :=
  if NDEBUG host || condition then next else Abort st.

(** [case 1], circles: the loop that skips 16 values,

      while (skipped < 16 && !currentLine.isEmpty() && ...)
      { currentLine = stream.readLine(); ++lineNumber;
        tokens = ...; skipped += tokens.size(); }

    from the lines still to read, the current line, the line number and
    the count of skipped values, to their values when the loop ends. *)
Fixpoint skipValues (s : list string) (line : string) (n skipped : nat)
    : list string * string * nat * nat :=
  if Nat.ltb skipped 16 && negb (QString.isEmpty line) then
    match s with
    | [] => ([], EmptyString, S n, skipped)
    | l :: rest =>
        skipValues rest l (S n)
                   (skipped + List.length (QString.split l))
    end
  else (s, line, n, skipped).

(** The loop is followed by [assert(skipped == 16); ++cpIndex; break;]. *)
Definition circleLine (tokens : list string) (st : State) : Step :=
  let '(s, l, n, skipped) :=
    skipValues (stream st) (currentLine st) (lineNumber st)
               (List.length tokens - 1) in
  let st1 := withInput s l n st in
  assertion (Nat.eqb skipped 16) st1
            (Continue (withCpIndex (S (cpIndex st)) st1)).

(** The branch of a line that starts with "CP". *)
Definition descriptorLine (poly : ccPolyline) (st : State) : Step :=
  let tokens := QString.split (currentLine st) in
  match cpIndex st with
  | 0 => Continue (flagsLine tokens poly st)
  | 1 =>
      match curveType st with
      | CUREV_S =>
          (* no break: the same line is the base plane line *)
          Continue (basePlaneLine tokens poly (withCpIndex (S (cpIndex st)) st))
      | CURVE_P => Continue (withCpIndex (S (cpIndex st)) st)
      | CURVE_N => Continue (altitudeLine tokens poly st)
      | CURVE_C => circleLine tokens st
      | INVALID =>
          (* assert(false); ++cpIndex; break; *)
          assertion false st (Continue (withCpIndex (S (cpIndex st)) st))
      end
  | 2 => Continue (basePlaneLine tokens poly st)
  | _ => Continue st
  end.

(** The test [ok] of a point line: exactly four tokens, of which the
    first three are read with [toDouble], each one only if the one
    before it was read. *)
Definition pointOfTokens (tokens : list string) : option Vec3 :=
  if Nat.eqb (List.length tokens) 4 then
    match toDouble (nth 0 tokens EmptyString) with
    | None => None
    | Some x =>
        match toDouble (nth 1 tokens EmptyString) with
        | None => None
        | Some y =>
            match toDouble (nth 2 tokens EmptyString) with
            | None => None
            | Some z => Some (mkVec3 x y z)
            end
        end
    end
  else None.

(** The branch of any other non-empty line inside a block: a point.  The
    branch starts with [assert(currentVertices)], which holds: the cloud
    of vertices is there whenever the polyline is. *)
Definition pointLine (poly : ccPolyline) (st : State) : Step :=
  match pointOfTokens (QString.split (currentLine st)) with
  | None => Continue (malformed (PointLineCorrupted (lineNumber st)) st)
  | Some Pd =>
      let cloud := vertices poly in
      let full := Nat.eqb (List.length (points cloud)) (capacity cloud) in
      (* resize vertex cloud if necessary *)
      let (reserved, st1) := if full then allocate st else (true, st) in
      if negb reserved then
        (* delete currentPoly; *)
        Return CC_FERR_NOT_ENOUGH_MEMORY (withPoly None st1)
      else
        let poly1 :=
          if full
          then setVertices
                 (setCapacity (List.length (points cloud) + 10) cloud) poly
          else poly in
        (* first point: check for 'big' coordinates *)
        let (poly2, st2) :=
          if firstVertex st1 then
            let (recentered, shift) :=
              HandleGlobalShift host Pd (Pshift st1) in
            if recentered
            then (setGlobalShift shift poly1,
                  warning (Recentered shift) (withShift shift st1))
            else (poly1, withShift shift st1)
          else (poly1, st1) in
        let poly3 :=
          setVertices (addPoint (vadd Pd (Pshift st2)) (vertices poly2))
                      poly2 in
        Continue (withPoly (Some poly3) st2)
  end.

(** The branch of a line that starts with "CN". *)
Definition nameLine (poly : ccPolyline) (st : State) : State :=
  let line := currentLine st in
  if Nat.ltb 3 (String.length line)
  then withPoly
         (Some (setName (QString.right line (String.length line - 3)) poly))
         st
  else st.

(** The body of the main loop, once the line is read. *)
Definition dispatch (st : State) : Step :=
  let line := currentLine st in
  if QString.startsWith line "C " then
    (* ignore comments *)
    Continue st
  else if QString.startsWith line "B" then
    Continue (openBlock (closeBlock st))
  else
    match currentPoly st with
    | Some poly =>
        if QString.startsWith line "CN" then Continue (nameLine poly st)
        else if QString.startsWith line "CP" then descriptorLine poly st
        else if negb (QString.isEmpty line) then pointLine poly st
        else Continue st
    | None => Continue st
    end.

(** The body of the main loop. *)
Definition iteration (st : State) : Step := dispatch (readLine st).

(** How a call of [loadFile] ends: it returns a status, or the program
    stops on a failed assertion; and the state it ends in. *)
Inductive Exit : Type :=
| Returned (e : CC_FILE_ERROR) (st : State)
| Aborted (st : State).

Definition exitState (x : Exit) : State :=
  match x with
  | Returned _ st | Aborted st => st
  end.

Definition exitStatus (x : Exit) : option CC_FILE_ERROR :=
  match x with
  | Returned e _ => Some e
  | Aborted _ => None
  end.

(** After the loop: "don't forget the last polyline!", then
    [return result]. *)
Definition lastBlock (st : State) : Exit :=
  match currentPoly st with
  | None => Returned (result st) st
  | Some poly => Returned (result st) (attachIfValid poly st)
  end.

(** [while (!currentLine.isEmpty() && ...) { ... }], for at most [fuel]
    iterations: [None] when they do not suffice. *)
Fixpoint loop (fuel : nat) (st : State) : option Exit :=
  if QString.isEmpty (currentLine st) then Some (lastBlock st)
  else
    match fuel with
    | 0 => None
    | S fuel' =>
        match iteration st with
        | Continue st' => loop fuel' st'
        | Return e st' => Some (Returned e st')
        | Abort st' => Some (Aborted st')
        end
    end.

(** The state at the head of the loop after [n] complete iterations,
    when the loop goes that far. *)
Fixpoint run (n : nat) (st : State) : option State :=
  match n with
  | 0 => Some st
  | S n' =>
      if QString.isEmpty (currentLine st) then None
      else
        match iteration st with
        | Continue st' => run n' st'
        | Return _ _ | Abort _ => None
        end
  end.

(** The state before the loop; [lines] is the content of the file. *)
Definition initialState (lines : list string) : State :=
  mkState lines "C" None 0 INVALID 0 CC_FERR_NO_ERROR vzero true [] [] 0.

(** [loadFile]: how the call ends, with the final state, whose
    [container] holds the polylines added to the caller's container.
    [file] is [None] when the file cannot be opened.  An iteration
    reads at least one line, so one iteration per line and one more
    are enough ([loadFile_ends]). *)
Definition loadFile (file : option (list string)) : option Exit :=
  match file with
  | None => Some (Returned CC_FERR_READING (initialState []))
  | Some lines => loop (S (List.length lines)) (initialState lines)
  end.

(** What can be observed of a call of [loadFile]. *)
Definition outcome (x : Exit)
    : option CC_FILE_ERROR * list ccPolyline * list Diagnostic :=
  (exitStatus x, container (exitState x), warnings (exitState x)).

End Reader.

(** ** The writer: [SinusxFilter::saveToFile] *)

Section Writer.
Context {N : Numeric}.

(** [MakeSinusxName]: "no space characters" *)
Definition MakeSinusxName (name : string) : string :=
  QString.replace " " "_" name.

Definition s_precision : nat := 12.

(** "look for polylines only" *)
Definition profilesOf (entity : ccHObject) : list ccPolyline :=
  match entity with
  | PolylineEntity p => [p]
  | HierarchyObject children =>
      flat_map (fun child => match child with
                             | PolylineEntity p => [p]
                             | _ => []
                             end) children
  | OtherEntity => []
  end.

(** [upDir], as computed before a block is written. *)
Definition upDirOf (poly : ccPolyline) : Z :=
  if is2DMode poly then
    match metaUpDir (metaData poly) with
    | Some v =>
        match variantToInt v with
        | Some d => d
        | None => 2%Z (* restore default value *)
        end
    | None => 2%Z
    end
  else 2%Z.

(** [(upDir == 2 ? 0 : (upDir == 1 ? 2 : 1))], as the stream prints it *)
Definition basePlaneCode (upDir : Z) : string :=
  if Z.eqb upDir 2 then "0" else if Z.eqb upDir 1 then "2" else "1".

(** One pass of the loop on [k]: a space, a "+" when [P->u[k] >= 0],
    and [QString::number(Pg.u[k], 'E', s_precision)]. *)
Definition coordinateText (P Pg : Vec3) (k : nat) : string :=
  " " ++ (if cge0 (u P k) then "+" else EmptyString)
      ++ number (u Pg k) "E" s_precision.

(** One pass of the loop on [j]: the line of vertex [j]. *)
Definition vertexLine (poly : ccPolyline) (j : nat) : string :=
  let P := getPoint poly j in
  let Pg := toGlobal3d poly P in
  coordinateText P Pg 0 ++ coordinateText P Pg 1 ++ coordinateText P Pg 2
    ++ " A".

(** The lines of the block of a polyline with at least two vertices. *)
Definition blockLines (poly : ccPolyline) : list string :=
  [ "B S";
    "CN " ++ name poly;
    "CP 1 " ++ (if closed poly then "1" else "0");
    "CP " ++ basePlaneCode (upDirOf poly) ]
  ++ map (vertexLine poly) (seq 0 (size poly)).

(** What a save leaves behind: the status returned, the lines of the
    file (when it was opened) and the warnings. *)
Record Saved : Type := mkSaved {
  saveStatus : CC_FILE_ERROR;
  outFile : list string;
  saveWarnings : list Diagnostic
}.

(** One pass of the loop "for each profile". *)
Definition writeProfile (acc : Saved) (poly : ccPolyline) : Saved :=
  if Nat.ltb (size poly) 2 then
    (* invalid size *)
    mkSaved (saveStatus acc) (outFile acc)
            (saveWarnings acc ++ [NotEnoughVertices (name poly)])
  else
    mkSaved CC_FERR_NO_ERROR (outFile acc ++ blockLines poly)
            (saveWarnings acc).

(** [saveToFile(entity, filename, parameters)].  [entity] is [None] for
    a null pointer; [collected] tells whether the vector of profiles
    could be filled (no [std::bad_alloc]) and [opened] whether the file
    could be opened for writing. *)
Definition saveToFile (entity : option ccHObject) (filename : string)
    (collected opened : bool) : Saved :=
  match entity with
  | None => mkSaved CC_FERR_BAD_ARGUMENT [] []
  | Some e =>
      if QString.isEmpty filename then mkSaved CC_FERR_BAD_ARGUMENT [] []
      else if negb collected then mkSaved CC_FERR_NOT_ENOUGH_MEMORY [] []
      else
        let profiles := profilesOf e in
        match profiles with
        | [] => mkSaved CC_FERR_NO_SAVE [] []
        | _ =>
            if negb opened then mkSaved CC_FERR_WRITING [] []
            else
              fold_left writeProfile profiles
                (mkSaved CC_FERR_NO_SAVE ["C Generated by CloudCompare"] [])
        end
  end.

End Writer.

(** ** What the filter handles: [canSave] and [canLoadExtension] *)

(** The classes of entities ([CC_CLASS_ENUM]) that the filter tells
    apart: [CC_TYPES::POLY_LINE], [CC_TYPES::HIERARCHY_OBJECT], and any
    other class. *)
Inductive CC_CLASS_ENUM : Type :=
| POLY_LINE
| HIERARCHY_OBJECT
| OTHER_CLASS.

(** [canSave(type, multiple, exclusive)]: the value returned, and the
    values of the two flags after the call; they are passed by reference
    and assigned only when the class is handled. *)
Definition canSave (type : CC_CLASS_ENUM) (multiple exclusive : bool)
    : bool * bool * bool :=
  match type with
  | POLY_LINE => (true, true, true)
  | _ => (false, multiple, exclusive)
  end.

(** [canLoadExtension(upperCaseExt)] *)
Definition canLoadExtension (upperCaseExt : string) : bool :=
  String.eqb upperCaseExt "SX" || String.eqb upperCaseExt "SINUSX".

(** ** Integer-valued coordinates

    An instance of [Numeric] in which every number is an integer.  On
    integers below 2^24 in absolute value the arithmetic of [float] and
    [double] is exact, so on such inputs the instance computes what the
    filter computes. *)

Module IntegerCoordinates.

Definition digits (z : Z) : string :=
  NilEmpty.string_of_uint (N.to_uint (Z.to_N z)).

(** A decimal integer with an optional sign. *)
Definition parse (s : string) : option Z :=
  let unsigned (t : string) :=
    option_map (fun d => Z.of_N (N.of_uint d)) (NilZero.uint_of_string t) in
  match s with
  | String "+" t => unsigned t
  | String "-" t => option_map Z.opp (unsigned t)
  | _ => unsigned s
  end.

Definition parseInt (s : string) : option Z :=
  match parse s with
  | Some z =>
      if Z.leb (- 2 ^ 31)%Z z && Z.ltb z (2 ^ 31)%Z then Some z else None
  | None => None
  end.

Fixpoint zeros (n : nat) : string :=
  match n with
  | 0 => EmptyString
  | S n' => String "0" (zeros n')
  end.

(** Fixed notation, ['f']: the digits, then [prec] decimals. *)
Definition formatFixed (z : Z) (prec : nat) : string :=
  (if Z.ltb z 0 then "-" else EmptyString) ++ digits (Z.abs z)
    ++ (match prec with 0 => EmptyString | _ => "." ++ zeros prec end).

(** Scientific notation, ['E'] or ['e']: one digit, [prec] decimals
    (rounded to nearest, ties to even) and an exponent of at least two
    digits. *)
Definition formatScientific (z : Z) (e : ascii) (prec : nat) : string :=
  let a := Z.abs z in
  let m := Z.of_nat (String.length (digits a)) in
  let keep := Z.of_nat (S prec) in
  let '(mant, ex) :=
    (if Z.eqb a 0 then (0, 0)
     else if Z.leb m keep then (a * 10 ^ (keep - m), m - 1)
     else
       let p := 10 ^ (m - keep) in
       let q := a / p in
       let r := a mod p in
       let q' := if Z.ltb p (2 * r) || (Z.eqb (2 * r) p && Z.odd q)
                 then q + 1 else q in
       if Z.eqb q' (10 ^ keep) then (q' / 10, m) else (q', m - 1))%Z in
  let ds := if Z.eqb a 0 then zeros (S prec) else digits mant in
  (if Z.ltb z 0 then "-" else EmptyString)
    ++ substring 0 1 ds
    ++ (match prec with 0 => EmptyString | _ => "." ++ substring 1 prec ds end)
    ++ String e "+" ++ (if Z.ltb ex 10 then "0" else EmptyString) ++ digits ex.

Definition format (z : Z) (f : ascii) (prec : nat) : string :=
  if Ascii.eqb f "E" || Ascii.eqb f "e" then formatScientific z f prec
  else formatFixed z prec.

#[export] Instance numeric : Numeric := {
  coord := Z;
  czero := 0%Z;
  cadd := Z.add;
  csub := Z.sub;
  cge0 := Z.leb 0;
  toDouble := parse;
  toInt := parseInt;
  number := format;
  qRound := fun z => z
}.

(** Modelled from the spec: [FileIOFilter::HandleGlobalShift] is not
    part of the filter's file.  "If the raw coordinates exceed the safe
    local-precision magnitude, compute a translation that recenters
    them": here a point with a coordinate of 10^4 or more in absolute
    value is recentered, each such coordinate by a multiple of 10^3. *)
Definition bestShift (c : Z) : Z :=
  if Z.leb 10000 (Z.abs c) then (- (Z.quot c 1000 * 1000))%Z else 0%Z.

Definition autoShift (P Pshift : Vec3) : bool * Vec3 :=
  if Z.leb 10000 (Z.abs (vx P)) || Z.leb 10000 (Z.abs (vy P))
     || Z.leb 10000 (Z.abs (vz P))
  then (true, mkVec3 (bestShift (vx P)) (bestShift (vy P))
                     (bestShift (vz P)))
  else (false, Pshift).

(** A release build with that policy, in which no allocation fails. *)
Definition plainHost : Host := mkHost autoShift (fun _ => true) true.

(** The same host, in which allocation request [k] fails. *)
Definition failingHost (k : nat) : Host :=
  mkHost autoShift (fun i => negb (Nat.eqb i k)) true.

(** The same host as [plainHost], for a build with assertions. *)
Definition debugHost : Host := mkHost autoShift (fun _ => true) false.

End IntegerCoordinates.

(** ** Integer-valued coordinates, read in scientific notation

    The numbers of [IntegerCoordinates], with a [toDouble] that reads
    the notations that [QString::toDouble] reads: a sign, digits, a
    fraction and an exponent.  A text whose value is not an integer has
    no value in this instance. *)

Module ScientificCoordinates.

Definition isDigit (c : ascii) : bool :=
  let n := nat_of_ascii c in
  Nat.leb 48 n && Nat.leb n 57.

(** The longest prefix of [s] made of digits, and what follows it. *)
Fixpoint digitsPrefix (s : string) : string * string :=
  match s with
  | EmptyString => (EmptyString, EmptyString)
  | String c rest =>
      if isDigit c then
        let (ds, tail) := digitsPrefix rest in (String c ds, tail)
      else (EmptyString, s)
  end.

(** A sign, digits, a fraction and an exponent, as an integer. *)
Definition parseReal (s : string) : option Z :=
  let (negative, s1) :=
    match s with
    | String "+" t => (false, t)
    | String "-" t => (true, t)
    | _ => (false, s)
    end in
  let (whole, s2) := digitsPrefix s1 in
  let (fraction, s3) :=
    match s2 with
    | String "." t => digitsPrefix t
    | _ => (EmptyString, s2)
    end in
  let exponent :=
    match s3 with
    | EmptyString => Some 0%Z
    | String c t =>
        if Ascii.eqb c "E" || Ascii.eqb c "e"
        then IntegerCoordinates.parse t
        else None
    end in
  match IntegerCoordinates.parse (whole ++ fraction), exponent with
  | Some mantissa, Some e =>
      if QString.isEmpty whole then None
      else
        let scale := (e - Z.of_nat (String.length fraction))%Z in
        let value :=
          if Z.leb 0 scale then Some (mantissa * 10 ^ scale)%Z
          else
            let d := (10 ^ (- scale))%Z in
            if Z.eqb (mantissa mod d) 0 then Some (mantissa / d)%Z else None in
        option_map (fun z => if negative then (- z)%Z else z) value
  | _, _ => None
  end.

#[export] Instance numeric : Numeric := {
  coord := Z;
  czero := 0%Z;
  cadd := Z.add;
  csub := Z.sub;
  cge0 := Z.leb 0;
  toDouble := parseReal;
  toInt := IntegerCoordinates.parseInt;
  number := IntegerCoordinates.format;
  qRound := fun z => z
}.

(** A release build in which no point is recentered and no allocation
    fails. *)
Definition quietHost : Host :=
  mkHost (fun _ shift => (false, shift)) (fun _ => true) true.

End ScientificCoordinates.


(** * Notions used in the statements *)

Open Scope list_scope.

(** The number of tokens on the lines [ls]. *)
Definition tokenCount (ls : list string) : nat :=
  list_sum (map (fun l => List.length (QString.split l)) ls).

(** The line that [readLine] has returned after [j] calls, when the
    current line was [l] and the lines [s] were still to read: past the
    end of [s] it is the null string. *)
Definition lineRead (l : string) (s : list string) (j : nat) : string :=
  match j with
  | 0 => l
  | S i => nth i s EmptyString
  end.

Section Notions.
Context {N : Numeric}.

(** A flags line that the reader rejects: not three tokens, or a flag
    that [toInt] does not read. *)
Definition malformedFlags (line : string) : Prop :=
  let tokens := QString.split line in
  List.length tokens <> 3 \/
  toInt (nth 1 tokens EmptyString) = None \/
  toInt (nth 2 tokens EmptyString) = None.

(** The point that the reader finds on a line inside a block, when the
    line is none of the other kinds. *)
Definition pointLineOf (line : string) : option Vec3 :=
  if QString.startsWith line "C " || QString.startsWith line "B"
     || QString.startsWith line "CN" || QString.startsWith line "CP"
  then None
  else pointOfTokens (QString.split line).

(** The state [st] with the lines [s] left to read. *)
Definition withStream (s : list string) (st : State) : State :=
  withInput s (currentLine st) (lineNumber st) st.

(** Two runs of the loop, of which the second has a blank line and the
    lines [post] after the lines of the first: either they are at the
    same point of their common lines, or the first has met the end of
    its stream. *)
Definition sameButBlank (post : list string) (a b : State) : Prop :=
  b = withStream (stream a ++ EmptyString :: post) a \/
  (currentLine a = EmptyString /\ exists s, b = withStream s a).

(** The same, for the ends of an iteration of the two runs. *)
Definition sameStepButBlank (post : list string) (x y : Step) : Prop :=
  match x, y with
  | Continue a, Continue b => sameButBlank post a b
  | Return e a, Return e' b => e = e' /\ exists s, b = withStream s a
  | Abort a, Abort b => exists s, b = withStream s a
  | _, _ => False
  end.

(** The polyline that [attachIfValid] adds to the container. *)
Definition finalized (poly : ccPolyline) : ccPolyline :=
  let n := List.length (points (vertices poly)) in
  addPointIndex 0 n (setVertices (setCapacity n (vertices poly)) poly).

(** Two polylines with the same shift record, points and indexes. *)
Definition sameGeometry (p q : ccPolyline) : Prop :=
  globalShift p = globalShift q /\
  points (vertices p) = points (vertices q) /\
  pointIndexes p = pointIndexes q.

(** One iteration of the loop, seen from the polylines: what can have
    happened between the state [st] in which a line has just been read
    and the state [st'] at the end of the body. *)
Inductive Transition (st st' : State) : Prop :=
| HeaderStep :
    (* comments, names, descriptors, rejected lines *)
    container st' = container st ->
    Pshift st' = Pshift st ->
    firstVertex st' = firstVertex st ->
    (currentPoly st' = currentPoly st \/
     exists p q, currentPoly st = Some p /\ currentPoly st' = Some q /\
                 sameGeometry q p) ->
    Transition st st'
| BlockStep :
    (* a block header: the open block ends, a new one may start *)
    Pshift st' = Pshift st ->
    firstVertex st' = firstVertex st ->
    (container st' = container st \/
     exists p, currentPoly st = Some p /\ points (vertices p) <> [] /\
               container st' = container st ++ [finalized p]) ->
    (currentPoly st' = None \/
     currentPoly st' = Some (newPolyline (mkCloud [] 0 false))) ->
    Transition st st'
| PointStep (p q : ccPolyline) (Pd : Vec3) :
    (* a point is added to the open block *)
    container st' = container st ->
    currentPoly st = Some p ->
    currentPoly st' = Some q ->
    currentLine st <> EmptyString ->
    pointOfTokens (QString.split (currentLine st)) = Some Pd ->
    points (vertices q) = points (vertices p) ++ [vadd Pd (Pshift st')] ->
    pointIndexes q = pointIndexes p ->
    firstVertex st' = false ->
    (if firstVertex st
     then globalShift q = globalShift p \/ globalShift q = Pshift st'
     else Pshift st' = Pshift st /\ globalShift q = globalShift p) ->
    Transition st st'.

(** A failed assertion stops the run where it is: only a build with
    assertions does it, and only lines have been read. *)
Definition stopped (host : Host) (st st' : State) : Prop :=
  NDEBUG host = false /\
  container st' = container st /\ warnings st' = warnings st /\
  result st' = result st /\ Pshift st' = Pshift st /\
  currentPoly st' = currentPoly st.

(** What holds of the polylines of the container (C1). *)
Definition validAttached (p : ccPolyline) : Prop :=
  1 <= size p /\ size p = List.length (points (vertices p)).

Definition attachedInv (st : State) : Prop :=
  Forall validAttached (container st) /\
  (forall p, currentPoly st = Some p -> pointIndexes p = []).

(** The reader has a diagnostic of a malformed line exactly when its
    status is "malformed". *)
Definition statusInv (st : State) : Prop :=
  (result st = CC_FERR_NO_ERROR /\
   existsb isMalformedLine (warnings st) = false) \/
  (result st = CC_FERR_MALFORMED_FILE /\
   existsb isMalformedLine (warnings st) = true).

(** A stored vertex that is a point of a line of the file, translated by
    [shift]. *)
Definition translated (lines : list string) (shift v : Vec3) : Prop :=
  exists line Pd,
    In line lines /\
    pointOfTokens (QString.split line) = Some Pd /\
    v = vadd Pd shift.

Definition noShiftRecord (p : ccPolyline) : Prop := globalShift p = vzero.

Definition shiftRecordOf (shift : Vec3) (p : ccPolyline) : Prop :=
  globalShift p = vzero \/ globalShift p = shift.

Definition allTranslated (lines : list string) (shift : Vec3)
    (p : ccPolyline) : Prop :=
  Forall (translated lines shift) (points (vertices p)).

Record shiftInv (lines : list string) (st : State) : Prop := {
  later_have_none : Forall noShiftRecord (tl (container st));
  first_has_shift : Forall (shiftRecordOf (Pshift st)) (firstn 1 (container st));
  open_has_shift :
    forall p, currentPoly st = Some p ->
      shiftRecordOf (Pshift st) p /\ (container st <> [] -> noShiftRecord p);
  before_first_vertex :
    firstVertex st = true ->
    container st = [] /\
    (forall p, currentPoly st = Some p ->
       noShiftRecord p /\ points (vertices p) = []);
  attached_translated : Forall (allTranslated lines (Pshift st)) (container st);
  open_translated :
    forall p, currentPoly st = Some p -> allTranslated lines (Pshift st) p;
  stream_of_file : incl (stream st) lines
}.

(** A coordinate as the writer prints it when the sign is tested on the
    number that is printed. *)
Definition signedNumber (x : coord) : string :=
  ((if cge0 x then "+" else EmptyString) ++ number x "E" s_precision)%string.

(** The vertex line that the specification asks for: "three signed,
    fixed-notation numbers at 12-digit precision, each explicitly
    prefixed with + when non-negative, followed by a fixed
    point-terminator token". *)
Definition specVertexLine (poly : ccPolyline) (j : nat) : string :=
  let Pg := toGlobal3d poly (getPoint poly j) in
  let fixed (x : coord) :=
    ((if cge0 x then "+" else EmptyString) ++ number x "f" 12)%string in
  (" " ++ fixed (vx Pg) ++ " " ++ fixed (vy Pg) ++ " " ++ fixed (vz Pg)
    ++ " A")%string.

End Notions.

(** ** Notions used in the statements on the rest of the filter *)

(** A string without a character that [\s] matches, and a token: such a
    string that is not empty. *)
Fixpoint noSpace (s : string) : bool :=
  match s with
  | EmptyString => true
  | String c rest => negb (QString.isSpace c) && noSpace rest
  end.

Definition isWord (s : string) : bool := negb (QString.isEmpty s) && noSpace s.

(** A string without a line feed and without a carriage return. *)
Fixpoint singleLine (s : string) : bool :=
  match s with
  | EmptyString => true
  | String c rest =>
      negb (Ascii.eqb c "010" || Ascii.eqb c "013") && singleLine rest
  end.

(** The number of lines of [lines] that start a block. *)
Definition blockHeaders (lines : list string) : nat :=
  List.length (filter (fun l => QString.startsWith l "B") lines).

(** A block header that the reader rejects: no tag, a tag of several
    characters, or a tag that is none of S, P, N and C. *)
Definition rejectedHeader (line : string) : bool :=
  let tokens := QString.split line in
  let tag := nth 1 tokens EmptyString in
  Nat.ltb (List.length tokens) 2 || Nat.ltb 1 (String.length tag)
  || match curveTypeOfChar (QString.at0 tag) with
     | INVALID => true
     | _ => false
     end.

Section MoreNotions.
Context {N : Numeric}.

(** The profiles that the writer writes, and those that it skips with a
    warning: [vertCount < 2]. *)
Definition writtenProfiles (profiles : list ccPolyline) : list ccPolyline :=
  filter (fun p => negb (Nat.ltb (size p) 2)) profiles.

Definition skippedProfiles (profiles : list ccPolyline) : list ccPolyline :=
  filter (fun p => Nat.ltb (size p) 2) profiles.

(** A coordinate that is read back from what the writer prints for it:
    the text is one token, and [toDouble] gives the coordinate. *)
Definition readsBack (x : coord) : Prop :=
  isWord (signedNumber x) = true /\ toDouble (signedNumber x) = Some x.

Definition pointReadsBack (P : Vec3) : Prop :=
  readsBack (vx P) /\ readsBack (vy P) /\ readsBack (vz P).

(** A polyline without shift, whose name holds no line break and whose
    coordinates are read back from what the writer prints for them. *)
Definition readsBackProfile (p : ccPolyline) : Prop :=
  singleLine (name p) = true /\
  globalShift p = vzero /\
  forall j, j < size p -> pointReadsBack (getPoint p j).

(** The up direction that the reader finds in the base plane code that
    the writer prints for [upDir]. *)
Definition upDirRead (upDir : Z) : Z :=
  if Z.eqb upDir 2 then 2%Z else if Z.eqb upDir 1 then 1%Z else 0%Z.

(** The polyline that the reader builds from the block that the writer
    writes for [p], when nothing is recentered. *)
Definition reloaded (p : ccPolyline) : ccPolyline :=
  mkPoly (if QString.isEmpty (name p) then "Polyline"%string else name p)
         true (closed p) false
         (mkMetaData (Some (VInt (upDirRead (upDirOf p)))) None)
         vzero
         (mkCloud (map (getPoint p) (seq 0 (size p))) (size p) false)
         (seq 0 (size p)).

(** The block that is written for the polyline read back from the block
    of [p]. *)
Definition resavedBlock (p : ccPolyline) : list string :=
  [ "B S";
    "CN " ++ (if QString.isEmpty (name p) then "Polyline" else name p);
    "CP 1 " ++ (if closed p then "1" else "0");
    "CP 0" ]%string
  ++ map (vertexLine p) (seq 0 (size p)).

(** The polyline that the end of a block adds to the container, when no
    allocation fails. *)
Definition attachedOf (cp : option ccPolyline) : list ccPolyline :=
  match cp with
  | Some q =>
      match points (vertices q) with
      | [] => []
      | _ => [finalized q]
      end
  | None => []
  end.

(** A vertex cloud that grows by chunks of ten points: its capacity is
    its size, rounded up to a multiple of ten. *)
Definition chunked (c : ccPointCloud) : Prop :=
  List.length (points c) <= capacity c /\
  capacity c < List.length (points c) + 10 /\
  Nat.divide 10 (capacity c).

(** What holds of the polyline of the open block, *)
Definition openInv (p : ccPolyline) : Prop :=
  is2DMode p = false /\
  visible p = negb (enabled (vertices p)) /\
  chunked (vertices p).

(** of the polylines of the container, *)
Definition displayInv (p : ccPolyline) : Prop :=
  is2DMode p = false /\
  visible p = negb (enabled (vertices p)) /\
  capacity (vertices p) = List.length (points (vertices p)).

(** and of the state of the reader. *)
Definition buildInv (st : State) : Prop :=
  Forall displayInv (container st) /\
  (forall p, currentPoly st = Some p -> openInv p).

(** The line that a diagnostic names, when it names one. *)
Definition diagnosticLine (d : Diagnostic) : option nat :=
  match d with
  | BlockLineCorrupted n | UnhandledCurveType _ n | FlagsLineCorrupted n
  | AltitudeLineCorrupted n | BasePlaneLineCorrupted n
  | PointLineCorrupted n => Some n
  | Recentered _ | NotEnoughVertices _ => None
  end.

(** 1 when a block is open, 0 otherwise. *)
Definition openBlocks (st : State) : nat :=
  match currentPoly st with
  | Some _ => 1
  | None => 0
  end.

(** The blocks that the reader has met and kept: those of the
    container, and the open one. *)
Definition blocksMet (st : State) : nat :=
  List.length (container st) + openBlocks st.

(** The reader is at line [lineNumber] of the file, which is its current
    line, with the lines after it still to read; or it has met the end
    of the file. *)
Definition atLine (lines : list string) (st : State) : Prop :=
  (lineNumber st <= List.length lines /\
   stream st = skipn (lineNumber st) lines /\
   (1 <= lineNumber st ->
    currentLine st = nth (lineNumber st - 1) lines EmptyString)) \/
  (currentLine st = EmptyString /\ stream st = []).

(** What the body of the loop adds to the log: nothing, or one
    diagnostic, which names no line or the current one. *)
Definition logged (st st' : State) : Prop :=
  warnings st' = warnings st \/
  exists d,
    warnings st' = warnings st ++ [d] /\
    (diagnosticLine d = None \/
     diagnosticLine d = Some (lineNumber st) /\
     currentLine st <> EmptyString).

(** The diagnostics of the log name lines of the file that are not
    empty. *)
Definition namedLines (lines : list string) (st : State) : Prop :=
  forall d n,
    In d (warnings st) -> diagnosticLine d = Some n ->
    1 <= n <= List.length lines /\
    nth (n - 1) lines EmptyString <> EmptyString.

(** The release build of a host: the same collaborators, compiled with
    NDEBUG. *)
Definition release (host : Host) : Host :=
  mkHost (HandleGlobalShift host) (alloc_ok host) true.

(** The lines that a load has read: it is at line [lineNumber] of the
    file, or it has met the end of the file, one call of [readLine]
    later at most. *)
Definition linesRead (lines : list string) (st : State) : Prop :=
  (lineNumber st <= List.length lines /\
   stream st = skipn (lineNumber st) lines) \/
  (lineNumber st <= S (List.length lines) /\
   currentLine st = EmptyString /\ stream st = []).

End MoreNotions.

(** ** Notions on the states that a load reaches *)

Section ReachedNotions.
Context {N : Numeric}.
Variable host : Host.

(** A load whose reserve for a vertex failed: the loop has reached, in
    the state [s], a point line while the cloud of the open block was
    full, and the allocation request made then, the last one of the
    load, failed. *)
Definition reserveFailed (lines : list string) (st : State) : Prop :=
  exists n s line rest poly,
    run host n (initialState lines) = Some s /\
    stream s = line :: rest /\
    currentPoly s = Some poly /\
    pointLineOf line <> None /\
    List.length (points (vertices poly)) = capacity (vertices poly) /\
    alloc_ok host (allocations s) = false /\
    allocations st = S (allocations s).

(** The polyline [p] is the polyline [q] some iterations later: it has
    the shift record of [q], and the points of [q] followed by others. *)
Definition continues (q p : ccPolyline) : Prop :=
  globalShift p = globalShift q /\
  exists more, points (vertices p) = points (vertices q) ++ more.

(** The first vertex of a load: the loop has reached the state [st0], in
    which no vertex had been stored, and its next iteration, which ends
    in [st1], has read the point [Pd] and stored it in the polyline [q]
    of the open block, with the shift that [HandleGlobalShift] has
    given and, when it has returned true, the record of that shift. *)
Definition firstVertexAt (lines : list string) (st1 : State)
    (q : ccPolyline) : Prop :=
  exists n st0 Pd,
    run host n (initialState lines) = Some st0 /\
    firstVertex st0 = true /\
    iteration host st0 = Continue st1 /\
    firstVertex st1 = false /\
    container st1 = [] /\
    currentPoly st1 = Some q /\
    pointOfTokens (QString.split (currentLine st1)) = Some Pd /\
    Pshift st1 = snd (HandleGlobalShift host Pd vzero) /\
    globalShift q =
      (if fst (HandleGlobalShift host Pd vzero) then Pshift st1 else vzero) /\
    points (vertices q) = [vadd Pd (Pshift st1)].

(** The polylines [l] of a container, when [q] was the polyline open at
    the first vertex: [q] as it was attached, if it was, comes first;
    the others have no shift record. *)
Definition holderOf (q : ccPolyline) (l : list ccPolyline) : Prop :=
  exists first later,
    l = first ++ later /\
    Forall noShiftRecord later /\
    (first = [] \/ exists p, first = [p] /\ continues q p).

(** The same container, when [q] was attached: it comes first. *)
Definition attachedHolder (q : ccPolyline) (l : list ccPolyline) : Prop :=
  exists p later,
    l = p :: later /\ continues q p /\ Forall noShiftRecord later.

(** No allocation request of the load fails. *)
Definition memoryHolds : Prop := forall k, alloc_ok host k = true.

(** Before the first vertex; *)
Definition beforeFirstVertex (st : State) : Prop :=
  firstVertex st = true /\ Pshift st = vzero /\ container st = [] /\
  forall p, currentPoly st = Some p ->
    noShiftRecord p /\ points (vertices p) = [].

(** after it, while the block of [q] is open, and once it has ended. *)
Definition afterFirstVertex (q : ccPolyline) (shift : Vec3) (st : State)
    : Prop :=
  Pshift st = shift /\ firstVertex st = false /\
  ((container st = [] /\
    exists p, currentPoly st = Some p /\ continues q p) \/
   (holderOf q (container st) /\
    (memoryHolds -> attachedHolder q (container st)) /\
    forall p, currentPoly st = Some p -> noShiftRecord p)).

Definition holderInv (lines : list string) (st : State) : Prop :=
  beforeFirstVertex st \/
  exists st1 q,
    firstVertexAt lines st1 q /\ afterFirstVertex q (Pshift st1) st.

End ReachedNotions.

(** ** Sample inputs, with integer-valued coordinates *)

Module Samples.
Import IntegerCoordinates.

(** The state in which a load ends, and the state at the head of the
    loop after [n] iterations (the initial state when there is none). *)
Definition finalState (host : Host) (lines : list string) : State :=
  match loadFile host (Some lines) with
  | Some x => exitState x
  | None => initialState lines
  end.

Definition stateAfter (host : Host) (n : nat) (lines : list string) : State :=
  match run host n (initialState lines) with
  | Some st => st
  | None => initialState lines
  end.

Definition cloudOf (pts : list Vec3) : ccPointCloud :=
  mkCloud pts (List.length pts) false.

(** A polyline of two vertices, as a load without recentering builds it. *)
Definition segment (name : string) : ccPolyline :=
  mkPoly name true false false (mkMetaData None None) vzero
         (cloudOf [mkVec3 1 (-2) 3; mkVec3 4 5 6]%Z) [0; 1].

(** Two curves far from the origin. *)
Definition twoCurves : list string :=
  [ "B S"; "CN one"; "CP 1 0"; "CP 0";
    "5000000 20 3 A"; "5000010 20 3 A";
    "B S"; "CN two"; "CP 1 0"; "CP 0";
    "5000020 50 3 A"; "5000030 20 3 A" ].

(** A block of one vertex. *)
Definition oneVertex : list string := [ "B S"; "1 2 3 A" ].

(** A blank line between two vertices, and the same file without it. *)
Definition withBlankLine : list string :=
  [ "B S"; "1 2 3 A"; EmptyString; "4 5 6 A" ].

Definition withoutBlankLine : list string :=
  [ "B S"; "1 2 3 A"; "4 5 6 A" ].

(** A malformed flags line, followed by a well-formed one. *)
Definition badFlags : list string :=
  [ "B S"; "CP a b"; "CP 0 1"; "1 2 3 A" ].

(** The state of the reader after the first line of [badFlags]. *)
Definition afterHeader : State :=
  mkState [ "CP a b"; "CP 0 1"; "1 2 3 A" ] "B S"
          (Some (newPolyline (mkCloud [] 0 false))) 1 CUREV_S 0
          CC_FERR_NO_ERROR vzero true [] [] 0.

(** The state of the reader inside a Circle block, before a descriptor
    line of stage 1 whose values go on over two more lines. *)
Definition inCircle : State :=
  mkState [ "CP 1 2 3"; "4 5 6 7 8 9 10 11"; "12 13 14 15 16"; "CP 0" ]
          "CP 1 0" (Some (newPolyline (mkCloud [] 0 false))) 2 CURVE_C 1
          CC_FERR_NO_ERROR vzero true [] [] 0.

(** Two blocks; with [failingHost 3] the allocation for the first vertex
    of the second block fails. *)
Definition twoBlocks : list string :=
  [ "B S"; "1 2 3 A"; "4 5 6 A"; "B S"; "7 8 9 A" ].


(** The states in which the loads of the samples end. *)
Definition loadedOneVertex : State :=
  Eval vm_compute in finalState plainHost oneVertex.

Definition loadedWithBlankLine : State :=
  Eval vm_compute in finalState plainHost withBlankLine.

Definition loadedWithoutBlankLine : State :=
  Eval vm_compute in finalState plainHost withoutBlankLine.

Definition loadedBadFlags : State :=
  Eval vm_compute in finalState plainHost badFlags.

Definition loadedComment : State :=
  Eval vm_compute in finalState plainHost [ "C Generated by CloudCompare" ].

Definition loadedTwoCurves : State :=
  Eval vm_compute in finalState plainHost twoCurves.

(** The state after the two first lines of [badFlags], and the state
    after the four first lines of [twoBlocks]. *)
Definition afterBadFlags : State :=
  Eval vm_compute in stateAfter plainHost 2 badFlags.

Definition beforeFailure : State :=
  Eval vm_compute in stateAfter (failingHost 3) 4 twoBlocks.

(** A Circle block with three values on its descriptor line of stage 1,
    at the end of the file; the state in which its load ends in a build
    with assertions. *)
Definition shortCircle : list string := [ "B C"; "CP 1 0"; "CP 1 2 3" ].

Definition afterShortCircle : State :=
  Eval vm_compute in finalState debugHost shortCircle.

(** The state in which its load ends in the release build. *)
Definition loadedShortCircle : State :=
  Eval vm_compute in finalState plainHost shortCircle.

End Samples.

(** ** More sample inputs *)

Module MoreSamples.
Import IntegerCoordinates Samples.

(** Lines of every kind, and no block header. *)
Definition strayLines : list string :=
  [ "C a drawing"; "CN nobody"; "CP 1 0"; "1 2 3 A"; "S B"; "CP" ].

(** A block, then a block whose tag is unknown, then a block. *)
Definition badTag : list string :=
  [ "B S"; "1 2 3 A"; "B X"; "4 5 6 A"; "7 8 9 A"; "B S"; "0 0 0 A" ].

(** The state of the reader after the two first lines of [badTag]. *)
Definition beforeBadTag : State :=
  Eval vm_compute in stateAfter plainHost 2 badTag.

(** A block of eleven vertices, and the state of the reader after its
    twelve lines. *)
Definition elevenVertices : list string :=
  "B S" :: repeat "1 2 3 A" 11.

Definition afterEleven : State :=
  Eval vm_compute in stateAfter plainHost 12 elevenVertices.

(** The state in which the load of [twoBlocks] ends in a build with
    assertions. *)
Definition loadedTwoBlocks : State :=
  Eval vm_compute in finalState debugHost twoBlocks.

End MoreSamples.

(** ** A drawing, with coordinates read in scientific notation *)

Module Drawings.
Import ScientificCoordinates.

(** Three polylines as a user draws them: the first one closed and in 2D
    mode with the X axis up, the second one with one vertex, the third
    one without a name. *)
Definition triangle : ccPolyline :=
  mkPoly "triangle" true true true
         (mkMetaData (Some (VInt 0)) None) vzero
         (mkCloud [ mkVec3 0 0 0; mkVec3 12 (-5) 0; mkVec3 1500 250 (-3) ]%Z
                  3 false)
         [0; 1; 2].

Definition dot : ccPolyline :=
  mkPoly "dot" true false false (mkMetaData None None) vzero
         (mkCloud [ mkVec3 1 1 1 ]%Z 1 false) [0].

Definition unnamed : ccPolyline :=
  mkPoly EmptyString true false false (mkMetaData None None) vzero
         (mkCloud [ mkVec3 7 8 9; mkVec3 (-1) 0 123456 ]%Z 2 false)
         [1; 0].

Definition drawing : ccHObject :=
  HierarchyObject
    [ PolylineEntity triangle; OtherEntity; PolylineEntity dot;
      PolylineEntity unnamed ].

(** The file that is written for the drawing, *)
Definition savedDrawing : list string :=
  Eval vm_compute in outFile (saveToFile (Some drawing) "drawing.sx" true true).

(** the polylines that are read back from it, *)
Definition loadedDrawing : list ccPolyline :=
  Eval vm_compute in map reloaded (writtenProfiles (profilesOf drawing)).

(** and the file that is written for them. *)
Definition resavedDrawing : list string :=
  Eval vm_compute in
    "C Generated by CloudCompare"
      :: flat_map resavedBlock (writtenProfiles (profilesOf drawing)).

End Drawings.

(** * Properties *)

(** Case analysis on a [match] (or [if]) of the goal whose scrutinee
    contains no other one. *)
Ltac innermost x :=
  lazymatch x with
  | context [match _ with _ => _ end] => fail
  | _ => idtac
  end.

Ltac break_match :=
  match goal with
  | |- context [match ?x with _ => _ end] => innermost x; destruct x eqn:?
  end.

Ltac break_match_in H :=
  match type of H with
  | context [match ?x with _ => _ end] => innermost x; destruct x eqn:?
  end.

(** ** Strings *)

Lemma isEmpty_true (s : string) : QString.isEmpty s = true <-> s = EmptyString.
Proof. destruct s; simpl; split; congruence. Qed.

(** A line that starts with "CP" is neither a comment, nor a block
    header, nor a name line. *)
Lemma startsWith_CP (line : string) :
  QString.startsWith line "CP" = true ->
  QString.startsWith line "C " = false /\
  QString.startsWith line "B" = false /\
  QString.startsWith line "CN" = false /\
  QString.isEmpty line = false.
Proof.
  destruct line as [|a [|b rest]]; simpl; try discriminate.
  - rewrite andb_false_r. discriminate.
  - rewrite !andb_true_r.
    destruct (Ascii.eqb_spec a "C") as [->|]; [|discriminate].
    destruct (Ascii.eqb_spec b "P") as [->|]; [|discriminate].
    intros _. repeat split.
Qed.

(** [MakeSinusxName] leaves no space in a name. *)
Lemma MakeSinusxName_no_space (s : string) (n : nat) :
  String.get n (MakeSinusxName s) <> Some " "%char.
Proof.
  unfold MakeSinusxName. revert n.
  induction s as [|c rest IH]; intros n; simpl.
  - destruct n; discriminate.
  - destruct n as [|n]; [|apply IH].
    destruct (Ascii.eqb_spec c " ") as [->|ne]; [discriminate|].
    intros [= ->]. apply ne. reflexivity.
Qed.

(** ** The loop of the reader ends *)

Section ReaderTermination.
Context {N : Numeric}.
Variable host : Host.

Lemma skipValues_length (s : list string) :
  forall l n k s' l' n' k',
    skipValues s l n k = (s', l', n', k') ->
    List.length s' <= List.length s.
Proof.
  induction s as [|a s IH]; intros l n k s' l' n' k'; simpl.
  - destruct (_ && _); intros [= <- _ _ _]; simpl; lia.
  - destruct (_ && _).
    + intros H. apply IH in H. lia.
    + intros [= <- _ _ _]. simpl. lia.
Qed.

Lemma attachIfValid_stream poly (st : State) :
  stream (attachIfValid host poly st) = stream st.
Proof. unfold attachIfValid, allocate. repeat break_match; auto. Qed.

Lemma descriptorLine_stream poly (st : State) :
  match descriptorLine host poly st with
  | Continue st' | Return _ st' | Abort st' =>
      List.length (stream st') <= List.length (stream st)
  end.
Proof.
  unfold descriptorLine, flagsLine, basePlaneLine, altitudeLine, circleLine,
    assertion.
  repeat break_match; simpl; try lia.
  all: eapply skipValues_length; eassumption.
Qed.

Lemma dispatch_stream (st : State) :
  match dispatch host st with
  | Continue st' | Return _ st' | Abort st' =>
      List.length (stream st') <= List.length (stream st)
  end.
Proof.
  unfold dispatch.
  destruct (QString.startsWith _ "C "); [lia|].
  destruct (QString.startsWith _ "B").
  { unfold openBlock, closeBlock.
    destruct (currentPoly st); repeat break_match; simpl;
      rewrite ?attachIfValid_stream; lia. }
  destruct (currentPoly st) as [poly|]; [|lia].
  destruct (QString.startsWith _ "CN").
  { unfold nameLine. break_match; simpl; lia. }
  destruct (QString.startsWith _ "CP"); [apply descriptorLine_stream|].
  destruct (negb _); [|lia].
  unfold pointLine, allocate. repeat break_match; simpl; lia.
Qed.

(** On the null line that [readLine] returns at the end of the stream
    (and on a blank line) the body of the loop does nothing. *)
Lemma dispatch_empty_line (st : State) :
  currentLine st = EmptyString -> dispatch host st = Continue st.
Proof.
  intros E. unfold dispatch. rewrite E. simpl.
  destruct (currentPoly st); reflexivity.
Qed.

Lemma iteration_progress (st : State) :
  match iteration host st with
  | Continue st' =>
      currentLine st' = EmptyString \/
      List.length (stream st') < List.length (stream st)
  | Return _ _ | Abort _ => True
  end.
Proof.
  unfold iteration, readLine.
  destruct (stream st) as [|l rest] eqn:E.
  - rewrite dispatch_empty_line by reflexivity. left. reflexivity.
  - pose proof (dispatch_stream (withInput rest l (S (lineNumber st)) st)) as H.
    destruct (dispatch _ _); [|exact I|exact I].
    right. simpl in *. lia.
Qed.

Lemma loop_ends (fuel : nat) :
  forall st,
    currentLine st = EmptyString \/ List.length (stream st) < fuel ->
    exists x, loop host fuel st = Some x.
Proof.
  induction fuel as [|fuel IH]; intros st H.
  - destruct H as [H|H]; [|lia].
    simpl. rewrite H. simpl. eauto.
  - simpl. destruct (QString.isEmpty (currentLine st)) eqn:E; [eauto|].
    assert (List.length (stream st) < S fuel) as L.
    { destruct H as [H|H]; [|exact H]. rewrite H in E. discriminate. }
    pose proof (iteration_progress st) as P.
    destruct (iteration host st) as [st'|e st'|st']; [|eauto|eauto].
    apply IH. destruct P; [auto|right; lia].
Qed.

(** The call of [loadFile] ends on every file. *)
Lemma loadFile_ends (file : option (list string)) :
  exists x, loadFile host file = Some x.
Proof.
  destruct file as [lines|]; simpl; [|eauto].
  destruct (loop_ends (S (List.length lines)) (initialState lines))
    as [x Hx]; [right; simpl; lia|].
  eauto.
Qed.

(** Induction on the iterations of the loop: a property that holds
    before the loop and that an iteration preserves holds of the state
    that the loop hands to the code after it, and of the state in which
    an iteration leaves the function or stops the program. *)
Lemma loop_invariant (P : State -> Prop) (Q : Exit -> Prop) :
  (forall st st', P st -> iteration host st = Continue st' -> P st') ->
  (forall st, P st -> Q (lastBlock host st)) ->
  (forall st e st',
     P st -> iteration host st = Return e st' -> Q (Returned e st')) ->
  (forall st st', P st -> iteration host st = Abort st' -> Q (Aborted st')) ->
  forall fuel st x, P st -> loop host fuel st = Some x -> Q x.
Proof.
  intros Hstep Hlast Hret Habort.
  induction fuel as [|fuel IH]; intros st x HP; simpl.
  - destruct (QString.isEmpty _); [|discriminate].
    intros [= <-]. auto.
  - destruct (QString.isEmpty _); [intros [= <-]; auto|].
    destruct (iteration host st) as [st'|e st'|st'] eqn:E.
    + apply IH. eauto.
    + intros [= <-]. eauto.
    + intros [= <-]. eauto.
Qed.

Lemma loadFile_invariant (P : State -> Prop) (Q : Exit -> Prop)
    (lines : list string) :
  P (initialState lines) ->
  (forall st st', P st -> iteration host st = Continue st' -> P st') ->
  (forall st, P st -> Q (lastBlock host st)) ->
  (forall st e st',
     P st -> iteration host st = Return e st' -> Q (Returned e st')) ->
  (forall st st', P st -> iteration host st = Abort st' -> Q (Aborted st')) ->
  exists x, loadFile host (Some lines) = Some x /\ Q x.
Proof.
  intros H0 Hstep Hlast Hret Habort.
  destruct (loadFile_ends (Some lines)) as [x Hx].
  exists x. split; [exact Hx|].
  eapply loop_invariant; eauto.
Qed.

End ReaderTermination.

(** ** The reader *)

Section ReaderProperties.
Context {N : Numeric}.
Variable host : Host.

(** *** What an iteration does to the polylines *)

Lemma attachIfValid_frame (poly : ccPolyline) (st : State) :
  let st' := attachIfValid host poly st in
  Pshift st' = Pshift st /\ firstVertex st' = firstVertex st /\
  currentPoly st' = currentPoly st /\
  (container st' = container st \/
   points (vertices poly) <> [] /\
   container st' = container st ++ [finalized poly]).
Proof.
  unfold attachIfValid, allocate, finalized.
  destruct (points (vertices poly)) eqn:E; simpl.
  - auto.
  - repeat break_match; simpl; repeat split; auto.
    right. split; [discriminate|reflexivity].
Qed.

Lemma openBlock_frame (st : State) :
  let st' := openBlock st in
  Pshift st' = Pshift st /\ firstVertex st' = firstVertex st /\
  container st' = container st /\ stream st' = stream st /\
  (currentPoly st' = currentPoly st \/
   currentPoly st' = Some (newPolyline (mkCloud [] 0 false))).
Proof.
  unfold openBlock. repeat break_match; simpl; auto 10.
Qed.

Lemma nameLine_frame (poly : ccPolyline) (st : State) :
  let st' := nameLine poly st in
  Pshift st' = Pshift st /\ firstVertex st' = firstVertex st /\
  container st' = container st /\ stream st' = stream st /\
  (currentPoly st' = currentPoly st \/
   exists q, currentPoly st' = Some q /\ sameGeometry q poly).
Proof.
  unfold nameLine, sameGeometry. repeat break_match; simpl; eauto 10.
Qed.

Lemma skipValues_suffix (s : list string) :
  forall l n k s' l' n' k',
    skipValues s l n k = (s', l', n', k') -> incl s' s.
Proof.
  induction s as [|a s IH]; intros l n k s' l' n' k'; simpl.
  - destruct (_ && _); intros [= <- _ _ _]; apply incl_refl.
  - destruct (_ && _).
    + intros H. apply IH in H. apply incl_tl. exact H.
    + intros [= <- _ _ _]. apply incl_refl.
Qed.

Lemma descriptorLine_frame (poly : ccPolyline) (st : State) :
  match descriptorLine host poly st with
  | Continue st' =>
      Pshift st' = Pshift st /\ firstVertex st' = firstVertex st /\
      container st' = container st /\
      (currentPoly st' = currentPoly st \/
       exists q, currentPoly st' = Some q /\ sameGeometry q poly)
  | Return _ _ => False
  | Abort st' => stopped host st st'
  end /\
  match descriptorLine host poly st with
  | Continue st' | Return _ st' | Abort st' => incl (stream st') (stream st)
  end.
Proof.
  unfold descriptorLine, flagsLine, basePlaneLine, altitudeLine, circleLine,
    assertion, sameGeometry, stopped.
  destruct (NDEBUG host) eqn:D.
  all: repeat break_match; simpl; repeat split; eauto 10 using incl_refl.
  all: try discriminate.
  all: eapply skipValues_suffix; eassumption.
Qed.


Lemma pointLine_transition (poly : ccPolyline) (st : State) :
  currentPoly st = Some poly ->
  currentLine st <> EmptyString ->
  match pointLine host poly st with
  | Continue st' => Transition st st'
  | Return e st' =>
      e = CC_FERR_NOT_ENOUGH_MEMORY /\ container st' = container st /\
      currentPoly st' = None /\ warnings st' = warnings st /\
      Pshift st' = Pshift st /\ firstVertex st' = firstVertex st
  | Abort _ => False
  end.
Proof.
  intros Hp Hl. unfold pointLine.
  destruct (pointOfTokens _) as [Pd|] eqn:E.
  2: { apply HeaderStep; simpl; auto. }
  unfold allocate.
  destruct (Nat.eqb _ _); [destruct (alloc_ok host _)|]; simpl.
  2: { repeat split. }
  all: destruct (firstVertex st) eqn:F; simpl;
    [destruct (HandleGlobalShift host Pd (Pshift st)) as [[|] shift]|];
    simpl.
  all: eapply PointStep with (Pd := Pd); simpl; try eassumption;
    try reflexivity; rewrite ?F; auto.
Qed.

Lemma dispatch_transition (st : State) :
  match dispatch host st with
  | Continue st' => Transition st st'
  | Return e st' =>
      e = CC_FERR_NOT_ENOUGH_MEMORY /\ container st' = container st /\
      currentPoly st' = None /\ warnings st' = warnings st /\
      Pshift st' = Pshift st /\ firstVertex st' = firstVertex st
  | Abort st' => stopped host st st'
  end.
Proof.
  unfold dispatch.
  destruct (QString.startsWith _ "C "); [apply HeaderStep; auto|].
  destruct (QString.startsWith _ "B").
  { pose proof (openBlock_frame (closeBlock host st)) as (H1 & H2 & H3 & _ & H5).
    unfold closeBlock in *.
    destruct (currentPoly st) as [poly|] eqn:Hp.
    - pose proof (attachIfValid_frame poly st) as (A1 & A2 & _ & A4).
      simpl in *.
      apply BlockStep; try congruence.
      rewrite H3. destruct A4 as [A4|[A4 A5]]; [left|right]; eauto.
    - apply BlockStep; auto.
      destruct H5 as [H5|H5]; [left; congruence|auto]. }
  destruct (currentPoly st) as [poly|] eqn:Hp; [|apply HeaderStep; auto].
  destruct (QString.startsWith _ "CN").
  { pose proof (nameLine_frame poly st) as (H1 & H2 & H3 & _ & H5).
    apply HeaderStep; auto.
    destruct H5 as [H5|(q & H5 & H6)]; [left; congruence|right; eauto]. }
  destruct (QString.startsWith _ "CP").
  { pose proof (proj1 (descriptorLine_frame poly st)) as H.
    destruct (descriptorLine host poly st) as [st'|e st'|st'];
      [|contradiction|exact H].
    destruct H as (H1 & H2 & H3 & H5).
    apply HeaderStep; auto.
    destruct H5 as [H5|(q & H5 & H6)]; [left; congruence|right; eauto]. }
  destruct (QString.isEmpty _) eqn:E; simpl; [apply HeaderStep; auto|].
  assert (currentLine st <> EmptyString) as Hl.
  { intros H'. rewrite H' in E. discriminate. }
  pose proof (pointLine_transition poly st Hp Hl) as H.
  destruct (pointLine host poly st); [exact H|exact H|contradiction].
Qed.

(** What [readLine] returns is the next line of the stream, or the null
    string. *)
Lemma readLine_line (st : State) :
  currentLine (readLine st) = EmptyString \/
  In (currentLine (readLine st)) (stream st).
Proof.
  unfold readLine. destruct (stream st); simpl; auto.
Qed.

Lemma iteration_stream (st : State) :
  match iteration host st with
  | Continue st' | Return _ st' | Abort st' => incl (stream st') (stream st)
  end.
Proof.
  unfold iteration.
  assert (incl (stream (readLine st)) (stream st)) as H.
  { unfold readLine. destruct (stream st); simpl;
      [apply incl_refl|apply incl_tl, incl_refl]. }
  revert H. generalize (readLine st). intros s H.
  assert (match dispatch host s with
          | Continue st' | Return _ st' | Abort st' =>
              incl (stream st') (stream s)
          end); [|destruct (dispatch host s); eapply incl_tran; eassumption].
  unfold dispatch.
  destruct (QString.startsWith _ "C "); [apply incl_refl|].
  destruct (QString.startsWith _ "B").
  { destruct (openBlock_frame (closeBlock host s)) as (_ & _ & _ & -> & _).
    unfold closeBlock. destruct (currentPoly s); simpl;
      rewrite ?attachIfValid_stream; apply incl_refl. }
  destruct (currentPoly s) as [poly|]; [|apply incl_refl].
  destruct (QString.startsWith _ "CN").
  { destruct (nameLine_frame poly s) as (_ & _ & _ & -> & _). apply incl_refl. }
  destruct (QString.startsWith _ "CP").
  { apply (proj2 (descriptorLine_frame poly s)). }
  destruct (negb _); [|apply incl_refl].
  unfold pointLine, allocate. repeat break_match; simpl; apply incl_refl.
Qed.


(** *** The status and the diagnostics *)

Ltac status_cases :=
  repeat break_match; simpl in *;
  rewrite ?existsb_app; simpl; rewrite ?orb_true_r, ?orb_false_r; auto.

Lemma attachIfValid_status poly st :
  statusInv st -> statusInv (attachIfValid host poly st).
Proof. unfold statusInv, attachIfValid, allocate. intros H. status_cases. Qed.

Lemma dispatch_status st :
  statusInv st ->
  match dispatch host st with
  | Continue st' => statusInv st'
  | Return e st' => e = CC_FERR_NOT_ENOUGH_MEMORY
  | Abort _ => NDEBUG host = false
  end.
Proof.
  intros H. unfold dispatch.
  destruct (QString.startsWith _ "C "); [exact H|].
  destruct (QString.startsWith _ "B").
  { assert (statusInv (closeBlock host st)) as H1.
    { unfold closeBlock. destruct (currentPoly st) as [c|]; [|exact H].
      apply (attachIfValid_status c) in H. exact H. }
    revert H1. generalize (closeBlock host st). intros s.
    unfold statusInv, openBlock. intros H1. status_cases. }
  destruct (currentPoly st) as [poly|]; [|exact H].
  destruct (QString.startsWith _ "CN").
  { unfold statusInv, nameLine in *. status_cases. }
  destruct (QString.startsWith _ "CP").
  { unfold statusInv, descriptorLine, flagsLine, basePlaneLine,
      altitudeLine, circleLine, assertion in *.
    destruct (NDEBUG host); status_cases. }
  destruct (negb _); [|exact H].
  unfold statusInv, pointLine, allocate in *. status_cases.
Qed.

Lemma iteration_status st :
  statusInv st ->
  match iteration host st with
  | Continue st' => statusInv st'
  | Return e st' => e = CC_FERR_NOT_ENOUGH_MEMORY
  | Abort _ => NDEBUG host = false
  end.
Proof.
  intros H. apply dispatch_status.
  unfold readLine. destruct (stream st); exact H.
Qed.

(** *** The polylines of the container *)

Lemma finalized_valid (p : ccPolyline) :
  pointIndexes p = [] -> points (vertices p) <> [] ->
  validAttached (finalized p).
Proof.
  intros Hi Hp. unfold validAttached, finalized, size. simpl.
  rewrite Hi. simpl. rewrite length_seq, Nat.sub_0_r.
  split; [|reflexivity].
  destruct (points (vertices p)); [congruence|simpl; lia].
Qed.

Lemma transition_attached (st st' : State) :
  Transition st st' -> attachedInv st -> attachedInv st'.
Proof.
  intros T [HA HO]. destruct T as [Hc _ _ Hp | _ _ Hc Hp | p q Pd Hc Hp Hq _ _ _ Hi _ _].
  - split; [rewrite Hc; exact HA|].
    intros r Hr. destruct Hp as [Hp|(p & q & Hp & Hq & _ & _ & Hi)].
    + apply HO. congruence.
    + assert (r = q) as -> by congruence. rewrite Hi. auto.
  - split.
    + destruct Hc as [->|(p & Hp' & Hne & ->)]; [exact HA|].
      apply Forall_app. split; [exact HA|].
      constructor; [|constructor]. apply finalized_valid; auto.
    + intros r Hr. destruct Hp as [Hp|Hp]; [congruence|].
      assert (r = newPolyline (mkCloud [] 0 false)) as -> by congruence.
      reflexivity.
  - split; [rewrite Hc; exact HA|].
    intros r Hr. assert (r = q) as -> by congruence.
    rewrite Hi. auto.
Qed.

Lemma readLine_attached (st : State) :
  attachedInv st -> attachedInv (readLine st).
Proof. unfold readLine. destruct (stream st); auto. Qed.

(** C1, amended: when a block ends (at the next block header or after
    the loop), its polyline is attached to the container exactly when its
    vertex cloud is not empty and the two allocations of the closing test
    succeed; otherwise the container is left as it was.  So every
    polyline of the container of every load has at least one vertex (not
    two), and as many indexes as vertices. *)
Theorem attached_polylines_not_empty :
  (forall poly st,
     let n := List.length (points (vertices poly)) in
     container (attachIfValid host poly st) =
       container st ++
       (if Nat.leb 1 n && alloc_ok host (allocations st)
           && alloc_ok host (S (allocations st))
        then [finalized poly] else [])) /\
  (forall lines, exists x,
     loadFile host (Some lines) = Some x /\
     Forall validAttached (container (exitState x))).
Proof.
  split.
  - intros poly st n. subst n. unfold attachIfValid, allocate, finalized.
    destruct (points (vertices poly)); simpl.
    + rewrite app_nil_r. reflexivity.
    + destruct (alloc_ok host (allocations st)); simpl;
        [|rewrite app_nil_r; reflexivity].
      destruct (alloc_ok host (S (allocations st))); simpl;
        [|rewrite app_nil_r; reflexivity].
      reflexivity.
  - intros lines.
    apply (loadFile_invariant host attachedInv).
    + split; [constructor|]. intros p [=].
    + intros st st' H E. unfold iteration in E.
      pose proof (dispatch_transition (readLine st)) as T.
      rewrite E in T.
      eapply transition_attached; [exact T|].
      apply readLine_attached, H.
    + intros st [HA HO]. unfold lastBlock.
      destruct (currentPoly st) as [poly|] eqn:Hp; simpl; [|exact HA].
      destruct (attachIfValid_frame poly st) as (_ & _ & _ & [->| [Hne ->]]);
        [exact HA|].
      apply Forall_app. split; [exact HA|].
      constructor; [|constructor]. apply finalized_valid; auto.
    + intros st e st' H E. unfold iteration in E.
      pose proof (dispatch_transition (readLine st)) as T.
      rewrite E in T. destruct T as (_ & Hc & _).
      simpl. rewrite Hc.
      apply readLine_attached in H. apply H.
    + intros st st' H E. unfold iteration in E.
      pose proof (dispatch_transition (readLine st)) as T.
      rewrite E in T. destruct T as (_ & Hc & _).
      simpl. rewrite Hc.
      apply readLine_attached in H. apply H.
Qed.

(** *** The shift and its record *)

Lemma Forall_tl_snoc {A} (P : A -> Prop) (l : list A) (x : A) :
  Forall P (tl l) -> (l <> [] -> P x) -> Forall P (tl (l ++ [x])).
Proof.
  destruct l as [|a l]; simpl; intros H Hx; [constructor|].
  apply Forall_app. split; [exact H|].
  constructor; [|constructor]. apply Hx. discriminate.
Qed.

Lemma Forall_first_snoc {A} (P : A -> Prop) (l : list A) (x : A) :
  Forall P (firstn 1 l) -> (l = [] -> P x) -> Forall P (firstn 1 (l ++ [x])).
Proof.
  destruct l as [|a l]; simpl; intros H Hx; [|exact H].
  constructor; [|constructor]. apply Hx. reflexivity.
Qed.

Lemma shiftInv_attach (lines : list string) (st st' : State)
    (p : ccPolyline) :
  shiftInv lines st -> currentPoly st = Some p ->
  points (vertices p) <> [] ->
  container st' = container st ++ [finalized p] ->
  Pshift st' = Pshift st ->
  Forall noShiftRecord (tl (container st')) /\
  Forall (shiftRecordOf (Pshift st')) (firstn 1 (container st')) /\
  Forall (allTranslated lines (Pshift st')) (container st') /\
  firstVertex st = false.
Proof.
  intros I Hp Hne -> ->.
  destruct (open_has_shift _ _ I p Hp) as [H1 H2].
  repeat split.
  - apply Forall_tl_snoc; [apply I|exact H2].
  - apply Forall_first_snoc; [apply I|intros _; exact H1].
  - apply Forall_app. split; [apply I|].
    constructor; [|constructor]. apply (open_translated _ _ I p Hp).
  - destruct (firstVertex st) eqn:F; [|reflexivity].
    destruct (before_first_vertex _ _ I F) as [_ H].
    destruct (H p Hp) as [_ H']. congruence.
Qed.

Lemma transition_shift (lines : list string) (st st' : State) :
  Transition st st' ->
  currentLine st = EmptyString \/ In (currentLine st) lines ->
  incl (stream st') lines ->
  shiftInv lines st -> shiftInv lines st'.
Proof.
  intros T Hl Hs I.
  destruct T as [Hc Hsh Hf Hp | Hsh Hf Hc Hp
                | p q Pd Hc Hp Hq Hne HPd Hpts _ Hf Hsh].
  - (* the polylines keep their shift record and their points *)
    assert (forall r, currentPoly st' = Some r ->
              exists p, currentPoly st = Some p /\
                        globalShift r = globalShift p /\
                        points (vertices r) = points (vertices p)) as Ho.
    { intros r Hr. destruct Hp as [Hp|(p & q & Hp & Hq & G1 & G2 & _)].
      - exists r. rewrite <- Hp. auto.
      - exists p. assert (r = q) as -> by congruence. auto. }
    constructor; rewrite ?Hc, ?Hsh, ?Hf; try apply I; try exact Hs.
    + intros r Hr. destruct (Ho r Hr) as (p & Hp' & G1 & _).
      unfold shiftRecordOf, noShiftRecord. rewrite G1.
      apply (open_has_shift _ _ I p Hp').
    + intros F. destruct (before_first_vertex _ _ I F) as [H1 H2].
      split; [exact H1|]. intros r Hr.
      destruct (Ho r Hr) as (p & Hp' & G1 & G2).
      unfold noShiftRecord. rewrite G1, G2. apply H2, Hp'.
    + intros r Hr. destruct (Ho r Hr) as (p & Hp' & _ & G2).
      unfold allTranslated. rewrite G2.
      apply (open_translated _ _ I p Hp').
  - (* a block ends, another one may start *)
    assert (forall r, currentPoly st' = Some r ->
              noShiftRecord r /\ points (vertices r) = []) as Ho.
    { intros r Hr. destruct Hp as [Hp|Hp]; [congruence|].
      assert (r = newPolyline (mkCloud [] 0 false)) as -> by congruence.
      split; reflexivity. }
    assert (Forall noShiftRecord (tl (container st')) /\
            Forall (shiftRecordOf (Pshift st')) (firstn 1 (container st')) /\
            Forall (allTranslated lines (Pshift st')) (container st') /\
            (firstVertex st = true -> container st' = [])) as (A1 & A2 & A3 & A4).
    { destruct Hc as [Hc|(p & Hp' & Hne & Hc)].
      - rewrite Hc, Hsh. repeat split; try apply I.
      - destruct (shiftInv_attach lines st st' p I Hp' Hne Hc Hsh)
          as (B1 & B2 & B3 & B4).
        repeat split; auto. congruence. }
    constructor; auto.
    + intros r Hr. destruct (Ho r Hr) as [H1 _].
      split; [left; exact H1|intros _; exact H1].
    + rewrite Hf. auto.
    + intros r Hr. destruct (Ho r Hr) as [_ H2].
      unfold allTranslated. rewrite H2. constructor.
  - (* a point *)
    assert (translated lines (Pshift st') (vadd Pd (Pshift st'))) as Tr.
    { exists (currentLine st), Pd.
      destruct Hl as [Hl|Hl]; [congruence|]. auto. }
    destruct (firstVertex st) eqn:F.
    + destruct (before_first_vertex _ _ I F) as [Hempty Hopen].
      destruct (Hopen p Hp) as [Hz Hnil].
      constructor; rewrite ?Hc, ?Hempty; simpl; auto; try congruence.
      * intros r Hr. assert (r = q) as -> by congruence.
        split; [|congruence].
        unfold shiftRecordOf. destruct Hsh as [Hsh|Hsh]; [left|right]; congruence.
      * intros r Hr. assert (r = q) as -> by congruence.
        unfold allTranslated. rewrite Hpts, Hnil. simpl. auto.
    + destruct Hsh as [Hsh Hg].
      constructor; rewrite ?Hc, ?Hsh; try apply I; try exact Hs;
        try congruence.
      * intros r Hr. assert (r = q) as -> by congruence.
        unfold shiftRecordOf, noShiftRecord. rewrite Hg.
        apply (open_has_shift _ _ I p Hp).
      * intros r Hr. assert (r = q) as -> by congruence.
        unfold allTranslated. rewrite Hpts.
        apply Forall_app. split.
        { apply (open_translated _ _ I p Hp). }
        rewrite <- Hsh. auto.
Qed.

Lemma readLine_shift (lines : list string) (st : State) :
  shiftInv lines st ->
  shiftInv lines (readLine st) /\
  (currentLine (readLine st) = EmptyString \/
   In (currentLine (readLine st)) lines).
Proof.
  intros I. pose proof (stream_of_file _ _ I) as Hs.
  unfold readLine. destruct (stream st) as [|l rest] eqn:E; simpl.
  - split; [|auto]. destruct I. constructor; auto.
  - split; [|right; apply Hs; left; reflexivity].
    destruct I. constructor; auto.
    intros x Hx. apply Hs. right. exact Hx.
Qed.

(** In the container of a load every polyline after the first one has
    no shift record, the first one has none or the shift of the load,
    and every stored vertex of every polyline is a point of a line of
    the file translated by that one shift. *)
Lemma load_shiftInv (lines : list string) :
  exists x,
    loadFile host (Some lines) = Some x /\
    let st := exitState x in
    Forall noShiftRecord (tl (container st)) /\
    Forall (shiftRecordOf (Pshift st)) (firstn 1 (container st)) /\
    Forall (allTranslated lines (Pshift st)) (container st).
Proof.
  apply (loadFile_invariant host (shiftInv lines)).
  - constructor; simpl; auto using incl_refl; try discriminate.
    intros _. split; [reflexivity|discriminate].
  - intros st st' I E.
    destruct (readLine_shift lines st I) as [I' Hl].
    pose proof (dispatch_transition (readLine st)) as T.
    pose proof (iteration_stream st) as S.
    unfold iteration in *. rewrite E in T, S.
    eapply transition_shift; eauto.
    eapply incl_tran; [exact S|]. apply I.
  - intros st I. unfold lastBlock.
    destruct (currentPoly st) as [poly|] eqn:Hp; simpl.
    2: { repeat split; apply I. }
    destruct (attachIfValid_frame poly st) as (Hsh & _ & _ & [Hc| [Hne Hc]]).
    + rewrite Hc, Hsh. repeat split; apply I.
    + destruct (shiftInv_attach lines st _ poly I Hp Hne Hc Hsh)
        as (B1 & B2 & B3 & _).
      auto.
  - intros st e st' I E.
    destruct (readLine_shift lines st I) as [I' _].
    pose proof (dispatch_transition (readLine st)) as T.
    unfold iteration in E. rewrite E in T.
    destruct T as (_ & Hc & _ & _ & Hsh & _). simpl.
    rewrite Hc, Hsh. repeat split; apply I'.
  - intros st st' I E.
    destruct (readLine_shift lines st I) as [I' _].
    pose proof (dispatch_transition (readLine st)) as T.
    unfold iteration in E. rewrite E in T.
    destruct T as (_ & Hc & _ & _ & Hsh & _). simpl.
    rewrite Hc, Hsh. repeat split; apply I'.
Qed.

(** *** Circles *)

Lemma lineRead_cons (l a : string) (s : list string) (j : nat) :
  lineRead l (a :: s) (S j) = lineRead a s j.
Proof. destruct j; reflexivity. Qed.

Lemma tokenCount_cons (a : string) (s : list string) :
  tokenCount (a :: s) = List.length (QString.split a) + tokenCount s.
Proof. reflexivity. Qed.

Lemma skipValues_spec (s : list string) :
  forall l n k,
  exists j,
    skipValues s l n k =
      (skipn j s, lineRead l s j, n + j, k + tokenCount (firstn j s)) /\
    (16 <= k + tokenCount (firstn j s) \/ lineRead l s j = EmptyString) /\
    (forall i, i < j ->
       k + tokenCount (firstn i s) < 16 /\ lineRead l s i <> EmptyString).
Proof.
  assert (forall l n k (t : list string),
            Nat.ltb k 16 && negb (QString.isEmpty l) = false ->
            (skipn 0 t, lineRead l t 0, n + 0, k + tokenCount (firstn 0 t))
              = (t, l, n, k) /\
            (16 <= k + tokenCount (firstn 0 t) \/ lineRead l t 0 = EmptyString) /\
            (forall i, i < 0 ->
               k + tokenCount (firstn i t) < 16 /\
               lineRead l t i <> EmptyString)) as Stop.
  { intros l n k t H. simpl. unfold tokenCount. simpl.
    rewrite !Nat.add_0_r. split; [reflexivity|]. split; [|lia].
    apply andb_false_iff in H. destruct H as [H|H].
    - left. apply Nat.ltb_ge in H. exact H.
    - right. apply negb_false_iff, isEmpty_true in H. exact H. }
  induction s as [|a s IH]; intros l n k; simpl;
    destruct (Nat.ltb k 16 && negb (QString.isEmpty l)) eqn:C.
  2: { exists 0. destruct (Stop l n k nil C) as (E & H1 & H2).
       rewrite E. auto. }
  3: { exists 0. destruct (Stop l n k (a :: s) C) as (E & H1 & H2).
       rewrite E. auto. }
  - apply andb_true_iff in C. destruct C as [Hk Hl].
    apply Nat.ltb_lt in Hk. apply negb_true_iff in Hl.
    exists 1. simpl. unfold tokenCount. simpl.
    rewrite Nat.add_0_r, Nat.add_1_r.
    repeat split; auto.
    all: assert (i = 0) as -> by lia; simpl; try lia.
    intros ->. discriminate.
  - apply andb_true_iff in C. destruct C as [Hk Hl].
    apply Nat.ltb_lt in Hk. apply negb_true_iff in Hl.
    destruct (IH a (S n) (k + List.length (QString.split a)))
      as (j & E & Hexit & Hmin).
    exists (S j). rewrite E, lineRead_cons. simpl firstn. simpl skipn.
    rewrite tokenCount_cons, Nat.add_assoc, Nat.add_succ_r.
    split; [reflexivity|]. split; [exact Hexit|].
    intros [|i] Hi.
    { simpl. unfold tokenCount. simpl. rewrite Nat.add_0_r.
      split; [lia|]. intros ->. discriminate. }
    rewrite lineRead_cons. simpl firstn.
    rewrite tokenCount_cons, Nat.add_assoc.
    apply Hmin. lia.
Qed.

(** The descriptor line of stage 1 of a Circle block (C8) makes the
    reader skip values.  Whatever the lines that follow, the loop
    ends: it reads [j] more lines, for the least [j] at which 16 values
    are skipped or the line read is empty (a blank line, or the null
    line of the end of the stream); when no line is blank, that is until
    16 values are skipped or the stream is exhausted, whichever comes
    first.  Then the stage becomes 2 and nothing is reported, unless the
    count of skipped values is not 16 in a build with assertions, which
    stops there; and the loop of the load ends from that state. *)
Theorem circle_values_skipped (st : State) (line : string)
    (rest : list string) (poly : ccPolyline) :
  stream st = line :: rest ->
  QString.startsWith line "CP" = true ->
  currentPoly st = Some poly ->
  cpIndex st = 1 ->
  curveType st = CURVE_C ->
  let skipped j :=
    List.length (QString.split line) - 1 + tokenCount (firstn j rest) in
  exists j,
    let st1 :=
      withInput (skipn j rest) (lineRead line rest j)
                (S (lineNumber st) + j) st in
    (16 <= skipped j \/ lineRead line rest j = EmptyString) /\
    (forall i, i < j ->
       skipped i < 16 /\ lineRead line rest i <> EmptyString) /\
    ((forall l, In l rest -> l <> EmptyString) ->
     16 <= skipped j \/ j = S (List.length rest)) /\
    iteration host st =
      (if NDEBUG host || Nat.eqb (skipped j) 16
       then Continue (withCpIndex 2 st1)
       else Abort st1) /\
    (forall fuel, List.length (stream st) < fuel ->
       exists x, loop host fuel st = Some x).
Proof.
  intros Hs Hcp Hpoly Hidx Htype skipped.
  destruct (startsWith_CP line Hcp) as (Hc & Hb & Hn & He).
  destruct (skipValues_spec rest line (S (lineNumber st))
              (List.length (QString.split line) - 1))
    as (j & E & Hexit & Hmin).
  exists j. simpl.
  split; [exact Hexit|]. split; [exact Hmin|]. split; [|split].
  - intros Hnb. destruct Hexit as [H|H]; [left; exact H|right].
    destruct j as [|i]; simpl in H.
    { rewrite H in He. discriminate He. }
    f_equal.
    destruct (Nat.lt_ge_cases i (List.length rest)) as [Hlt|Hge].
    { exfalso. apply (Hnb (nth i rest EmptyString)); [|exact H].
      apply nth_In. exact Hlt. }
    destruct (Nat.eq_dec i (List.length rest)) as [Heq|Hneq]; [exact Heq|].
    exfalso. destruct (Hmin (S (List.length rest))) as [_ Hne]; [lia|].
    apply Hne. simpl. apply nth_overflow. lia.
  - unfold iteration, readLine, dispatch. rewrite Hs. simpl.
    rewrite Hc, Hb, Hpoly, Hn, Hcp.
    unfold descriptorLine. simpl. rewrite Hidx, Htype.
    unfold circleLine, assertion. simpl. rewrite E. simpl.
    rewrite Hidx. reflexivity.
  - intros fuel Hf. apply loop_ends. right. exact Hf.
Qed.

(** *** Flags lines *)

(** C5, amended: a malformed flags line (stage 0) adds a diagnostic and
    sets the status to "malformed file"; it changes nothing else and
    leaves the stage at 0, so that the next descriptor line is read as a
    flags line again. *)
Theorem malformed_flags_line_keeps_stage (st : State) (line : string)
    (rest : list string) (poly : ccPolyline) :
  stream st = line :: rest ->
  QString.startsWith line "CP" = true ->
  currentPoly st = Some poly ->
  cpIndex st = 0 ->
  malformedFlags line ->
  exists st',
    iteration host st = Continue st' /\
    warnings st' = warnings st ++ [FlagsLineCorrupted (S (lineNumber st))] /\
    result st' = CC_FERR_MALFORMED_FILE /\
    cpIndex st' = 0 /\
    currentPoly st' = Some poly /\
    curveType st' = curveType st /\
    container st' = container st /\
    stream st' = rest.
Proof.
  intros Hs Hcp Hpoly Hidx Hbad.
  destruct (startsWith_CP line Hcp) as (Hc & Hb & Hn & He).
  unfold iteration, readLine, dispatch. rewrite Hs. simpl.
  rewrite Hc, Hb, Hpoly, Hn, Hcp.
  unfold descriptorLine. simpl. rewrite Hidx.
  unfold flagsLine. simpl.
  exists (malformed (FlagsLineCorrupted (S (lineNumber st)))
            (withInput rest line (S (lineNumber st)) st)).
  split.
  - unfold malformedFlags in Hbad.
    destruct (Nat.eqb_spec (List.length (QString.split line)) 3);
      [|reflexivity].
    destruct (toInt (nth 1 _ _)); [|reflexivity].
    destruct (toInt (nth 2 _ _)); [|reflexivity].
    destruct Hbad as [H|[H|H]]; congruence.
  - simpl. rewrite Hidx, Hpoly. repeat split.
Qed.

(** *** Memory *)

Lemma run_loop (n : nat) :
  forall st st' fuel x,
    run host n st = Some st' -> loop host fuel st = Some x ->
    exists fuel', loop host fuel' st' = Some x.
Proof.
  induction n as [|n IH]; intros st st' fuel x; simpl.
  - intros [= <-] H. eauto.
  - destruct (QString.isEmpty (currentLine st)) eqn:E; [discriminate|].
    destruct (iteration host st) as [st1| |] eqn:It;
      [|discriminate|discriminate].
    intros Hrun Hloop. destruct fuel as [|fuel]; simpl in Hloop;
      rewrite E in Hloop; [discriminate|].
    rewrite It in Hloop. eauto.
Qed.

(** C9: when the loop has reached a state in which the next line is a
    point, the vertex cloud of the open polyline is full and the
    allocation fails, [loadFile] returns "not enough memory"; the open
    polyline is gone, and the container holds the polylines attached
    until then. *)
Theorem out_of_memory_keeps_attached (lines : list string) (n : nat)
    (st : State) (line : string) (rest : list string) (poly : ccPolyline)
    (Pd : Vec3) :
  run host n (initialState lines) = Some st ->
  QString.isEmpty (currentLine st) = false ->
  stream st = line :: rest ->
  currentPoly st = Some poly ->
  pointLineOf line = Some Pd ->
  List.length (points (vertices poly)) = capacity (vertices poly) ->
  alloc_ok host (allocations st) = false ->
  exists st',
    loadFile host (Some lines)
      = Some (Returned CC_FERR_NOT_ENOUGH_MEMORY st') /\
    container st' = container st /\
    currentPoly st' = None /\
    warnings st' = warnings st.
Proof.
  intros Hrun Hne Hs Hp Hline Hfull Halloc.
  unfold pointLineOf in Hline.
  destruct (QString.startsWith line "C ") eqn:Hc; [discriminate|].
  destruct (QString.startsWith line "B") eqn:Hb; [discriminate|].
  destruct (QString.startsWith line "CN") eqn:Hn; [discriminate|].
  destruct (QString.startsWith line "CP") eqn:Hcp; [discriminate|].
  simpl in Hline.
  assert (QString.isEmpty line = false) as He.
  { destruct line; [discriminate Hline|reflexivity]. }
  assert (exists st', iteration host st = Return CC_FERR_NOT_ENOUGH_MEMORY st'
                      /\ container st' = container st
                      /\ currentPoly st' = None
                      /\ warnings st' = warnings st) as (st' & It & H1 & H2 & H3).
  { unfold iteration, readLine, dispatch. rewrite Hs. simpl.
    rewrite Hc, Hb, Hp, Hn, Hcp, He. simpl.
    unfold pointLine. simpl. rewrite Hline.
    apply Nat.eqb_eq in Hfull. rewrite Hfull.
    unfold allocate. simpl. rewrite Halloc. simpl.
    eexists. split; [reflexivity|]. simpl. auto. }
  destruct (loadFile_ends host (Some lines)) as [r Hr].
  destruct (run_loop n _ _ _ _ Hrun Hr) as [fuel Hloop].
  exists st'. split; [|auto].
  rewrite Hr. destruct fuel as [|fuel]; simpl in Hloop; rewrite Hne in Hloop;
    [discriminate|].
  rewrite It in Hloop. symmetry. exact Hloop.
Qed.

(** *** Blank lines *)

Lemma skipValues_empty_line (s : list string) (n k : nat) :
  skipValues s EmptyString n k = (s, EmptyString, n, k).
Proof. destruct s; simpl; rewrite andb_false_r; reflexivity. Qed.

Lemma skipValues_blank (post s : list string) :
  forall l n k,
    let '(s2, l2, n2, k2) := skipValues s l n k in
    skipValues (s ++ EmptyString :: post) l n k
      = (s2 ++ EmptyString :: post, l2, n2, k2) \/
    (l2 = EmptyString /\
     exists s1,
       skipValues (s ++ EmptyString :: post) l n k = (s1, EmptyString, n2, k2)).
Proof.
  induction s as [|a s IH]; intros l n k; simpl.
  - destruct (_ && _); [|left; reflexivity].
    right. split; [reflexivity|].
    rewrite skipValues_empty_line. simpl. rewrite Nat.add_0_r. eauto.
  - destruct (_ && _); [|left; reflexivity].
    apply IH.
Qed.

Ltac same_cases :=
  simpl; repeat (break_match; simpl in * ); try reflexivity; try congruence.

Lemma attachIfValid_withStream (s : list string) poly (st : State) :
  attachIfValid host poly (withStream s st)
    = withStream s (attachIfValid host poly st).
Proof.
  unfold attachIfValid, allocate, withStream. same_cases.
Qed.

Lemma closeBlock_withStream (s : list string) (st : State) :
  closeBlock host (withStream s st) = withStream s (closeBlock host st).
Proof.
  unfold closeBlock. simpl.
  destruct (currentPoly st); [|reflexivity].
  rewrite attachIfValid_withStream. reflexivity.
Qed.

Lemma openBlock_withStream (s : list string) (st : State) :
  openBlock (withStream s st) = withStream s (openBlock st).
Proof. unfold openBlock, withStream. same_cases. Qed.

Lemma nameLine_withStream (s : list string) poly (st : State) :
  nameLine poly (withStream s st) = withStream s (nameLine poly st).
Proof. unfold nameLine, withStream. same_cases. Qed.

Lemma pointLine_withStream (s : list string) poly (st : State) :
  pointLine host poly (withStream s st) =
  match pointLine host poly st with
  | Continue st' => Continue (withStream s st')
  | Return e st' => Return e (withStream s st')
  | Abort st' => Abort (withStream s st')
  end.
Proof.
  unfold pointLine, allocate, withStream. same_cases.
Qed.

Lemma descriptorLine_blank (post : list string) poly (st : State) :
  sameStepButBlank post (descriptorLine host poly st)
    (descriptorLine host poly
       (withStream (stream st ++ EmptyString :: post) st)).
Proof.
  unfold descriptorLine. simpl.
  destruct (cpIndex st) as [|[|[|i]]].
  - left. unfold flagsLine, withStream. same_cases.
  - destruct (curveType st).
    + unfold assertion. destruct (NDEBUG host); simpl.
      * left. reflexivity.
      * eexists. reflexivity.
    + left. unfold basePlaneLine, withStream. same_cases.
    + left. reflexivity.
    + left. unfold altitudeLine, withStream. same_cases.
    + unfold circleLine. simpl.
      pose proof (skipValues_blank post (stream st) (currentLine st)
                    (lineNumber st)
                    (List.length (QString.split (currentLine st)) - 1)) as H.
      destruct (skipValues (stream st) _ _ _) as [[[s2 l2] n2] k2].
      unfold assertion.
      destruct H as [->|(-> & s1 & ->)];
        destruct (NDEBUG host || Nat.eqb k2 16); simpl.
      * left. reflexivity.
      * eexists. reflexivity.
      * right. split; [reflexivity|]. exists s1. reflexivity.
      * exists s1. reflexivity.
  - left. unfold basePlaneLine, withStream. same_cases.
  - left. reflexivity.
Qed.

Lemma dispatch_blank (post : list string) (st : State) :
  sameStepButBlank post (dispatch host st)
    (dispatch host (withStream (stream st ++ EmptyString :: post) st)).
Proof.
  unfold dispatch. simpl.
  destruct (QString.startsWith _ "C "); [left; reflexivity|].
  destruct (QString.startsWith _ "B").
  { left. rewrite closeBlock_withStream, openBlock_withStream.
    destruct (openBlock_frame (closeBlock host st)) as (_ & _ & _ & -> & _).
    unfold closeBlock. destruct (currentPoly st); simpl;
      rewrite ?attachIfValid_stream; reflexivity. }
  destruct (currentPoly st) as [poly|]; [|left; reflexivity].
  destruct (QString.startsWith _ "CN").
  { left. rewrite nameLine_withStream.
    destruct (nameLine_frame poly st) as (_ & _ & _ & -> & _). reflexivity. }
  destruct (QString.startsWith _ "CP"); [apply descriptorLine_blank|].
  destruct (negb _); [|left; reflexivity].
  rewrite pointLine_withStream.
  assert (match pointLine host poly st with
          | Continue st' | Return _ st' | Abort st' => stream st' = stream st
          end) as H.
  { unfold pointLine, allocate. repeat break_match; reflexivity. }
  destruct (pointLine host poly st) as [a|e a|a]; simpl.
  - left. rewrite H. reflexivity.
  - split; [reflexivity|]. eauto.
  - eauto.
Qed.

Lemma iteration_blank (post : list string) (a b : State) :
  b = withStream (stream a ++ EmptyString :: post) a ->
  sameStepButBlank post (iteration host a) (iteration host b).
Proof.
  intros ->. unfold iteration, readLine. simpl.
  destruct (stream a) as [|l rest] eqn:E; simpl.
  - rewrite !dispatch_empty_line by reflexivity.
    right. split; [reflexivity|]. exists post. reflexivity.
  - pose proof (dispatch_blank post (withInput rest l (S (lineNumber a)) a)) as H.
    exact H.
Qed.

Lemma lastBlock_withStream (s : list string) (st : State) :
  outcome (lastBlock host (withStream s st)) = outcome (lastBlock host st).
Proof.
  unfold lastBlock, outcome. simpl.
  destruct (currentPoly st); [|reflexivity].
  simpl. rewrite attachIfValid_withStream. reflexivity.
Qed.

Lemma loop_blank (post : list string) (fuel1 : nat) :
  forall fuel2 a b x1 x2,
    sameButBlank post a b ->
    loop host fuel1 a = Some x1 -> loop host fuel2 b = Some x2 ->
    outcome x2 = outcome x1.
Proof.
  induction fuel1 as [|fuel1 IH]; intros fuel2 a b x1 x2 S H1 H2.
  - simpl in H1. destruct (QString.isEmpty (currentLine a)) eqn:E;
      [|discriminate].
    injection H1 as <-.
    assert (exists s, b = withStream s a) as (s & ->).
    { destruct S as [->|(_ & s & ->)]; eauto. }
    destruct fuel2; simpl in H2; rewrite E in H2; injection H2 as <-;
      apply lastBlock_withStream.
  - simpl in H1. destruct (QString.isEmpty (currentLine a)) eqn:E.
    + injection H1 as <-.
      assert (exists s, b = withStream s a) as (s & ->).
      { destruct S as [->|(_ & s & ->)]; eauto. }
      destruct fuel2; simpl in H2; rewrite E in H2; injection H2 as <-;
        apply lastBlock_withStream.
    + destruct S as [S|(S & _)]; [|rewrite S in E; discriminate].
      pose proof (iteration_blank post a b S) as It.
      assert (currentLine b = currentLine a) as Eb by (rewrite S; reflexivity).
      destruct fuel2 as [|fuel2]; simpl in H2; rewrite Eb, E in H2;
        [discriminate|].
      destruct (iteration host a) as [a'|e a'|a'],
               (iteration host b) as [b'|e' b'|b']; try contradiction.
      * eapply IH; eassumption.
      * destruct It as (-> & s & ->).
        injection H1 as <-. injection H2 as <-. reflexivity.
      * destruct It as (s & ->).
        injection H1 as <-. injection H2 as <-. reflexivity.
Qed.

(** C2, amended: a blank line ends the reading.  The load of a file
    with a blank line returns the status, the polylines and the
    diagnostics of the load of the lines before the blank line: the
    blank line changes nothing and reports nothing, and the lines after
    it are not read. *)
Theorem blank_line_ends_reading (pre post : list string) :
  exists x1 x2,
    loadFile host (Some (pre ++ EmptyString :: post)) = Some x1 /\
    loadFile host (Some pre) = Some x2 /\
    outcome x1 = outcome x2.
Proof.
  destruct (loadFile_ends host (Some (pre ++ EmptyString :: post)))
    as [x1 H1].
  destruct (loadFile_ends host (Some pre)) as [x2 H2].
  exists x1, x2. repeat split; auto.
  unfold loadFile in H1, H2.
  eapply loop_blank; [|exact H2|exact H1].
  left. reflexivity.
Qed.

End ReaderProperties.

(** ** The writer *)

Section WriterProperties.
Context {N : Numeric}.

Lemma writeProfile_outFile (acc : Saved) (poly : ccPolyline) :
  incl (outFile acc) (outFile (writeProfile acc poly)) /\
  (2 <= size poly -> incl (blockLines poly) (outFile (writeProfile acc poly))).
Proof.
  unfold writeProfile.
  destruct (Nat.ltb_spec (size poly) 2); simpl.
  - split; [apply incl_refl|lia].
  - split; [apply incl_appl, incl_refl|intros _; apply incl_appr, incl_refl].
Qed.

Lemma fold_writeProfile_outFile (profiles : list ccPolyline) :
  forall acc,
    incl (outFile acc) (outFile (fold_left writeProfile profiles acc)) /\
    (forall poly, In poly profiles -> 2 <= size poly ->
       incl (blockLines poly) (outFile (fold_left writeProfile profiles acc))).
Proof.
  induction profiles as [|p ps IH]; intros acc; simpl.
  - split; [apply incl_refl|intros poly []].
  - destruct (IH (writeProfile acc p)) as [H1 H2].
    destruct (writeProfile_outFile acc p) as [W1 W2].
    split; [eapply incl_tran; eassumption|].
    intros poly [->|Hin] Hsize.
    + eapply incl_tran; [apply W2, Hsize|exact H1].
    + apply H2; assumption.
Qed.

(** C3, amended: every vertex of a polyline that is written gives a
    line of the file made of its three global coordinates in scientific
    notation (format 'E', 12 decimals), each after a space and a "+" that
    depends on the sign of the stored coordinate, and of the token "A".
    For a polyline without global shift, each number written has a "+"
    exactly when it is non-negative. *)
Theorem vertex_lines_in_scientific_notation (e : ccHObject)
    (filename : string) (poly : ccPolyline) (j : nat) :
  QString.isEmpty filename = false ->
  In poly (profilesOf e) ->
  2 <= size poly ->
  j < size poly ->
  let P := getPoint poly j in
  let Pg := toGlobal3d poly P in
  let sign (x : coord) := if cge0 x then "+" else EmptyString in
  In (vertexLine poly j) (outFile (saveToFile (Some e) filename true true)) /\
  vertexLine poly j =
    (" " ++ sign (vx P) ++ number (vx Pg) "E" 12 ++
     " " ++ sign (vy P) ++ number (vy Pg) "E" 12 ++
     " " ++ sign (vz P) ++ number (vz Pg) "E" 12 ++ " A")%string /\
  (globalShift poly = vzero -> (forall x, csub x czero = x) ->
   vertexLine poly j =
     (" " ++ signedNumber (vx P) ++ " " ++ signedNumber (vy P) ++
      " " ++ signedNumber (vz P) ++ " A")%string).
Proof.
  intros Hf Hin Hsize Hj P Pg sign.
  assert (forall a b c : string, ((a ++ b) ++ c = a ++ b ++ c)%string) as A.
  { intros a b c. induction a; simpl; congruence. }
  assert (vertexLine poly j =
    (" " ++ sign (vx P) ++ number (vx Pg) "E" 12 ++
     " " ++ sign (vy P) ++ number (vy Pg) "E" 12 ++
     " " ++ sign (vz P) ++ number (vz Pg) "E" 12 ++ " A")%string) as E.
  { unfold vertexLine, coordinateText, s_precision. fold P. fold Pg.
    simpl u. rewrite !A. reflexivity. }
  split; [|split; [exact E|]].
  - unfold saveToFile. rewrite Hf. simpl.
    destruct (profilesOf e) as [|p ps] eqn:Ep; [contradiction|].
    rewrite <- Ep in *.
    destruct (fold_writeProfile_outFile (profilesOf e)
                (mkSaved CC_FERR_NO_SAVE ["C Generated by CloudCompare"] []))
      as [_ H].
    apply (H poly Hin Hsize). unfold blockLines.
    do 4 right. apply in_map, in_seq. lia.
  - intros Hz Hsub. rewrite E. unfold signedNumber, s_precision, sign.
    assert (Pg = P) as ->.
    { unfold Pg, toGlobal3d, vsub. rewrite Hz. simpl. rewrite !Hsub.
      destruct P; reflexivity. }
    rewrite !A. reflexivity.
Qed.

End WriterProperties.

(** ** The result of a save *)

Section WriterResult.
Context {N : Numeric}.

Lemma fold_writeProfile (profiles : list ccPolyline) :
  forall acc,
    fold_left writeProfile profiles acc =
      mkSaved (match writtenProfiles profiles with
               | [] => saveStatus acc
               | _ => CC_FERR_NO_ERROR
               end)
              (outFile acc ++ flat_map blockLines (writtenProfiles profiles))
              (saveWarnings acc ++
               map (fun p => NotEnoughVertices (name p))
                   (skippedProfiles profiles)).
Proof.
  induction profiles as [|p ps IH]; intros acc; simpl.
  - rewrite !app_nil_r. destruct acc; reflexivity.
  - rewrite IH. unfold writeProfile.
    destruct (Nat.ltb (size p) 2); simpl.
    + rewrite <- app_assoc. reflexivity.
    + rewrite <- app_assoc. destruct (writtenProfiles ps); reflexivity.
Qed.

Lemma saveToFile_opened (e : ccHObject) (filename : string) :
  QString.isEmpty filename = false ->
  profilesOf e <> [] ->
  saveToFile (Some e) filename true true =
    mkSaved (match writtenProfiles (profilesOf e) with
             | [] => CC_FERR_NO_SAVE
             | _ => CC_FERR_NO_ERROR
             end)
            ("C Generated by CloudCompare"
               :: flat_map blockLines (writtenProfiles (profilesOf e)))
            (map (fun p => NotEnoughVertices (name p))
                 (skippedProfiles (profilesOf e))).
Proof.
  intros Hf Hp. unfold saveToFile. rewrite Hf. simpl.
  destruct (profilesOf e) as [|p ps] eqn:E; [congruence|].
  rewrite fold_writeProfile. reflexivity.
Qed.

(** X2: a save that reaches the file returns a file made of the header
    line and, in their order, of the blocks of the profiles that have
    two vertices at least; it warns once for each other profile, in
    their order; its status is "no error" when a block was written and
    "nothing to save" otherwise. *)
Theorem saved_file_is_header_and_blocks (e : ccHObject) (filename : string) :
  QString.isEmpty filename = false ->
  profilesOf e <> [] ->
  saveToFile (Some e) filename true true =
    mkSaved (match writtenProfiles (profilesOf e) with
             | [] => CC_FERR_NO_SAVE
             | _ => CC_FERR_NO_ERROR
             end)
            ("C Generated by CloudCompare"
               :: flat_map blockLines (writtenProfiles (profilesOf e)))
            (map (fun p => NotEnoughVertices (name p))
                 (skippedProfiles (profilesOf e))).
Proof.
  intros Hf Hp. unfold saveToFile. rewrite Hf.
  destruct (profilesOf e) as [|p ps] eqn:E; [congruence|].
  cbn [negb]. rewrite fold_writeProfile. reflexivity.
Qed.



(** X1: [MakeSinusxName] keeps the length of a name, puts an underscore
    where there is a space and keeps every other character; a second
    call changes nothing, and a name without space is kept as it is. *)
Theorem MakeSinusxName_replaces_spaces (s : string) :
  String.length (MakeSinusxName s) = String.length s /\
  (forall n,
     String.get n (MakeSinusxName s) =
       option_map (fun c => if Ascii.eqb c " " then "_"%char else c)
                  (String.get n s)) /\
  MakeSinusxName (MakeSinusxName s) = MakeSinusxName s /\
  ((forall n, String.get n s <> Some " "%char) -> MakeSinusxName s = s).
Proof.
  unfold MakeSinusxName.
  induction s as [|c rest (IH1 & IH2 & IH3 & IH4)]; simpl.
  - repeat split; auto.
  - repeat split.
    + congruence.
    + intros [|n]; [reflexivity|apply IH2].
    + rewrite IH3. destruct (Ascii.eqb_spec c " ") as [->|ne]; [reflexivity|].
      destruct (Ascii.eqb_spec c " "); [contradiction|reflexivity].
    + intros H. rewrite IH4.
      * destruct (Ascii.eqb_spec c " ") as [->|]; [|reflexivity].
        destruct (H 0). reflexivity.
      * intros n. apply (H (S n)).
Qed.

End WriterResult.

(** ** Tokens *)

Lemma string_app_assoc (a b c : string) : ((a ++ b) ++ c = a ++ b ++ c)%string.
Proof. induction a; simpl; congruence. Qed.

Lemma string_app_nil (a : string) : (a ++ EmptyString)%string = a.
Proof. induction a; simpl; congruence. Qed.

Lemma splitFrom_word (w : string) :
  forall tok rest,
    noSpace w = true ->
    QString.splitFrom tok (w ++ rest) = QString.splitFrom (tok ++ w) rest.
Proof.
  induction w as [|c w IH]; intros tok rest; simpl.
  - rewrite string_app_nil. reflexivity.
  - intros H. apply andb_true_iff in H. destruct H as [Hc Hw].
    apply negb_true_iff in Hc. rewrite Hc, IH by exact Hw.
    rewrite string_app_assoc. reflexivity.
Qed.

(** A token, followed by a space or by the end of the line. *)
Lemma split_word_space (w rest : string) :
  isWord w = true ->
  QString.splitFrom EmptyString (w ++ " " ++ rest) =
    w :: QString.splitFrom EmptyString rest.
Proof.
  intros H. change (" " ++ rest)%string with (String " " rest).
  apply andb_true_iff in H. destruct H as [He Hw].
  rewrite splitFrom_word by exact Hw. simpl.
  unfold QString.flush. apply negb_true_iff in He. rewrite He. reflexivity.
Qed.

Lemma split_word (w : string) :
  isWord w = true -> QString.split w = [w].
Proof.
  intros H. apply andb_true_iff in H. destruct H as [He Hw].
  unfold QString.split.
  rewrite <- (string_app_nil w) at 1.
  rewrite splitFrom_word by exact Hw. simpl.
  unfold QString.flush. apply negb_true_iff in He. rewrite He. reflexivity.
Qed.

Lemma substring_all (s : string) : substring 0 (String.length s) s = s.
Proof. induction s; simpl; congruence. Qed.

Section Tokens.
Context {N : Numeric}.
Hypothesis csub_zero : forall x, csub x czero = x.

Lemma vertexLine_signed (p : ccPolyline) (j : nat) :
  globalShift p = vzero ->
  vertexLine p j =
    (" " ++ signedNumber (vx (getPoint p j)) ++
     " " ++ signedNumber (vy (getPoint p j)) ++
     " " ++ signedNumber (vz (getPoint p j)) ++ " A")%string.
Proof.
  intros Hz. unfold vertexLine, coordinateText, signedNumber, toGlobal3d, vsub.
  rewrite Hz. simpl. rewrite !csub_zero, !string_app_assoc. reflexivity.
Qed.

Lemma vertexLine_tokens (p : ccPolyline) (j : nat) :
  globalShift p = vzero ->
  pointReadsBack (getPoint p j) ->
  QString.split (vertexLine p j) =
    [ signedNumber (vx (getPoint p j)); signedNumber (vy (getPoint p j));
      signedNumber (vz (getPoint p j)); "A"%string ].
Proof.
  intros Hz ((Wx & _) & (Wy & _) & (Wz & _)).
  rewrite vertexLine_signed by exact Hz.
  unfold QString.split.
  change (QString.splitFrom EmptyString (" " ++ ?s)%string)
    with (QString.splitFrom EmptyString s).
  change " A"%string with (" " ++ "A")%string.
  rewrite !split_word_space by assumption. reflexivity.
Qed.

Lemma vertexLine_point (p : ccPolyline) (j : nat) :
  globalShift p = vzero ->
  pointReadsBack (getPoint p j) ->
  pointOfTokens (QString.split (vertexLine p j)) = Some (getPoint p j).
Proof.
  intros Hz R. rewrite vertexLine_tokens by assumption.
  destruct R as ((_ & Rx) & (_ & Ry) & (_ & Rz)).
  unfold pointOfTokens. simpl. rewrite Rx, Ry, Rz.
  destruct (getPoint p j); reflexivity.
Qed.

Lemma vertexLine_kind (p : ccPolyline) (j : nat) :
  QString.startsWith (vertexLine p j) "C " = false /\
  QString.startsWith (vertexLine p j) "B" = false /\
  QString.startsWith (vertexLine p j) "CN" = false /\
  QString.startsWith (vertexLine p j) "CP" = false /\
  QString.isEmpty (vertexLine p j) = false.
Proof. repeat split. Qed.

End Tokens.

(** ** A file that is written is read back *)

Section RoundTrip.
Context {N : Numeric}.
Variable host : Host.
Hypothesis cadd_zero : forall x, cadd x czero = x.
Hypothesis csub_zero : forall x, csub x czero = x.
Hypothesis toInt_0 : toInt "0" = Some 0%Z.
Hypothesis toInt_1 : toInt "1" = Some 1%Z.
Hypothesis enough_memory : forall k, alloc_ok host k = true.

Lemma vadd_zero (P : Vec3) : vadd P vzero = P.
Proof. destruct P. unfold vadd. simpl. rewrite !cadd_zero. reflexivity. Qed.

Lemma readLine_cons l rest cl cp n ct ci r ps fv c w a :
  readLine (mkState (l :: rest) cl cp n ct ci r ps fv c w a) =
    mkState rest l cp (S n) ct ci r ps fv c w a.
Proof. reflexivity. Qed.

Lemma read_vertex (p : ccPolyline) (j : nat) rest cl nm vis clo is2 md
    pts cap en idx n ct ci r fv c w a :
  globalShift p = vzero ->
  pointReadsBack (getPoint p j) ->
  (fv = true -> HandleGlobalShift host (getPoint p j) vzero = (false, vzero)) ->
  exists cap' a',
    iteration host
      (mkState (vertexLine p j :: rest) cl
         (Some (mkPoly nm vis clo is2 md vzero (mkCloud pts cap en) idx))
         n ct ci r vzero fv c w a) =
    Continue
      (mkState rest (vertexLine p j)
         (Some (mkPoly nm vis clo is2 md vzero
                  (mkCloud (pts ++ [getPoint p j]) cap' en) idx))
         (S n) ct ci r vzero false c w a').
Proof.
  intros Hz R Hs.
  unfold iteration. rewrite readLine_cons.
  unfold dispatch. cbn [currentLine currentPoly].
  destruct (vertexLine_kind p j) as (-> & -> & -> & -> & ->).
  cbn [negb]. unfold pointLine. cbn [currentLine].
  rewrite (vertexLine_point csub_zero) by assumption.
  unfold allocate. cbn [vertices points capacity allocations].
  rewrite enough_memory.
  destruct (Nat.eqb (List.length pts) cap); cbn.
  all: destruct fv; [rewrite Hs by reflexivity|]; cbn; rewrite vadd_zero;
    do 2 eexists; reflexivity.
Qed.

Lemma run_S (n : nat) (st : State) :
  run host (S n) st =
    if QString.isEmpty (currentLine st) then None
    else match iteration host st with
         | Continue st' => run host n st'
         | Return _ _ | Abort _ => None
         end.
Proof. reflexivity. Qed.

Lemma run_step (n : nat) (st st' : State) :
  QString.isEmpty (currentLine st) = false ->
  iteration host st = Continue st' ->
  run host (S n) st = run host n st'.
Proof. intros H E. rewrite run_S, H, E. reflexivity. Qed.

Lemma run_add (n m : nat) :
  forall st st',
    run host n st = Some st' -> run host (n + m) st = run host m st'.
Proof.
  induction n as [|n IH]; intros st st'.
  - intros [= <-]. reflexivity.
  - cbn [Nat.add]. rewrite !run_S.
    destruct (QString.isEmpty _); [discriminate|].
    destruct (iteration host st); [apply IH|discriminate|discriminate].
Qed.

Lemma run_vertices (p : ccPolyline) (js : list nat) :
  globalShift p = vzero ->
  Forall (fun j => pointReadsBack (getPoint p j)) js ->
  forall rest cl nm vis clo is2 md pts cap en idx n ct ci r fv c w a,
    QString.isEmpty cl = false ->
    (fv = true -> forall j, hd_error js = Some j ->
       HandleGlobalShift host (getPoint p j) vzero = (false, vzero)) ->
    exists cl' cap' n' a',
      QString.isEmpty cl' = false /\
      run host (List.length js)
        (mkState (map (vertexLine p) js ++ rest) cl
           (Some (mkPoly nm vis clo is2 md vzero (mkCloud pts cap en) idx))
           n ct ci r vzero fv c w a) =
      Some
        (mkState rest cl'
           (Some (mkPoly nm vis clo is2 md vzero
                    (mkCloud (pts ++ map (getPoint p) js) cap' en) idx))
           n' ct ci r vzero
           (fv && match js with [] => true | _ => false end) c w a').
Proof.
  intros Hz HR. induction HR as [|j js Hj HR IH];
    intros rest cl nm vis clo is2 md pts cap en idx n ct ci r fv c w a Hcl Hs.
  - exists cl, cap, n, a. cbn. rewrite app_nil_r, andb_true_r. auto.
  - destruct (read_vertex p j (map (vertexLine p) js ++ rest) cl nm vis clo
                is2 md pts cap en idx n ct ci r fv c w a Hz Hj)
      as (cap1 & a1 & E).
    { intros F. apply Hs; [exact F|reflexivity]. }
    destruct (IH rest (vertexLine p j) nm vis clo is2 md
                (pts ++ [getPoint p j]) cap1 en idx (S n) ct ci r false c w a1)
      as (cl' & cap' & n' & a' & Hcl' & E').
    { reflexivity. }
    { discriminate. }
    exists cl', cap', n', a'. split; [exact Hcl'|].
    cbn [List.length map app]. rewrite run_S. cbn [currentLine].
    rewrite Hcl, E, E', <- app_assoc, andb_false_r. reflexivity.
Qed.

Lemma attachedOf_not_empty (q : ccPolyline) :
  points (vertices q) <> [] -> attachedOf (Some q) = [finalized q].
Proof. cbn. destruct (points (vertices q)); congruence. Qed.

Lemma read_block_header rest cl cp n ct ci r ps fv c w a :
  exists a',
    iteration host
      (mkState ("B S"%string :: rest) cl cp n ct ci r ps fv c w a) =
    Continue
      (mkState rest "B S" (Some (newPolyline (mkCloud [] 0 false))) (S n)
         CUREV_S 0 r ps fv (c ++ attachedOf cp) w a').
Proof.
  unfold iteration. rewrite readLine_cons.
  unfold dispatch. cbn [currentLine QString.startsWith Ascii.eqb andb].
  cbn. unfold closeBlock. cbn [currentPoly].
  destruct cp as [q|]; cbn [attachedOf].
  - unfold attachIfValid, allocate, finalized. cbn [allocations].
    rewrite !enough_memory.
    destruct (points (vertices q)); cbn; rewrite ?app_nil_r; eexists;
      reflexivity.
  - cbn. rewrite app_nil_r. eexists. reflexivity.
Qed.

Lemma right_of_name (s : string) :
  QString.right ("CN " ++ s) (String.length ("CN " ++ s) - 3) = s.
Proof.
  unfold QString.right. cbn [append String.length].
  replace (S (S (S (String.length s))) - 3) with (String.length s) by lia.
  replace (S (S (S (String.length s))) - String.length s) with 3 by lia.
  cbn [substring]. apply substring_all.
Qed.

Lemma read_name (s : string) rest cl nm vis clo is2 md gs cloud idx
    n ct ci r ps fv c w a :
  iteration host
    (mkState (("CN " ++ s)%string :: rest) cl
       (Some (mkPoly nm vis clo is2 md gs cloud idx))
       n ct ci r ps fv c w a) =
  Continue
    (mkState rest ("CN " ++ s)
       (Some (mkPoly (if QString.isEmpty s then nm else s)
                     vis clo is2 md gs cloud idx))
       (S n) ct ci r ps fv c w a).
Proof.
  unfold iteration. rewrite readLine_cons.
  unfold dispatch. cbn [currentLine currentPoly].
  change (QString.startsWith ("CN " ++ s) "C ") with false.
  change (QString.startsWith ("CN " ++ s) "B") with false.
  change (QString.startsWith ("CN " ++ s) "CN") with true.
  cbv iota. unfold nameLine. cbn [currentLine].
  destruct s as [|ch s]; [reflexivity|].
  change (Nat.ltb 3 (String.length ("CN " ++ String ch s))) with true.
  cbv iota. rewrite right_of_name. reflexivity.
Qed.

Lemma dispatch_descriptor (st : State) (poly : ccPolyline) :
  QString.startsWith (currentLine st) "CP" = true ->
  currentPoly st = Some poly ->
  dispatch host st = descriptorLine host poly st.
Proof.
  intros H Hp. unfold dispatch.
  destruct (startsWith_CP _ H) as (-> & -> & -> & _).
  rewrite Hp, H. reflexivity.
Qed.

Lemma split_flags (b : bool) :
  QString.split ("CP 1 " ++ (if b then "1" else "0")) =
    [ "CP"; "1"; if b then "1" else "0" ]%string.
Proof. destruct b; reflexivity. Qed.

Lemma split_base_plane (d : Z) :
  QString.split ("CP " ++ basePlaneCode d) = [ "CP"%string; basePlaneCode d ].
Proof.
  unfold basePlaneCode. destruct (Z.eqb d 2); [reflexivity|].
  destruct (Z.eqb d 1); reflexivity.
Qed.

Lemma read_flags (b : bool) rest cl nm vis clo is2 md gs cloud idx
    n ct r ps fv c w a :
  iteration host
    (mkState (("CP 1 " ++ (if b then "1" else "0"))%string :: rest) cl
       (Some (mkPoly nm vis clo is2 md gs cloud idx))
       n ct 0 r ps fv c w a) =
  Continue
    (mkState rest ("CP 1 " ++ (if b then "1" else "0"))
       (Some (mkPoly nm vis b is2 md gs cloud idx))
       (S n) ct 1 r ps fv c w a).
Proof.
  unfold iteration. rewrite readLine_cons.
  erewrite dispatch_descriptor; [|reflexivity|reflexivity].
  unfold descriptorLine, flagsLine. cbn [cpIndex currentLine].
  rewrite split_flags. cbn [List.length Nat.eqb nth].
  rewrite toInt_1.
  destruct b; rewrite ?toInt_0, ?toInt_1; reflexivity.
Qed.

Lemma read_base_plane (d : Z) rest cl nm vis clo is2 md gs cloud idx
    n r ps fv c w a :
  iteration host
    (mkState (("CP " ++ basePlaneCode d)%string :: rest) cl
       (Some (mkPoly nm vis clo is2 md gs cloud idx))
       n CUREV_S 1 r ps fv c w a) =
  Continue
    (mkState rest ("CP " ++ basePlaneCode d)
       (Some (mkPoly nm vis clo is2
                (mkMetaData (Some (VInt (upDirRead d))) (metaConstAltitude md))
                gs cloud idx))
       (S n) CUREV_S 3 r ps fv c w a).
Proof.
  unfold iteration. rewrite readLine_cons.
  erewrite dispatch_descriptor; [|reflexivity|reflexivity].
  unfold descriptorLine, basePlaneLine. cbn [cpIndex currentLine curveType].
  rewrite split_base_plane. cbn [List.length Nat.eqb nth].
  unfold basePlaneCode, upDirRead.
  destruct (Z.eqb d 2); [reflexivity|].
  destruct (Z.eqb d 1); reflexivity.
Qed.

Lemma run_block (p : ccPolyline) rest cl cp n ct ci r fv c w a :
  1 <= size p ->
  readsBackProfile p ->
  QString.isEmpty cl = false ->
  (fv = true -> HandleGlobalShift host (getPoint p 0) vzero = (false, vzero)) ->
  exists cl' q n' a',
    QString.isEmpty cl' = false /\
    run host (4 + size p)
      (mkState (blockLines p ++ rest) cl cp n ct ci r vzero fv c w a) =
    Some (mkState rest cl' (Some q) n' CUREV_S 3 r vzero false
            (c ++ attachedOf cp) w a') /\
    attachedOf (Some q) = [reloaded p].
Proof.
  intros Hsize (_ & Hz & HR) Hcl Hs.
  unfold blockLines. rewrite <- app_assoc. cbn [app Nat.add].
  destruct (read_block_header
              ((("CN " ++ name p)%string)
                 :: (("CP 1 " ++ (if closed p then "1" else "0"))%string)
                 :: (("CP " ++ basePlaneCode (upDirOf p))%string)
                 :: map (vertexLine p) (seq 0 (size p)) ++ rest)
              cl cp n ct ci r vzero fv c w a) as (a1 & E1).
  erewrite run_step; [|exact Hcl|exact E1].
  unfold newPolyline.
  erewrite run_step; [|reflexivity|apply read_name].
  erewrite run_step; [|reflexivity|apply read_flags].
  erewrite run_step; [|reflexivity|apply read_base_plane].
  destruct (run_vertices p (seq 0 (size p)) Hz) with
    (rest := rest) (cl := ("CP " ++ basePlaneCode (upDirOf p))%string)
    (nm := if QString.isEmpty (name p) then "Polyline"%string else name p)
    (vis := true) (clo := closed p) (is2 := false)
    (md := mkMetaData (Some (VInt (upDirRead (upDirOf p))))
             (metaConstAltitude (mkMetaData None None)))
    (pts := @nil Vec3) (cap := 0) (en := false) (idx := @nil nat)
    (n := S (S (S (S n)))) (ct := CUREV_S) (ci := 3) (r := r) (fv := fv)
    (c := c ++ attachedOf cp) (w := w) (a := a1)
    as (cl' & cap' & n' & a' & Hcl' & E).
  { apply Forall_forall. intros j Hj. apply in_seq in Hj. apply HR. lia. }
  { reflexivity. }
  { intros F j Hj. destruct (size p) as [|k]; [lia|].
    cbn in Hj. injection Hj as <-. auto. }
  rewrite length_seq in E.
  assert (seq 0 (size p) = 0 :: seq 1 (size p - 1)) as Eseq.
  { destruct (size p); [lia|]. cbn. rewrite Nat.sub_0_r. reflexivity. }
  assert (fv && match seq 0 (size p) with [] => true | _ => false end = false)
    as Hfv.
  { rewrite Eseq. apply andb_false_r. }
  rewrite Hfv in E. cbn [app metaConstAltitude] in E.
  eexists cl', _, n', a'. split; [exact Hcl'|]. split; [exact E|].
  rewrite attachedOf_not_empty.
  - unfold finalized, reloaded.
    cbn [vertices points pointIndexes addPointIndex setVertices setCapacity
         name visible closed is2DMode metaData globalShift enabled app
         List.length].
    rewrite length_map, length_seq.
    unfold addPointIndex, setVertices, setCapacity.
    cbn [vertices points pointIndexes name visible closed is2DMode metaData
         globalShift enabled app].
    rewrite Nat.sub_0_r. reflexivity.
  - cbn [vertices points]. rewrite Eseq. discriminate.
Qed.

Lemma blockLines_length (p : ccPolyline) :
  List.length (blockLines p) = 4 + size p.
Proof.
  unfold blockLines. rewrite length_app, length_map, length_seq. reflexivity.
Qed.

Lemma run_blocks (ps : list ccPolyline) :
  Forall (fun p => 1 <= size p /\ readsBackProfile p) ps ->
  forall cl cp n ct ci r fv c w a,
    QString.isEmpty cl = false ->
    (fv = true -> forall p, hd_error ps = Some p ->
       HandleGlobalShift host (getPoint p 0) vzero = (false, vzero)) ->
    exists cl' cp' n' ct' ci' fv' c' a',
      QString.isEmpty cl' = false /\
      run host (List.length (flat_map blockLines ps))
        (mkState (flat_map blockLines ps) cl cp n ct ci r vzero fv c w a) =
      Some (mkState [] cl' cp' n' ct' ci' r vzero fv' c' w a') /\
      c' ++ attachedOf cp' = (c ++ attachedOf cp) ++ map reloaded ps.
Proof.
  intros H. induction H as [|p ps [Hsize HR] _ IH];
    intros cl cp n ct ci r fv c w a Hcl Hs.
  - exists cl, cp, n, ct, ci, fv, c, a. cbn. rewrite app_nil_r. auto.
  - cbn [flat_map map]. rewrite length_app, blockLines_length.
    destruct (run_block p (flat_map blockLines ps) cl cp n ct ci r fv c w a
                Hsize HR Hcl)
      as (cl1 & q & n1 & a1 & Hcl1 & E1 & A1).
    { intros F. apply Hs; [exact F|reflexivity]. }
    destruct (IH cl1 (Some q) n1 CUREV_S 3 r false (c ++ attachedOf cp) w a1
                Hcl1)
      as (cl' & cp' & n' & ct' & ci' & fv' & c' & a' & Hcl' & E' & A').
    { discriminate. }
    exists cl', cp', n', ct', ci', fv', c', a'.
    split; [exact Hcl'|]. split.
    + rewrite (run_add _ _ _ _ E1). exact E'.
    + rewrite A', A1, <- !app_assoc. reflexivity.
Qed.

(** After the last line, the loop reads the null line and ends. *)
Lemma loop_at_end (fuel : nat) cl cp n ct ci r ps fv c w a x :
  QString.isEmpty cl = false ->
  loop host fuel (mkState [] cl cp n ct ci r ps fv c w a) = Some x ->
  exists a',
    x = Returned r (mkState [] EmptyString cp (S n) ct ci r ps fv
                      (c ++ attachedOf cp) w a').
Proof.
  intros Hcl. destruct fuel as [|fuel]; cbn [loop currentLine]; rewrite Hcl;
    [discriminate|].
  unfold iteration. rewrite dispatch_empty_line by reflexivity.
  change (readLine (mkState [] cl cp n ct ci r ps fv c w a))
    with (mkState [] EmptyString cp (S n) ct ci r ps fv c w a).
  destruct fuel; cbn [loop currentLine QString.isEmpty].
  all: intros [= <-]; unfold lastBlock; cbn [currentPoly result].
  all: destruct cp as [q|]; cbn [attachedOf].
  all: try (unfold attachIfValid, allocate, finalized; cbn [allocations];
            rewrite !enough_memory;
            destruct (points (vertices q)); cbn; rewrite ?app_nil_r;
            eexists; reflexivity).
  all: rewrite app_nil_r; eexists; reflexivity.
Qed.

Lemma loaded_blocks (ps : list ccPolyline) :
  Forall (fun p => 1 <= size p /\ readsBackProfile p) ps ->
  (forall p, hd_error ps = Some p ->
     HandleGlobalShift host (getPoint p 0) vzero = (false, vzero)) ->
  exists st,
    loadFile host
      (Some ("C Generated by CloudCompare"%string :: flat_map blockLines ps)) =
      Some (Returned CC_FERR_NO_ERROR st) /\
    container st = map reloaded ps /\
    warnings st = [].
Proof.
  intros HR Hs.
  set (lines := "C Generated by CloudCompare"%string :: flat_map blockLines ps).
  destruct (loadFile_ends host (Some lines)) as [x Hx].
  destruct (run_blocks ps HR) with
    (cl := "C Generated by CloudCompare"%string) (cp := @None ccPolyline)
    (n := 1) (ct := INVALID) (ci := 0) (r := CC_FERR_NO_ERROR) (fv := true)
    (c := @nil ccPolyline) (w := @nil Diagnostic) (a := 0)
    as (cl' & cp' & n' & ct' & ci' & fv' & c' & a' & Hcl' & E & A).
  { reflexivity. }
  { intros _. exact Hs. }
  assert (run host (S (List.length (flat_map blockLines ps)))
            (initialState lines) =
          Some (mkState [] cl' cp' n' ct' ci' CC_FERR_NO_ERROR vzero fv' c'
                  [] a')) as R.
  { rewrite run_S. exact E. }
  cbn [loadFile] in Hx.
  destruct (run_loop host _ _ _ _ _ R Hx) as [fuel' L].
  apply loop_at_end in L; [|exact Hcl'].
  destruct L as [a2 ->].
  eexists. split; [exact Hx|].
  cbn [container warnings]. rewrite A. split; reflexivity.
Qed.

Lemma writtenProfiles_size (ps : list ccPolyline) :
  Forall readsBackProfile (writtenProfiles ps) ->
  Forall (fun p => 1 <= size p /\ readsBackProfile p) (writtenProfiles ps).
Proof.
  intros HR. apply Forall_forall. intros p Hin. split.
  - apply filter_In in Hin. destruct Hin as [_ Hin].
    apply negb_true_iff, Nat.ltb_ge in Hin. lia.
  - rewrite Forall_forall in HR. apply HR, Hin.
Qed.

(** X4: a file that is written is read back.  When no allocation
    fails, the first vertex written is not recentered, the profiles
    that are written have no shift and a name of one line, and their
    coordinates are read back from the text printed for them, loading
    the file of a save returns "no error" without a diagnostic, with one
    polyline for each profile written, in their order, each one as
    [reloaded] tells: the name (or "Polyline" for an empty one), the
    closed flag and the vertices in the order of the indexes are kept;
    the polyline is visible and not in 2D mode. *)
Theorem written_file_is_read_back (e : ccHObject) (filename : string) :
  QString.isEmpty filename = false ->
  profilesOf e <> [] ->
  Forall readsBackProfile (writtenProfiles (profilesOf e)) ->
  (forall p, hd_error (writtenProfiles (profilesOf e)) = Some p ->
     HandleGlobalShift host (getPoint p 0) vzero = (false, vzero)) ->
  exists st,
    loadFile host (Some (outFile (saveToFile (Some e) filename true true))) =
      Some (Returned CC_FERR_NO_ERROR st) /\
    container st = map reloaded (writtenProfiles (profilesOf e)) /\
    warnings st = [].
Proof.
  intros Hf Hp HR Hs.
  assert (outFile (saveToFile (Some e) filename true true) =
            "C Generated by CloudCompare"%string
              :: flat_map blockLines (writtenProfiles (profilesOf e))) as ->.
  { rewrite (saveToFile_opened e filename Hf Hp). reflexivity. }
  apply loaded_blocks; [|exact Hs].
  apply writtenProfiles_size, HR.
Qed.

Lemma reloaded_size (p : ccPolyline) : size (reloaded p) = size p.
Proof. unfold size, reloaded. simpl. apply length_seq. Qed.

Lemma reloaded_getPoint (p : ccPolyline) (j : nat) :
  j < size p -> getPoint (reloaded p) j = getPoint p j.
Proof.
  intros Hj. unfold getPoint at 1. unfold reloaded. simpl.
  rewrite seq_nth by exact Hj. simpl.
  rewrite nth_indep with (d' := getPoint p 0)
    by (rewrite length_map, length_seq; exact Hj).
  rewrite map_nth, seq_nth by exact Hj. reflexivity.
Qed.

Lemma reloaded_blockLines (p : ccPolyline) :
  globalShift p = vzero -> blockLines (reloaded p) = resavedBlock p.
Proof.
  intros Hz. unfold blockLines, resavedBlock. rewrite reloaded_size.
  f_equal. apply map_ext_in. intros j Hj. apply in_seq in Hj.
  unfold vertexLine, toGlobal3d. rewrite reloaded_getPoint by lia.
  rewrite Hz. reflexivity.
Qed.

Lemma profilesOf_group (ps : list ccPolyline) :
  profilesOf (HierarchyObject (map PolylineEntity ps)) = ps.
Proof. simpl. induction ps as [|p ps IH]; simpl; congruence. Qed.

Lemma writtenProfiles_reloaded (ps : list ccPolyline) :
  writtenProfiles (map reloaded (writtenProfiles ps)) =
    map reloaded (writtenProfiles ps).
Proof.
  unfold writtenProfiles. induction ps as [|p ps IH]; simpl; [reflexivity|].
  destruct (Nat.ltb (size p) 2) eqn:E; simpl; [exact IH|].
  rewrite reloaded_size, E. simpl. rewrite IH. reflexivity.
Qed.

Lemma skippedProfiles_reloaded (ps : list ccPolyline) :
  skippedProfiles (map reloaded (writtenProfiles ps)) = [].
Proof.
  unfold skippedProfiles, writtenProfiles.
  induction ps as [|p ps IH]; simpl; [reflexivity|].
  destruct (Nat.ltb (size p) 2) eqn:E; simpl; [exact IH|].
  rewrite reloaded_size, E. exact IH.
Qed.

(** X5: under the same conditions, saving the polylines read back gives
    the lines of the first file, but for the name line of a polyline
    without name and for the base plane line, which is always "CP 0". *)
Theorem read_back_file_is_saved_again (e : ccHObject)
    (filename copy : string) :
  QString.isEmpty filename = false ->
  QString.isEmpty copy = false ->
  writtenProfiles (profilesOf e) <> [] ->
  Forall readsBackProfile (writtenProfiles (profilesOf e)) ->
  (forall p, hd_error (writtenProfiles (profilesOf e)) = Some p ->
     HandleGlobalShift host (getPoint p 0) vzero = (false, vzero)) ->
  exists st,
    loadFile host (Some (outFile (saveToFile (Some e) filename true true))) =
      Some (Returned CC_FERR_NO_ERROR st) /\
    saveToFile (Some (HierarchyObject (map PolylineEntity (container st))))
               copy true true =
      mkSaved CC_FERR_NO_ERROR
        ("C Generated by CloudCompare"%string
           :: flat_map resavedBlock (writtenProfiles (profilesOf e)))
        [].
Proof.
  intros Hf Hc Hw HR Hs.
  assert (profilesOf e <> []) as Hp.
  { intros E. rewrite E in Hw. apply Hw. reflexivity. }
  destruct (loaded_blocks (writtenProfiles (profilesOf e))
              (writtenProfiles_size _ HR) Hs) as (st & L & C & _).
  rewrite (saveToFile_opened e filename Hf Hp). cbn [outFile].
  exists st. split; [exact L|].
  rewrite saveToFile_opened;
    [|exact Hc
     |rewrite profilesOf_group, C;
      destruct (writtenProfiles (profilesOf e)); [congruence|discriminate]].
  rewrite profilesOf_group, C.
  rewrite writtenProfiles_reloaded, skippedProfiles_reloaded.
  f_equal.
  - destruct (writtenProfiles (profilesOf e)); [congruence|reflexivity].
  - f_equal. clear - HR.
    induction HR as [|q qs (_ & Hz & _) _ IH]; [reflexivity|].
    cbn [map flat_map]. rewrite reloaded_blockLines, IH by exact Hz.
    reflexivity.
Qed.

(** X6: the base plane line that the writer prints for an up direction
    is accepted by the reader at stage 2, which stores the same up
    direction when it is 0, 1 or 2, and 0 for any other. *)
Theorem base_plane_code_is_read_back (d : Z) (poly : ccPolyline)
    (st : State) :
  basePlaneLine (QString.split ("CP " ++ basePlaneCode d)) poly st =
    withCpIndex (S (cpIndex st))
      (withPoly
         (Some (setMetaData
                  (mkMetaData (Some (VInt (upDirRead d)))
                              (metaConstAltitude (metaData poly)))
                  poly))
         st) /\
  upDirRead d = (if Z.leb 0 d && Z.leb d 2 then d else 0%Z).
Proof.
  split.
  - rewrite split_base_plane. unfold basePlaneLine, basePlaneCode, upDirRead.
    cbn [List.length Nat.eqb nth].
    destruct (Z.eqb d 2); [reflexivity|].
    destruct (Z.eqb d 1); reflexivity.
  - unfold upDirRead.
    destruct (Z.eqb_spec d 2) as [->|H2]; [reflexivity|].
    destruct (Z.eqb_spec d 1) as [->|H1]; [reflexivity|].
    destruct (Z.leb_spec 0 d); [|reflexivity].
    destruct (Z.leb_spec d 2); [|reflexivity]. simpl. lia.
Qed.

End RoundTrip.

(** ** Lines outside a block *)

Lemma startsWith_B (line : string) :
  QString.startsWith line "B" = true ->
  QString.startsWith line "C " = false /\ QString.isEmpty line = false.
Proof.
  destruct line as [|a rest]; simpl; [discriminate|].
  destruct (Ascii.eqb_spec a "B") as [->|]; [|destruct rest; discriminate].
  intros _. split; reflexivity.
Qed.

Section Idle.
Context {N : Numeric}.
Variable host : Host.

(** Outside a block, a line that is not a block header is dropped. *)
Lemma dispatch_idle (st : State) :
  currentPoly st = None ->
  QString.startsWith (currentLine st) "B" = false ->
  dispatch host st = Continue st.
Proof.
  intros Hp Hb. unfold dispatch. rewrite Hp, Hb.
  destruct (QString.startsWith _ "C "); reflexivity.
Qed.

Lemma iteration_idle (st : State) :
  currentPoly st = None ->
  Forall (fun l => QString.startsWith l "B" = false) (stream st) ->
  iteration host st = Continue (readLine st).
Proof.
  intros Hp Hs. unfold iteration. apply dispatch_idle.
  - unfold readLine. destruct (stream st); exact Hp.
  - unfold readLine. destruct (stream st) as [|l rest]; [reflexivity|].
    simpl. inversion Hs. assumption.
Qed.

(** X7: when no line of the file starts with "B", the load returns
    "no error" with an empty container, no diagnostic and no allocation
    request, whatever the lines hold. *)
Theorem no_block_header_nothing_loaded (lines : list string) :
  Forall (fun l => QString.startsWith l "B" = false) lines ->
  exists st,
    loadFile host (Some lines) = Some (Returned CC_FERR_NO_ERROR st) /\
    container st = [] /\ warnings st = [] /\ allocations st = 0.
Proof.
  intros H.
  destruct (loadFile_invariant host
    (fun st => currentPoly st = None /\ result st = CC_FERR_NO_ERROR /\
               container st = [] /\ warnings st = [] /\ allocations st = 0 /\
               Forall (fun l => QString.startsWith l "B" = false) (stream st))
    (fun x => exists st, x = Returned CC_FERR_NO_ERROR st /\
                         container st = [] /\ warnings st = [] /\
                         allocations st = 0)
    lines) as (x & Hx & st & -> & Hc).
  - repeat split. exact H.
  - intros st st' (Hp & Hr & Hc & Hw & Ha & Hs) E.
    rewrite iteration_idle in E by assumption. injection E as <-.
    unfold readLine. destruct (stream st) as [|l rest]; simpl;
      repeat split; auto.
    inversion Hs. assumption.
  - intros st (Hp & Hr & Hc & Hw & Ha & Hs). unfold lastBlock.
    rewrite Hp, Hr. eauto.
  - intros st e st' (Hp & Hr & Hc & Hw & Ha & Hs) E.
    rewrite iteration_idle in E by assumption. discriminate.
  - intros st st' (Hp & Hr & Hc & Hw & Ha & Hs) E.
    rewrite iteration_idle in E by assumption. discriminate.
  - exists st. auto.
Qed.

(** The lines that follow a rejected block header. *)
Lemma run_idle (ls : list string) :
  Forall (fun l => QString.isEmpty l = false /\
                   QString.startsWith l "B" = false) ls ->
  forall rest cl n ct ci r ps fv c w a,
    QString.isEmpty cl = false ->
    exists cl',
      QString.isEmpty cl' = false /\
      run host (List.length ls)
        (mkState (ls ++ rest) cl None n ct ci r ps fv c w a) =
      Some (mkState rest cl' None (n + List.length ls) ct ci r ps fv c w a).
Proof.
  intros H. induction H as [|l ls [He Hb] _ IH];
    intros rest cl n ct ci r ps fv c w a Hcl.
  - exists cl. cbn. rewrite Nat.add_0_r. auto.
  - destruct (IH rest l (S n) ct ci r ps fv c w a He) as (cl' & Hcl' & E).
    exists cl'. split; [exact Hcl'|].
    cbn [List.length app run currentLine]. rewrite Hcl.
    unfold iteration.
    change (readLine (mkState (l :: ls ++ rest) cl None n ct ci r ps fv c w a))
      with (mkState (ls ++ rest) l None (S n) ct ci r ps fv c w a).
    rewrite dispatch_idle by (reflexivity || exact Hb).
    rewrite E. f_equal. f_equal. lia.
Qed.

Lemma closeBlock_frame (st : State) :
  let st' := closeBlock host st in
  currentPoly st' = None /\ stream st' = stream st /\
  currentLine st' = currentLine st /\ lineNumber st' = lineNumber st /\
  result st' = result st /\ warnings st' = warnings st /\
  Pshift st' = Pshift st /\ firstVertex st' = firstVertex st.
Proof.
  unfold closeBlock, attachIfValid, allocate.
  destruct (currentPoly st) eqn:E; repeat break_match; simpl; auto 10.
Qed.

(** X8: a block header that is rejected ends the open block as any
    header does, is reported by one diagnostic and leaves no block
    open: the lines that follow it, up to the next header, are dropped
    without a diagnostic. *)
Theorem rejected_header_drops_block (st : State) (header : string)
    (ls rest : list string) :
  QString.isEmpty (currentLine st) = false ->
  stream st = header :: ls ++ rest ->
  QString.startsWith header "B" = true ->
  rejectedHeader header = true ->
  Forall (fun l => QString.isEmpty l = false /\
                   QString.startsWith l "B" = false) ls ->
  exists st' d,
    run host (S (List.length ls)) st = Some st' /\
    stream st' = rest /\
    currentPoly st' = None /\
    container st' = container (closeBlock host st) /\
    result st' = CC_FERR_MALFORMED_FILE /\
    warnings st' = warnings st ++ [d] /\
    (d = BlockLineCorrupted (S (lineNumber st)) \/
     exists tag, d = UnhandledCurveType tag (S (lineNumber st))).
Proof.
  intros Hcl Hs Hb Hr Hls.
  destruct (startsWith_B header Hb) as [Hc He].
  assert (exists s,
            iteration host st = Continue s /\ stream s = ls ++ rest /\
            currentLine s = header /\ currentPoly s = None /\
            container s = container (closeBlock host st) /\
            result s = CC_FERR_MALFORMED_FILE /\
            exists d, warnings s = warnings st ++ [d] /\
              (d = BlockLineCorrupted (S (lineNumber st)) \/
               exists tag, d = UnhandledCurveType tag (S (lineNumber st))))
    as (s & E & S1 & S2 & S3 & S4 & S5 & d & S6 & S7).
  { unfold iteration, readLine. rewrite Hs. unfold dispatch.
    cbn [currentLine withInput]. rewrite Hc, Hb.
    set (s0 := withInput (ls ++ rest) header (S (lineNumber st)) st).
    pose proof (closeBlock_frame s0) as (F1 & F2 & F3 & F4 & F5 & F6 & _).
    assert (container (closeBlock host s0) = container (closeBlock host st))
      as F7.
    { unfold closeBlock, attachIfValid, allocate. subst s0. cbn.
      destruct (currentPoly st); repeat break_match; reflexivity. }
    revert F1 F2 F3 F4 F5 F6 F7. generalize (closeBlock host s0). intros s1.
    subst s0. cbn [stream currentLine lineNumber result warnings withInput].
    intros F1 F2 F3 F4 F5 F6 F7.
    unfold rejectedHeader in Hr. unfold openBlock. rewrite F3, F4.
    destruct (Nat.ltb _ 2 || Nat.ltb 1 _) eqn:T.
    - eexists. split; [reflexivity|]. cbn. rewrite F1, F2, F6. eauto 10.
    - cbn [orb] in Hr. cbn [curveType withCurveType].
      destruct (curveTypeOfChar _); try discriminate.
      eexists. split; [reflexivity|]. cbn. rewrite F1, F2, F6. eauto 10. }
  destruct s as [s_stream s_line s_poly s_n s_ct s_ci s_r s_ps s_fv s_c s_w s_a].
  cbn in S1, S2, S3, S4, S5, S6. subst s_stream s_line s_poly.
  destruct (run_idle ls Hls rest header s_n s_ct s_ci s_r s_ps s_fv s_c s_w s_a
              He) as (cl' & _ & R).
  eexists. exists d. split.
  { cbn [run]. rewrite Hcl, E. exact R. }
  cbn. auto 10.
Qed.

End Idle.

(** ** How the polylines are built *)

Section Build.
Context {N : Numeric}.
Variable host : Host.

Lemma run_invariant (P : State -> Prop) :
  (forall st st', P st -> iteration host st = Continue st' -> P st') ->
  forall n st st', P st -> run host n st = Some st' -> P st'.
Proof.
  intros Hstep. induction n as [|n IH]; intros st st' HP; simpl.
  - intros [= <-]. exact HP.
  - destruct (QString.isEmpty _); [discriminate|].
    destruct (iteration host st) as [s| |] eqn:E; try discriminate.
    apply IH. eauto.
Qed.

Lemma openInv_new : openInv (newPolyline (mkCloud [] 0 false)).
Proof.
  repeat split; simpl; try lia. exists 0. reflexivity.
Qed.

Lemma attachIfValid_build (p : ccPolyline) (st : State) :
  buildInv st -> openInv p ->
  Forall displayInv (container (attachIfValid host p st)).
Proof.
  intros [Hc _] (H1 & H2 & _). unfold attachIfValid, allocate.
  repeat break_match; simpl; auto.
  apply Forall_app. split; [exact Hc|].
  repeat constructor; simpl; assumption.
Qed.

Lemma closeBlock_build (st : State) :
  buildInv st -> Forall displayInv (container (closeBlock host st)).
Proof.
  intros H. unfold closeBlock.
  destruct (currentPoly st) as [p|] eqn:E; [|apply H].
  change (Forall displayInv (container (attachIfValid host p st))).
  apply attachIfValid_build; [exact H|]. apply H, E.
Qed.

Lemma chunked_add (c : ccPointCloud) (P : Vec3) :
  chunked c ->
  chunked (addPoint P
             (if Nat.eqb (List.length (points c)) (capacity c)
              then setCapacity (List.length (points c) + 10) c else c)).
Proof.
  intros (H1 & H2 & k & H3). unfold chunked.
  destruct (Nat.eqb_spec (List.length (points c)) (capacity c)) as [E|E];
    simpl; rewrite length_app; simpl.
  - repeat split; try lia. exists (S k). lia.
  - repeat split; try lia. exists k. exact H3.
Qed.

Lemma pointLine_build (p : ccPolyline) (st : State) :
  buildInv st -> currentPoly st = Some p ->
  match pointLine host p st with
  | Continue st' => buildInv st'
  | Return _ st' | Abort st' => Forall displayInv (container st')
  end.
Proof.
  intros [Hc Ho] Hp. pose proof (Ho p Hp) as (H1 & H2 & H3).
  pose proof (fun P => chunked_add (vertices p) P H3) as A.
  unfold pointLine.
  destruct (pointOfTokens _) as [Pd|]; [|split; assumption].
  unfold allocate.
  destruct (Nat.eqb _ _); [destruct (alloc_ok host _)|]; simpl; try exact Hc.
  all: destruct (firstVertex st);
    [destruct (HandleGlobalShift host Pd (Pshift st)) as [[|] shift]|]; simpl.
  all: split; [exact Hc|].
  all: intros q [= <-]; split; [|split]; simpl;
    [assumption|assumption|apply A].
Qed.

Lemma descriptorLine_build (p : ccPolyline) (st : State) :
  buildInv st -> currentPoly st = Some p ->
  match descriptorLine host p st with
  | Continue st' => buildInv st'
  | Return _ st' | Abort st' => Forall displayInv (container st')
  end.
Proof.
  intros [Hc Ho] Hp. pose proof (Ho p Hp) as (H1 & H2 & H3).
  unfold descriptorLine, flagsLine, basePlaneLine, altitudeLine, circleLine,
    assertion.
  repeat break_match; simpl; try exact Hc.
  all: split; [exact Hc|]; simpl.
  all: try (intros q Hq; apply Ho; congruence).
  all: intros q [= <-]; split; [|split]; simpl;
    [assumption|first [assumption|reflexivity]|exact H3].
Qed.

Lemma dispatch_build (st : State) :
  buildInv st ->
  match dispatch host st with
  | Continue st' => buildInv st'
  | Return _ st' | Abort st' => Forall displayInv (container st')
  end.
Proof.
  intros H. unfold dispatch.
  destruct (QString.startsWith _ "C "); [exact H|].
  destruct (QString.startsWith _ "B").
  { pose proof (closeBlock_build st H) as C.
    pose proof (closeBlock_frame host st) as (F & _).
    pose proof (openBlock_frame (closeBlock host st)) as (_ & _ & E & _ & O).
    split; [rewrite E; exact C|].
    intros q Hq. destruct O as [O|O]; [congruence|].
    assert (q = newPolyline (mkCloud [] 0 false)) as -> by congruence.
    apply openInv_new. }
  destruct (currentPoly st) as [p|] eqn:Hp; [|exact H].
  destruct (QString.startsWith _ "CN").
  { unfold nameLine. destruct (Nat.ltb _ _); [|exact H].
    split; [apply H|]. intros q [= <-]. apply (proj2 H p Hp). }
  destruct (QString.startsWith _ "CP"); [apply descriptorLine_build; auto|].
  destruct (negb _); [apply pointLine_build; auto|exact H].
Qed.

Lemma iteration_build (st : State) :
  buildInv st ->
  match iteration host st with
  | Continue st' => buildInv st'
  | Return _ st' | Abort st' => Forall displayInv (container st')
  end.
Proof.
  intros H. apply dispatch_build. unfold readLine.
  destruct (stream st); exact H.
Qed.

Lemma buildInv_initial (lines : list string) : buildInv (initialState lines).
Proof. split; [constructor|intros p [=]]. Qed.

(** X10: at the head of every iteration, the cloud of the open block
    holds no more points than it has room for, and its capacity is its
    size rounded up to a multiple of ten ([reserve(n)] gives room for
    [n] points). *)
Theorem open_cloud_grows_by_chunks (lines : list string) (n : nat)
    (st : State) (p : ccPolyline) :
  run host n (initialState lines) = Some st ->
  currentPoly st = Some p ->
  List.length (points (vertices p)) <= capacity (vertices p) /\
  capacity (vertices p) < List.length (points (vertices p)) + 10 /\
  Nat.divide 10 (capacity (vertices p)).
Proof.
  intros R Hp.
  assert (buildInv st) as [_ H].
  { apply (run_invariant buildInv) with (n := n) (st := initialState lines);
      [|apply buildInv_initial|exact R].
    intros s s' Hs E. pose proof (iteration_build s Hs) as B.
    rewrite E in B. exact B. }
  apply (H p Hp).
Qed.

Lemma load_build (lines : list string) :
  exists x,
    loadFile host (Some lines) = Some x /\
    Forall displayInv (container (exitState x)).
Proof.
  apply (loadFile_invariant host buildInv).
  - apply buildInv_initial.
  - intros st st' H E. pose proof (iteration_build st H) as B.
    rewrite E in B. exact B.
  - intros st H. unfold lastBlock.
    destruct (currentPoly st) as [p|] eqn:Hp; simpl; [|apply H].
    apply attachIfValid_build; [exact H|]. apply H, Hp.
  - intros st e st' H E. pose proof (iteration_build st H) as B.
    rewrite E in B. exact B.
  - intros st st' H E. pose proof (iteration_build st H) as B.
    rewrite E in B. exact B.
Qed.

(** X11: a polyline of the container is hidden exactly when its cloud
    of vertices is enabled, and its cloud has no room left. *)
Theorem loaded_polyline_hidden_iff_vertices_shown (lines : list string) :
  exists x,
    loadFile host (Some lines) = Some x /\
    Forall (fun p => visible p = negb (enabled (vertices p)) /\
                     capacity (vertices p) = List.length (points (vertices p)))
           (container (exitState x)).
Proof.
  destruct (load_build lines) as (x & Hx & H).
  exists x. split; [exact Hx|].
  eapply Forall_impl; [|exact H]. intros p (_ & H2 & H3). auto.
Qed.

(** X12: the reader leaves every polyline in the mode of a new one (not
    2D), so the base plane that it stores in the meta-data is not
    written back: the base plane line of the block of a loaded polyline
    is "CP 0". *)
Theorem loaded_polyline_saved_with_default_base_plane (lines : list string) :
  exists x,
    loadFile host (Some lines) = Some x /\
    Forall (fun p => is2DMode p = false /\
                     nth 3 (blockLines p) EmptyString = "CP 0"%string)
           (container (exitState x)).
Proof.
  destruct (load_build lines) as (x & Hx & H).
  exists x. split; [exact Hx|].
  eapply Forall_impl; [|exact H]. intros p (H1 & _).
  split; [exact H1|].
  unfold blockLines, upDirOf. rewrite H1. reflexivity.
Qed.

End Build.

(** ** Blocks and polylines *)

Section Counting.
Context {N : Numeric}.
Variable host : Host.

Lemma skipValues_headers (s : list string) :
  forall l n k s' l' n' k',
    skipValues s l n k = (s', l', n', k') ->
    blockHeaders s' <= blockHeaders s.
Proof.
  unfold blockHeaders.
  induction s as [|a s IH]; intros l n k s' l' n' k'; simpl.
  - destruct (_ && _); intros [= <- _ _ _]; simpl; lia.
  - destruct (_ && _).
    + intros H. apply IH in H. destruct (QString.startsWith a "B"); simpl; lia.
    + intros [= <- _ _ _]. simpl. lia.
Qed.

Lemma attachIfValid_blocks (p : ccPolyline) (st : State) :
  List.length (container (attachIfValid host p st))
    <= S (List.length (container st)) /\
  stream (attachIfValid host p st) = stream st.
Proof.
  unfold attachIfValid, allocate.
  repeat break_match; simpl; rewrite ?length_app; simpl; split; auto; lia.
Qed.

Lemma dispatch_blocks (st : State) :
  match dispatch host st with
  | Continue st' | Return _ st' | Abort st' =>
      blocksMet st' + blockHeaders (stream st') <=
      blocksMet st + blockHeaders (stream st) +
      (if QString.startsWith (currentLine st) "B" then 1 else 0)
  end.
Proof.
  unfold dispatch, blocksMet, openBlocks.
  destruct (QString.startsWith _ "C "); [lia|].
  destruct (QString.startsWith _ "B").
  { pose proof (openBlock_frame (closeBlock host st)) as (_ & _ & -> & -> & O).
    pose proof (closeBlock_frame host st) as (C & -> & _).
    assert (List.length (container (closeBlock host st))
              <= List.length (container st)
                 + match currentPoly st with Some _ => 1 | None => 0 end) as L.
    { unfold closeBlock. destruct (currentPoly st) as [p|]; [|lia].
      pose proof (attachIfValid_blocks p st) as [A _].
      change (container (withPoly None (attachIfValid host p st)))
        with (container (attachIfValid host p st)). lia. }
    destruct O as [->| ->]; [rewrite C|]; lia. }
  destruct (currentPoly st) as [p|] eqn:Hp; [|rewrite Hp; lia].
  destruct (QString.startsWith _ "CN").
  { unfold nameLine. destruct (Nat.ltb _ _); simpl; rewrite ?Hp; lia. }
  destruct (QString.startsWith _ "CP").
  { unfold descriptorLine, flagsLine, basePlaneLine, altitudeLine,
      circleLine, assertion.
    repeat break_match; simpl; rewrite ?Hp; try lia.
    all: match goal with
         | H : skipValues _ _ _ _ = _ |- _ => apply skipValues_headers in H
         end; lia. }
  destruct (negb _); [|rewrite Hp; lia].
  unfold pointLine, allocate. repeat break_match; simpl; rewrite ?Hp; lia.
Qed.

Lemma iteration_blocks (st : State) :
  match iteration host st with
  | Continue st' | Return _ st' | Abort st' =>
      blocksMet st' + blockHeaders (stream st') <=
      blocksMet st + blockHeaders (stream st)
  end.
Proof.
  unfold iteration. pose proof (dispatch_blocks (readLine st)) as H.
  assert (blocksMet (readLine st) + blockHeaders (stream (readLine st)) +
          (if QString.startsWith (currentLine (readLine st)) "B" then 1 else 0)
          = blocksMet st + blockHeaders (stream st)) as E.
  { unfold readLine, blocksMet, openBlocks, blockHeaders.
    destruct (stream st) as [|l rest]; simpl; [lia|].
    destruct (QString.startsWith l "B"); simpl; lia. }
  destruct (dispatch host (readLine st)); lia.
Qed.

(** X9: the container gets at most one polyline for each line of the
    file that starts with "B". *)
Theorem one_polyline_per_block_header_at_most (lines : list string) :
  exists x,
    loadFile host (Some lines) = Some x /\
    List.length (container (exitState x)) <= blockHeaders lines.
Proof.
  apply (loadFile_invariant host
    (fun st => blocksMet st + blockHeaders (stream st) <= blockHeaders lines)).
  - simpl. unfold blocksMet. simpl. lia.
  - intros st st' H E. pose proof (iteration_blocks st) as B.
    rewrite E in B. lia.
  - intros st H. unfold lastBlock, blocksMet, openBlocks in *.
    destruct (currentPoly st) as [p|]; simpl; [|lia].
    pose proof (attachIfValid_blocks p st) as [A _]. lia.
  - intros st e st' H E. pose proof (iteration_blocks st) as B.
    rewrite E in B. unfold blocksMet in *. simpl. lia.
  - intros st st' H E. pose proof (iteration_blocks st) as B.
    rewrite E in B. unfold blocksMet in *. simpl. lia.
Qed.

End Counting.

(** ** The lines that the diagnostics name *)

Lemma skipn_cons_inv {A} (d : A) (lines : list A) :
  forall n a s,
    skipn n lines = a :: s ->
    S n <= List.length lines /\ skipn (S n) lines = s /\ nth n lines d = a.
Proof.
  induction lines as [|x lines IH]; intros n a s.
  - destruct n; discriminate.
  - destruct n as [|n].
    + simpl. intros [= -> ->]. repeat split. lia.
    + intros H. apply IH in H. destruct H as (H1 & H2 & H3).
      repeat split; simpl in *; auto. lia.
Qed.

Section Positions.
Context {N : Numeric}.
Variable host : Host.
Variable lines : list string.

Lemma readLine_atLine (st : State) :
  atLine lines st -> atLine lines (readLine st).
Proof.
  unfold atLine, readLine.
  destruct (stream st) as [|l rest] eqn:E; simpl; [auto|].
  intros [(H1 & H2 & H3)|[_ [=]]]. left.
  symmetry in H2. apply (skipn_cons_inv EmptyString) in H2.
  destruct H2 as (L & S1 & S2).
  rewrite Nat.sub_0_r. auto.
Qed.

Lemma skipValues_atLine (s : list string) :
  forall l n k s' l' n' k',
    skipValues s l n k = (s', l', n', k') ->
    n <= List.length lines ->
    s = skipn n lines ->
    (1 <= n -> l = nth (n - 1) lines EmptyString) ->
    (n' <= List.length lines /\ s' = skipn n' lines /\
     (1 <= n' -> l' = nth (n' - 1) lines EmptyString)) \/
    (l' = EmptyString /\ s' = []).
Proof.
  induction s as [|a s IH]; intros l n k s' l' n' k'; simpl.
  - destruct (_ && _); intros [= <- <- <- _]; auto.
  - destruct (_ && _).
    + intros H L E _. symmetry in E.
      apply (skipn_cons_inv EmptyString) in E. destruct E as (L' & E1 & E2).
      apply IH in H; auto. simpl. rewrite Nat.sub_0_r. auto.
    + intros [= <- <- <- _]. auto.
Qed.

Lemma attachIfValid_input (p : ccPolyline) (st : State) :
  let st' := attachIfValid host p st in
  stream st' = stream st /\ currentLine st' = currentLine st /\
  lineNumber st' = lineNumber st /\ warnings st' = warnings st.
Proof.
  unfold attachIfValid, allocate. repeat break_match; simpl; auto.
Qed.

Lemma atLine_same (st st' : State) :
  stream st' = stream st -> currentLine st' = currentLine st ->
  lineNumber st' = lineNumber st ->
  atLine lines st -> atLine lines st'.
Proof. unfold atLine. intros -> -> ->. auto. Qed.

Lemma openBlock_logged (st : State) :
  QString.startsWith (currentLine st) "B" = true ->
  stream (openBlock st) = stream st /\
  currentLine (openBlock st) = currentLine st /\
  lineNumber (openBlock st) = lineNumber st /\
  logged st (openBlock st).
Proof.
  intros H. apply startsWith_B in H. destruct H as [_ H].
  assert (currentLine st <> EmptyString) as Hne.
  { intros E. rewrite E in H. discriminate. }
  unfold openBlock, logged. repeat break_match; simpl; repeat split; auto.
  all: right; eexists; split; [reflexivity|]; right; simpl; auto.
Qed.

Lemma descriptorLine_logged (p : ccPolyline) (st : State) :
  QString.startsWith (currentLine st) "CP" = true ->
  atLine lines st ->
  match descriptorLine host p st with
  | Continue st' => atLine lines st' /\ logged st st'
  | Return _ st' | Abort st' => warnings st' = warnings st
  end.
Proof.
  intros H A. apply startsWith_CP in H. destruct H as (_ & _ & _ & H).
  assert (currentLine st <> EmptyString) as Hne.
  { intros E. rewrite E in H. discriminate. }
  unfold descriptorLine, flagsLine, basePlaneLine, altitudeLine, circleLine,
    assertion.
  repeat break_match; simpl; auto.
  all: try (split; [exact A|]).
  all: try (left; reflexivity).
  all: try (right; eexists; split; [reflexivity|]; right; simpl; auto; fail).
  all: split; [|left; reflexivity].
  all: match goal with
       | E : skipValues _ _ _ _ = _ |- _ =>
           destruct A as [(A1 & A2 & A3)|[A1 A2]];
             [apply skipValues_atLine in E; auto; exact E|]
       end.
  all: congruence.
Qed.

Lemma pointLine_logged (p : ccPolyline) (st : State) :
  QString.isEmpty (currentLine st) = false ->
  match pointLine host p st with
  | Continue st' =>
      stream st' = stream st /\ currentLine st' = currentLine st /\
      lineNumber st' = lineNumber st /\ logged st st'
  | Return _ st' | Abort st' => warnings st' = warnings st
  end.
Proof.
  intros H.
  assert (currentLine st <> EmptyString) as Hne.
  { intros E. rewrite E in H. discriminate. }
  unfold pointLine, allocate, logged.
  repeat break_match; simpl; repeat split; auto.
  all: right; eexists; split; [reflexivity|]; simpl; auto.
Qed.

Lemma dispatch_logged (st : State) :
  atLine lines st ->
  match dispatch host st with
  | Continue st' => atLine lines st' /\ logged st st'
  | Return _ st' | Abort st' => warnings st' = warnings st
  end.
Proof.
  intros A. unfold dispatch.
  destruct (QString.startsWith _ "C "); [split; [exact A|left; reflexivity]|].
  destruct (QString.startsWith _ "B") eqn:B.
  { pose proof (closeBlock_frame host st) as (_ & C1 & C2 & C3 & _ & C4 & _).
    assert (QString.startsWith (currentLine (closeBlock host st)) "B" = true)
      as B' by (rewrite C2; exact B).
    pose proof (openBlock_logged (closeBlock host st) B') as (O1 & O2 & O3 & O4).
    split.
    - apply atLine_same with (st := st); congruence.
    - unfold logged in *. rewrite C2, C3, C4 in O4. exact O4. }
  destruct (currentPoly st) as [p|]; [|split; [exact A|left; reflexivity]].
  destruct (QString.startsWith _ "CN").
  { unfold nameLine. destruct (Nat.ltb _ _); simpl;
      (split; [exact A|left; reflexivity]). }
  destruct (QString.startsWith _ "CP") eqn:CP;
    [apply descriptorLine_logged; assumption|].
  destruct (QString.isEmpty _) eqn:E; simpl;
    [split; [exact A|left; reflexivity]|].
  pose proof (pointLine_logged p st E) as H.
  destruct (pointLine host p st); auto.
  destruct H as (H1 & H2 & H3 & H4). split; [|exact H4].
  apply atLine_same with (st := st); assumption.
Qed.

Lemma iteration_logged (st : State) :
  atLine lines st -> namedLines lines st ->
  match iteration host st with
  | Continue st' => atLine lines st' /\ namedLines lines st'
  | Return _ st' | Abort st' => namedLines lines st'
  end.
Proof.
  intros A W. apply readLine_atLine in A.
  assert (namedLines lines (readLine st)) as W'.
  { unfold readLine. destruct (stream st); exact W. }
  assert (1 <= lineNumber (readLine st)) as L.
  { unfold readLine. destruct (stream st); simpl; lia. }
  unfold iteration. revert A W' L. generalize (readLine st). clear st W.
  intros s A W L. pose proof (dispatch_logged s A) as H.
  destruct (dispatch host s) as [st'|e st'|st'].
  - destruct H as [A' H]. split; [exact A'|].
    destruct H as [H|(d & H & Hd)]; unfold namedLines; rewrite H; [exact W|].
    intros d' n Hin Hn. apply in_app_or in Hin.
    destruct Hin as [Hin|[<-|[]]]; [eapply W; eassumption|].
    destruct Hd as [Hd|[Hd Hne]]; [congruence|].
    assert (n = lineNumber s) as -> by congruence.
    destruct A as [(A1 & A2 & A3)|[A1 _]]; [|contradiction].
    rewrite <- A3 by exact L. auto.
  - unfold namedLines. rewrite H. exact W.
  - unfold namedLines. rewrite H. exact W.
Qed.

(** X13: a diagnostic that names a line names a line of the file,
    counted from 1, and that line is not empty. *)
Theorem diagnostics_name_lines_of_the_file :
  exists x,
    loadFile host (Some lines) = Some x /\
    forall d n,
      In d (warnings (exitState x)) -> diagnosticLine d = Some n ->
      1 <= n <= List.length lines /\
      nth (n - 1) lines EmptyString <> EmptyString.
Proof.
  apply (loadFile_invariant host
           (fun st => atLine lines st /\ namedLines lines st)
           (fun x => namedLines lines (exitState x))).
  - split.
    + left. simpl. repeat split; [lia|]. intros H. lia.
    + intros d n [].
  - intros st st' [A W] E. pose proof (iteration_logged st A W) as H.
    rewrite E in H. exact H.
  - intros st [A W]. unfold lastBlock.
    destruct (currentPoly st) as [p|]; simpl; [|exact W].
    pose proof (attachIfValid_input p st) as (_ & _ & _ & H).
    unfold namedLines. rewrite H. exact W.
  - intros st e st' [A W] E. pose proof (iteration_logged st A W) as H.
    rewrite E in H. exact H.
  - intros st st' [A W] E. pose proof (iteration_logged st A W) as H.
    rewrite E in H. exact H.
Qed.

End Positions.

(** ** Builds, and the lines that are read *)

Section Builds.
Context {N : Numeric}.
Variable host : Host.

Lemma attachIfValid_release (p : ccPolyline) (st : State) :
  attachIfValid (release host) p st = attachIfValid host p st.
Proof. reflexivity. Qed.

Lemma descriptorLine_release (p : ccPolyline) (st : State) :
  match descriptorLine host p st with
  | Abort _ => True
  | x => descriptorLine (release host) p st = x
  end.
Proof.
  unfold descriptorLine, circleLine, assertion. simpl.
  destruct (NDEBUG host); simpl; repeat break_match; auto; discriminate.
Qed.

Lemma dispatch_release (st : State) :
  match dispatch host st with
  | Abort _ => True
  | x => dispatch (release host) st = x
  end.
Proof.
  unfold dispatch.
  destruct (QString.startsWith _ "C "); [reflexivity|].
  destruct (QString.startsWith _ "B"); [reflexivity|].
  destruct (currentPoly st) as [p|]; [|reflexivity].
  destruct (QString.startsWith _ "CN"); [reflexivity|].
  destruct (QString.startsWith _ "CP"); [apply descriptorLine_release|].
  destruct (negb _); [|reflexivity].
  change (pointLine (release host) p st) with (pointLine host p st).
  destruct (pointLine host p st) eqn:E; auto.
Qed.

Lemma loop_release (fuel : nat) :
  forall st e st',
    loop host fuel st = Some (Returned e st') ->
    loop (release host) fuel st = Some (Returned e st').
Proof.
  induction fuel as [|fuel IH]; intros st e st'; simpl.
  - destruct (QString.isEmpty _); [|discriminate]. auto.
  - destruct (QString.isEmpty _); [auto|].
    unfold iteration. pose proof (dispatch_release (readLine st)) as H.
    destruct (dispatch host (readLine st)) as [s|e' s|s]; rewrite ?H.
    + apply IH.
    + auto.
    + discriminate.
Qed.

(** X14: a load that returns in a build with assertions returns the
    same status and ends in the same state in the release build. *)
Theorem assertions_do_not_change_a_load (file : option (list string))
    (e : CC_FILE_ERROR) (st : State) :
  loadFile host file = Some (Returned e st) ->
  loadFile (release host) file = Some (Returned e st).
Proof.
  destruct file as [lines|]; unfold loadFile; [apply loop_release|auto].
Qed.

Lemma loop_invariant_guarded (P : State -> Prop) (Q : Exit -> Prop) :
  (forall st st',
     P st -> QString.isEmpty (currentLine st) = false ->
     iteration host st = Continue st' -> P st') ->
  (forall st, P st -> Q (lastBlock host st)) ->
  (forall st e st',
     P st -> QString.isEmpty (currentLine st) = false ->
     iteration host st = Return e st' -> Q (Returned e st')) ->
  (forall st st',
     P st -> QString.isEmpty (currentLine st) = false ->
     iteration host st = Abort st' -> Q (Aborted st')) ->
  forall fuel st x, P st -> loop host fuel st = Some x -> Q x.
Proof.
  intros Hstep Hlast Hret Habort.
  induction fuel as [|fuel IH]; intros st x HP; simpl.
  - destruct (QString.isEmpty _); [|discriminate].
    intros [= <-]. auto.
  - destruct (QString.isEmpty _) eqn:G; [intros [= <-]; auto|].
    destruct (iteration host st) as [st'|e st'|st'] eqn:E.
    + apply IH. eauto.
    + intros [= <-]. eauto.
    + intros [= <-]. eauto.
Qed.

Section Lines.
Variable lines : list string.

Lemma skipValues_linesRead (s : list string) :
  forall l n k s' l' n' k',
    skipValues s l n k = (s', l', n', k') ->
    n <= List.length lines ->
    s = skipn n lines ->
    (n' <= List.length lines /\ s' = skipn n' lines) \/
    (n' <= S (List.length lines) /\ l' = EmptyString /\ s' = []).
Proof.
  induction s as [|a s IH]; intros l n k s' l' n' k'; simpl.
  - destruct (_ && _); intros [= <- <- <- _]; auto.
    intros L E. right. repeat split; auto. lia.
  - destruct (_ && _).
    + intros H L E. symmetry in E.
      apply (skipn_cons_inv EmptyString) in E. destruct E as (L' & E1 & E2).
      apply IH in H; auto.
    + intros [= <- <- <- _]. auto.
Qed.

Lemma readLine_linesRead (st : State) :
  QString.isEmpty (currentLine st) = false ->
  linesRead lines st -> linesRead lines (readLine st).
Proof.
  intros G [(H1 & H2)|(_ & H & _)]; [|rewrite H in G; discriminate].
  unfold linesRead, readLine.
  destruct (stream st) as [|l rest] eqn:E; simpl.
  - right. repeat split. lia.
  - left. symmetry in H2. apply (skipn_cons_inv EmptyString) in H2.
    destruct H2 as (L & S1 & S2). auto.
Qed.

Lemma linesRead_same (st st' : State) :
  stream st' = stream st -> currentLine st' = currentLine st ->
  lineNumber st' = lineNumber st ->
  linesRead lines st -> linesRead lines st'.
Proof. unfold linesRead. intros -> -> ->. auto. Qed.

Lemma descriptorLine_linesRead (p : ccPolyline) (st : State) :
  linesRead lines st ->
  match descriptorLine host p st with
  | Continue st' | Return _ st' | Abort st' => linesRead lines st'
  end.
Proof.
  intros A.
  unfold descriptorLine, flagsLine, basePlaneLine, altitudeLine, circleLine,
    assertion.
  repeat break_match; simpl; try exact A.
  all: match goal with
       | E : skipValues _ _ _ _ = _ |- _ =>
           destruct A as [(A1 & A2)|(A1 & A2 & A3)];
             [apply skipValues_linesRead in E; auto; exact E|]
       end.
  all: match goal with
       | E : skipValues _ _ _ _ = _ |- _ =>
           rewrite A2, skipValues_empty_line in E; injection E as <- <- <- <-
       end.
  all: right; auto.
Qed.

Lemma dispatch_linesRead (st : State) :
  linesRead lines st ->
  match dispatch host st with
  | Continue st' | Return _ st' | Abort st' => linesRead lines st'
  end.
Proof.
  intros A. unfold dispatch.
  destruct (QString.startsWith _ "C "); [exact A|].
  destruct (QString.startsWith _ "B").
  { pose proof (closeBlock_frame host st) as (_ & C1 & C2 & C3 & _).
    pose proof (openBlock_frame (closeBlock host st)) as (_ & _ & _ & O1 & _).
    assert (currentLine (openBlock (closeBlock host st)) = currentLine st /\
            lineNumber (openBlock (closeBlock host st)) = lineNumber st)
      as [O2 O3].
    { rewrite <- C2, <- C3. unfold openBlock.
      repeat break_match; simpl; auto. }
    apply linesRead_same with (st := st); congruence. }
  destruct (currentPoly st) as [p|]; [|exact A].
  destruct (QString.startsWith _ "CN").
  { unfold nameLine. destruct (Nat.ltb _ _); exact A. }
  destruct (QString.startsWith _ "CP"); [apply descriptorLine_linesRead, A|].
  destruct (negb _); [|exact A].
  unfold pointLine, allocate. repeat break_match; simpl; exact A.
Qed.

(** X15: a load ends, and it has then called [readLine] once for each
    line of the file and once more at most. *)
Theorem load_reads_each_line_once :
  exists x,
    loadFile host (Some lines) = Some x /\
    lineNumber (exitState x) <= S (List.length lines).
Proof.
  destruct (loadFile_ends host (Some lines)) as [x Hx].
  exists x. split; [exact Hx|].
  assert (forall st, linesRead lines st ->
            lineNumber st <= S (List.length lines)) as B.
  { intros st [(H & _)|(H & _)]; lia. }
  apply (loop_invariant_guarded (linesRead lines)
           (fun x => lineNumber (exitState x) <= S (List.length lines)))
    with (fuel := S (List.length lines)) (st := initialState lines).
  - intros st st' H G E. unfold iteration in E.
    pose proof (dispatch_linesRead _ (readLine_linesRead st G H)) as D.
    rewrite E in D. exact D.
  - intros st H. unfold lastBlock.
    destruct (currentPoly st) as [p|]; simpl; [|apply B, H].
    pose proof (attachIfValid_input host p st) as (_ & _ & -> & _).
    apply B, H.
  - intros st e st' H G E. unfold iteration in E.
    pose proof (dispatch_linesRead _ (readLine_linesRead st G H)) as D.
    rewrite E in D. apply B, D.
  - intros st st' H G E. unfold iteration in E.
    pose proof (dispatch_linesRead _ (readLine_linesRead st G H)) as D.
    rewrite E in D. apply B, D.
  - left. simpl. split; [lia|reflexivity].
  - exact Hx.
Qed.

End Lines.

End Builds.

(** ** The container grows *)

Section Growth.
Context {N : Numeric}.
Variable host : Host.

Lemma iteration_extends (st : State) :
  match iteration host st with
  | Continue st' | Return _ st' | Abort st' =>
      exists l, container st' = container st ++ l
  end.
Proof.
  unfold iteration.
  assert (container (readLine st) = container st) as <-.
  { unfold readLine. destruct (stream st); reflexivity. }
  pose proof (dispatch_transition host (readLine st)) as T.
  destruct (dispatch host (readLine st)) as [st'|e st'|st'].
  - destruct T as [-> _ _ _| _ _ [->|(p & _ & _ & ->)] _| p q Pd -> _ _ _ _ _ _ _ _].
    + exists []. rewrite app_nil_r. reflexivity.
    + exists []. rewrite app_nil_r. reflexivity.
    + eauto.
    + exists []. rewrite app_nil_r. reflexivity.
  - destruct T as (_ & -> & _). exists []. rewrite app_nil_r. reflexivity.
  - destruct T as (_ & -> & _). exists []. rewrite app_nil_r. reflexivity.
Qed.

Lemma loop_extends (fuel : nat) (st : State) (x : Exit) :
  loop host fuel st = Some x ->
  exists l, container (exitState x) = container st ++ l.
Proof.
  apply (loop_invariant host
           (fun s => exists l, container s = container st ++ l)
           (fun x => exists l, container (exitState x) = container st ++ l)).
  - intros s s' [l H] E. pose proof (iteration_extends s) as H'.
    rewrite E in H'. destruct H' as [l' H']. exists (l ++ l'). rewrite H', H, app_assoc. reflexivity.
  - intros s [l H]. unfold lastBlock.
    destruct (currentPoly s) as [p|]; simpl; [|eauto].
    pose proof (attachIfValid_frame host p s) as F. cbv zeta in F.
    destruct F as (_ & _ & _ & [->|[_ ->]]); [eauto|].
    exists (l ++ [finalized p]). rewrite H, app_assoc. reflexivity.
  - intros s e s' [l H] E. pose proof (iteration_extends s) as H'.
    rewrite E in H'. destruct H' as [l' H'].
    exists (l ++ l'). simpl. rewrite H', H, app_assoc. reflexivity.
  - intros s s' [l H] E. pose proof (iteration_extends s) as H'.
    rewrite E in H'. destruct H' as [l' H'].
    exists (l ++ l'). simpl. rewrite H', H, app_assoc. reflexivity.
  - exists []. rewrite app_nil_r. reflexivity.
Qed.

(** X16: the polylines that are in the container at the head of an
    iteration stay in it, as they are and in their order, until the load
    ends, however it ends. *)
Theorem attached_polylines_are_kept (lines : list string) (n : nat)
    (st : State) :
  run host n (initialState lines) = Some st ->
  exists x l,
    loadFile host (Some lines) = Some x /\
    container (exitState x) = container st ++ l.
Proof.
  intros R. destruct (loadFile_ends host (Some lines)) as [x Hx].
  destruct (run_loop host n _ _ _ _ R Hx) as [fuel L].
  destruct (loop_extends fuel st x L) as [l H].
  exists x, l. split; assumption.
Qed.

End Growth.

(** ** The states that a load reaches *)

Section Reached.
Context {N : Numeric}.
Variable host : Host.

Lemma run_snoc (n : nat) :
  forall a b c,
    run host n a = Some b ->
    QString.isEmpty (currentLine b) = false ->
    iteration host b = Continue c ->
    run host (S n) a = Some c.
Proof.
  induction n as [|n IH]; intros a b c.
  - intros [= <-] G E. simpl. rewrite G, E. reflexivity.
  - intros R G E. simpl in R |- *.
    destruct (QString.isEmpty (currentLine a)); [discriminate|].
    destruct (iteration host a) as [a'| |]; try discriminate.
    apply (IH a' b c R G E).
Qed.

(** Induction on the iterations of the loop of a load, over the states
    that the loop reaches. *)
Lemma loop_invariant_reached (P : State -> Prop) (Q : Exit -> Prop)
    (init : State) :
  (forall n st st',
     run host n init = Some st -> P st ->
     QString.isEmpty (currentLine st) = false ->
     iteration host st = Continue st' -> P st') ->
  (forall n st, run host n init = Some st -> P st -> Q (lastBlock host st)) ->
  (forall n st e st',
     run host n init = Some st -> P st ->
     QString.isEmpty (currentLine st) = false ->
     iteration host st = Return e st' -> Q (Returned e st')) ->
  (forall n st st',
     run host n init = Some st -> P st ->
     QString.isEmpty (currentLine st) = false ->
     iteration host st = Abort st' -> Q (Aborted st')) ->
  forall fuel n st x,
    run host n init = Some st -> P st -> loop host fuel st = Some x -> Q x.
Proof.
  intros Hstep Hlast Hret Habort.
  induction fuel as [|fuel IH]; intros n st x R HP; simpl.
  - destruct (QString.isEmpty _); [|discriminate].
    intros [= <-]. eauto.
  - destruct (QString.isEmpty _) eqn:G; [intros [= <-]; eauto|].
    destruct (iteration host st) as [st'|e st'|st'] eqn:E.
    + apply (IH (S n)); [eapply run_snoc; eassumption|eauto].
    + intros [= <-]. eauto.
    + intros [= <-]. eauto.
Qed.

Lemma loadFile_invariant_reached (P : State -> Prop) (Q : Exit -> Prop)
    (lines : list string) :
  P (initialState lines) ->
  (forall n st st',
     run host n (initialState lines) = Some st -> P st ->
     QString.isEmpty (currentLine st) = false ->
     iteration host st = Continue st' -> P st') ->
  (forall n st,
     run host n (initialState lines) = Some st -> P st ->
     Q (lastBlock host st)) ->
  (forall n st e st',
     run host n (initialState lines) = Some st -> P st ->
     QString.isEmpty (currentLine st) = false ->
     iteration host st = Return e st' -> Q (Returned e st')) ->
  (forall n st st',
     run host n (initialState lines) = Some st -> P st ->
     QString.isEmpty (currentLine st) = false ->
     iteration host st = Abort st' -> Q (Aborted st')) ->
  exists x, loadFile host (Some lines) = Some x /\ Q x.
Proof.
  intros H0 Hstep Hlast Hret Habort.
  destruct (loadFile_ends host (Some lines)) as [x Hx].
  exists x. split; [exact Hx|].
  eapply (loop_invariant_reached P Q (initialState lines)) with (n := 0);
    eauto.
  reflexivity.
Qed.

(** The only return inside the loop: the reserve for a vertex has
    failed. *)
Lemma dispatch_return (st : State) (e : CC_FILE_ERROR) (st' : State) :
  dispatch host st = Return e st' ->
  e = CC_FERR_NOT_ENOUGH_MEMORY /\
  exists poly,
    currentPoly st = Some poly /\
    pointLineOf (currentLine st) <> None /\
    List.length (points (vertices poly)) = capacity (vertices poly) /\
    alloc_ok host (allocations st) = false /\
    allocations st' = S (allocations st).
Proof.
  unfold dispatch, pointLineOf.
  destruct (QString.startsWith _ "C "); [discriminate|].
  destruct (QString.startsWith _ "B"); [discriminate|].
  destruct (currentPoly st) as [poly|]; [|discriminate].
  destruct (QString.startsWith _ "CN"); [discriminate|].
  destruct (QString.startsWith _ "CP") eqn:CP.
  { pose proof (proj1 (descriptorLine_frame host poly st)) as H.
    intros E. rewrite E in H. contradiction. }
  destruct (negb _); [|discriminate]. simpl.
  unfold pointLine, allocate.
  destruct (pointOfTokens _) as [Pd|]; [|discriminate].
  destruct (Nat.eqb_spec (List.length (points (vertices poly)))
              (capacity (vertices poly))) as [F|F].
  - destruct (alloc_ok host (allocations st)) eqn:A; simpl.
    + repeat break_match; discriminate.
    + intros [= <- <-]. split; [reflexivity|].
      exists poly. repeat split; auto. discriminate.
  - simpl. repeat break_match; discriminate.
Qed.

End Reached.

(** ** The status of a load *)

Section Status.
Context {N : Numeric}.
Variable host : Host.

Lemma iteration_return (lines : list string) (n : nat) (st : State)
    (e : CC_FILE_ERROR) (st' : State) :
  run host n (initialState lines) = Some st ->
  iteration host st = Return e st' ->
  e = CC_FERR_NOT_ENOUGH_MEMORY /\ reserveFailed host lines st'.
Proof.
  intros R E. unfold iteration in E.
  apply dispatch_return in E.
  destruct E as (He & poly & Hp & Hl & Hfull & Ha & Hn).
  split; [exact He|].
  unfold readLine in Hp, Hl, Ha, Hn.
  destruct (stream st) as [|line rest] eqn:Hs; simpl in *.
  { exfalso. apply Hl. reflexivity. }
  exists n, st, line, rest, poly. auto 10.
Qed.

(** C6, amended: the status of a load is never "nothing to load".  It
    is "not enough memory" only when the reserve for a vertex has
    failed; otherwise it is "no error" exactly when no malformed line
    was reported, and "malformed file" when one was, whether or not a
    polyline was attached to the container.  So, when no allocation
    fails, a load that attaches no polyline and reports no malformed
    line returns "no error"; and a file without a line that starts a
    block gives "no error", an empty container and no diagnostic. *)
Theorem status_follows_diagnostics (lines : list string) :
  exists x,
    loadFile host (Some lines) = Some x /\
    match x with
    | Returned e st =>
        ((e = CC_FERR_NO_ERROR /\
          existsb isMalformedLine (warnings st) = false) \/
         (e = CC_FERR_MALFORMED_FILE /\
          existsb isMalformedLine (warnings st) = true) \/
         (e = CC_FERR_NOT_ENOUGH_MEMORY /\ reserveFailed host lines st)) /\
        ((forall k, alloc_ok host k = true) ->
         container st = [] ->
         existsb isMalformedLine (warnings st) = false ->
         e = CC_FERR_NO_ERROR)
    | Aborted _ => NDEBUG host = false
    end /\
    (Forall (fun l => QString.startsWith l "B" = false) lines ->
     exists st,
       x = Returned CC_FERR_NO_ERROR st /\
       container st = [] /\ warnings st = []).
Proof.
  destruct (loadFile_invariant_reached host statusInv
    (fun x =>
       match x with
       | Returned e st =>
           (e = CC_FERR_NO_ERROR /\
            existsb isMalformedLine (warnings st) = false) \/
           (e = CC_FERR_MALFORMED_FILE /\
            existsb isMalformedLine (warnings st) = true) \/
           (e = CC_FERR_NOT_ENOUGH_MEMORY /\ reserveFailed host lines st)
       | Aborted _ => NDEBUG host = false
       end) lines) as (x & Hx & HQ).
  - left. split; reflexivity.
  - intros n st st' _ H _ E. pose proof (iteration_status host st H) as S.
    rewrite E in S. exact S.
  - intros n st _ H. unfold lastBlock.
    destruct (currentPoly st) as [poly|]; simpl.
    + apply (attachIfValid_status host poly) in H.
      assert (result (attachIfValid host poly st) = result st) as <-.
      { unfold attachIfValid, allocate. repeat break_match; reflexivity. }
      destruct H; auto.
    + destruct H; auto.
  - intros n st e st' R _ _ E. right. right.
    apply (iteration_return lines n st e st' R E).
  - intros n st st' _ H _ E. pose proof (iteration_status host st H) as S.
    rewrite E in S. exact S.
  - exists x. split; [exact Hx|]. split.
    + destruct x as [e st|st]; [|exact HQ]. split; [exact HQ|].
      intros Hmem Hc Hw.
      destruct HQ as [[He _]|[[_ Hm]|[_ Hf]]]; [exact He|congruence|].
      destruct Hf as (n & s & line & rest & poly & _ & _ & _ & _ & _ & Ha & _).
      rewrite Hmem in Ha. discriminate Ha.
    + intros Hb.
      destruct (loadFile_invariant host
        (fun st => currentPoly st = None /\ result st = CC_FERR_NO_ERROR /\
                   container st = [] /\ warnings st = [] /\
                   Forall (fun l => QString.startsWith l "B" = false)
                          (stream st))
        (fun x => exists st, x = Returned CC_FERR_NO_ERROR st /\
                             container st = [] /\ warnings st = [])
        lines) as (x' & Hx' & H').
      * repeat split. exact Hb.
      * intros st st' (Hp & Hr & Hc & Hw & Hs) E.
        rewrite iteration_idle in E by assumption. injection E as <-.
        unfold readLine. destruct (stream st) as [|l rest]; simpl;
          repeat split; auto.
        inversion Hs. assumption.
      * intros st (Hp & Hr & Hc & Hw & Hs). unfold lastBlock.
        rewrite Hp, Hr. eauto.
      * intros st e st' (Hp & Hr & Hc & Hw & Hs) E.
        rewrite iteration_idle in E by assumption. discriminate.
      * intros st st' (Hp & Hr & Hc & Hw & Hs) E.
        rewrite iteration_idle in E by assumption. discriminate.
      * rewrite Hx in Hx'. injection Hx' as <-. exact H'.
Qed.

End Status.

(** ** The polyline that holds the shift record *)

Section Holder.
Context {N : Numeric}.
Variable host : Host.

Lemma continues_refl (q : ccPolyline) : continues q q.
Proof. split; [reflexivity|]. exists []. rewrite app_nil_r. reflexivity. Qed.

Lemma continues_finalized (q p : ccPolyline) :
  continues q p -> continues q (finalized p).
Proof. intros H. exact H. Qed.

Lemma continues_points (q p : ccPolyline) :
  continues q p -> points (vertices q) <> [] -> points (vertices p) <> [].
Proof.
  intros [_ (more & H)] Hq. rewrite H.
  destruct (points (vertices q)); [contradiction|discriminate].
Qed.

Lemma holderOf_nil (q : ccPolyline) : holderOf q [].
Proof. exists [], []. repeat split; auto. Qed.

Lemma holderOf_first (q p : ccPolyline) : continues q p -> holderOf q [p].
Proof. intros H. exists [p], []. repeat split; eauto. Qed.

Lemma holderOf_snoc (q p : ccPolyline) (l : list ccPolyline) :
  holderOf q l -> noShiftRecord p -> holderOf q (l ++ [p]).
Proof.
  intros (first & later & -> & Hl & Hf) Hp.
  exists first, (later ++ [p]). rewrite app_assoc. repeat split; auto.
  apply Forall_app. split; [exact Hl|]. repeat constructor. exact Hp.
Qed.

Lemma attachedHolder_first (q p : ccPolyline) :
  continues q p -> attachedHolder q [p].
Proof. intros H. exists p, []. repeat split; auto; apply H. Qed.

Lemma attachedHolder_snoc (q p : ccPolyline) (l : list ccPolyline) :
  attachedHolder q l -> noShiftRecord p -> attachedHolder q (l ++ [p]).
Proof.
  intros (r & later & -> & Hr & Hl) Hp.
  exists r, (later ++ [p]). split; [reflexivity|]. split; [exact Hr|].
  apply Forall_app. split; [exact Hl|]. repeat constructor. exact Hp.
Qed.

(** When no allocation fails, a polyline that has a vertex is attached
    when its block ends. *)
Lemma attachIfValid_attach (poly : ccPolyline) (st : State) :
  memoryHolds host -> points (vertices poly) <> [] ->
  container (attachIfValid host poly st) = container st ++ [finalized poly].
Proof.
  intros M Hne. unfold attachIfValid, allocate, finalized.
  destruct (points (vertices poly)) eqn:E; [contradiction|]. simpl.
  rewrite !M. reflexivity.
Qed.

(** When no allocation fails, an iteration leaves a block that has a
    vertex open, or attaches its polyline. *)
Lemma dispatch_attach (s st' : State) (p : ccPolyline) :
  memoryHolds host ->
  dispatch host s = Continue st' ->
  currentPoly s = Some p -> points (vertices p) <> [] ->
  (exists p', currentPoly st' = Some p' /\ points (vertices p') <> []) \/
  container st' = container s ++ [finalized p].
Proof.
  intros M E Hp Hne. unfold dispatch in E.
  destruct (QString.startsWith _ "C "); [injection E as <-; eauto|].
  destruct (QString.startsWith _ "B").
  { right. injection E as <-.
    pose proof (openBlock_frame (closeBlock host s)) as (_ & _ & H & _).
    rewrite H. unfold closeBlock. rewrite Hp. simpl.
    apply attachIfValid_attach; assumption. }
  rewrite Hp in E. left.
  destruct (QString.startsWith _ "CN").
  { injection E as <-.
    pose proof (nameLine_frame p s) as (_ & _ & _ & _ & H).
    destruct H as [H|(q & Hq & _ & Hpts & _)].
    - exists p. split; [congruence|exact Hne].
    - exists q. split; [exact Hq|congruence]. }
  destruct (QString.startsWith _ "CP").
  { pose proof (proj1 (descriptorLine_frame host p s)) as H.
    rewrite E in H. destruct H as (_ & _ & _ & H).
    destruct H as [H|(q & Hq & _ & Hpts & _)].
    - exists p. split; [congruence|exact Hne].
    - exists q. split; [exact Hq|congruence]. }
  destruct (negb _); [|injection E as <-; eauto].
  unfold pointLine, allocate in E.
  destruct (pointOfTokens _) as [Pd|]; [|injection E as <-; simpl; eauto].
  destruct (Nat.eqb _ _); [rewrite M in E|]; simpl in E;
    (destruct (firstVertex s);
     [destruct (HandleGlobalShift host Pd (Pshift s)) as [[|] shift]|]);
    simpl in E; injection E as <-; simpl; eexists;
    (split; [reflexivity|]); simpl;
    intros H; apply app_eq_nil in H; destruct H as [_ H]; discriminate H.
Qed.

Lemma transition_before (s st' : State) :
  Transition s st' -> beforeFirstVertex s ->
  beforeFirstVertex st' \/ firstVertex st' = false.
Proof.
  intros T (Hf & Hs & Hc & Ho).
  destruct T as [Tc Ts Tf Tp|Ts Tf Tc Tp|p q Pd _ _ _ _ _ _ _ Tf _];
    [left|left|right; exact Tf].
  - split; [congruence|]. split; [congruence|]. split; [congruence|].
    intros r Hr. destruct Tp as [Tp|(p & q & Hp & Hq & Hg & Hpts & _)].
    + apply Ho. congruence.
    + assert (r = q) as -> by congruence.
      destruct (Ho p Hp) as [H1 H2]. unfold noShiftRecord in *.
      split; congruence.
  - assert (container st' = []) as Hc'.
    { destruct Tc as [Tc|(p & Hp & Hne & _)]; [congruence|].
      destruct (Ho p Hp) as [_ H]. contradiction. }
    split; [congruence|]. split; [congruence|]. split; [exact Hc'|].
    intros r Hr. destruct Tp as [Tp|Tp]; [congruence|].
    assert (r = newPolyline (mkCloud [] 0 false)) as -> by congruence.
    split; reflexivity.
Qed.

Lemma transition_after (q : ccPolyline) (shift : Vec3) (s st' : State) :
  points (vertices q) <> [] ->
  (memoryHolds host ->
   forall p, currentPoly s = Some p -> points (vertices p) <> [] ->
     (exists p', currentPoly st' = Some p' /\ points (vertices p') <> []) \/
     container st' = container s ++ [finalized p]) ->
  Transition s st' -> afterFirstVertex host q shift s ->
  afterFirstVertex host q shift st'.
Proof.
  intros Hq0 Hatt T (Hs & Hf & H).
  destruct T as [Tc Ts Tf Tp|Ts Tf Tc Tp|p0 q0 Pd Tc Tp Tq _ _ Tpts _ Tf' Tg].
  - split; [congruence|]. split; [congruence|].
    destruct H as [(Hc & p & Hp & Hq)|(Hh & Ha & Ho)]; [left|right].
    + split; [congruence|].
      destruct Tp as [Tp|(p1 & q1 & Hp1 & Hq1 & Hg & Hpts & _)].
      * exists p. split; [congruence|exact Hq].
      * exists q1. split; [exact Hq1|].
        assert (p1 = p) as -> by congruence.
        destruct Hq as [H1 H2]. split; [congruence|].
        rewrite Hpts. exact H2.
    + rewrite Tc. split; [exact Hh|]. split; [exact Ha|].
      intros r Hr. destruct Tp as [Tp|(p1 & q1 & Hp1 & Hq1 & Hg & _)].
      * apply Ho. congruence.
      * assert (r = q1) as -> by congruence.
        unfold noShiftRecord in *. rewrite Hg. apply (Ho p1 Hp1).
  - split; [congruence|]. split; [congruence|]. right.
    assert (forall r, currentPoly st' = Some r ->
            noShiftRecord r /\ points (vertices r) = []) as Hnew.
    { intros r Hr. destruct Tp as [Tp|Tp]; [congruence|].
      assert (r = newPolyline (mkCloud [] 0 false)) as -> by congruence.
      split; reflexivity. }
    split; [|split; [|intros r Hr; apply (Hnew r Hr)]].
    + destruct H as [(Hc & p & Hp & Hq)|(Hh & _ & Ho)].
      * destruct Tc as [Tc|(p1 & Hp1 & _ & Tc)]; rewrite Tc, Hc.
        { apply holderOf_nil. }
        assert (p1 = p) as -> by congruence.
        apply holderOf_first, continues_finalized, Hq.
      * destruct Tc as [Tc|(p1 & Hp1 & _ & Tc)]; rewrite Tc; [exact Hh|].
        apply holderOf_snoc; [exact Hh|]. apply (Ho p1 Hp1).
    + intros M. destruct H as [(Hc & p & Hp & Hq)|(_ & Ha & Ho)].
      * destruct (Hatt M p Hp (continues_points q p Hq Hq0))
          as [(p' & Hp' & Hne)|Hc'].
        { destruct (Hnew p' Hp') as [_ Hn]. contradiction. }
        rewrite Hc', Hc.
        apply attachedHolder_first, continues_finalized, Hq.
      * destruct Tc as [Tc|(p1 & Hp1 & _ & Tc)]; rewrite Tc; [exact (Ha M)|].
        apply attachedHolder_snoc; [exact (Ha M)|]. apply (Ho p1 Hp1).
  - rewrite Hf in Tg. destruct Tg as [Tg1 Tg2].
    split; [congruence|]. split; [exact Tf'|].
    destruct H as [(Hc & p & Hp & Hq)|(Hh & Ha & Ho)]; [left|right].
    + split; [congruence|]. exists q0. split; [exact Tq|].
      assert (p0 = p) as -> by congruence.
      destruct Hq as [H1 (more & H2)]. split; [congruence|].
      exists (more ++ [vadd Pd (Pshift st')]).
      rewrite Tpts, H2, app_assoc. reflexivity.
    + rewrite Tc. split; [exact Hh|]. split; [exact Ha|].
      intros r Hr. assert (r = q0) as -> by congruence.
      unfold noShiftRecord in *. rewrite Tg2. apply (Ho p0 Tp).
Qed.

(** The iteration that stores the first vertex. *)
Lemma dispatch_first_vertex (s st' : State) :
  dispatch host s = Continue st' ->
  firstVertex s = true -> firstVertex st' = false ->
  exists p q Pd,
    currentPoly s = Some p /\ currentPoly st' = Some q /\
    container st' = container s /\ currentLine st' = currentLine s /\
    pointOfTokens (QString.split (currentLine s)) = Some Pd /\
    Pshift st' = snd (HandleGlobalShift host Pd (Pshift s)) /\
    globalShift q =
      (if fst (HandleGlobalShift host Pd (Pshift s))
       then Pshift st' else globalShift p) /\
    points (vertices q) = points (vertices p) ++ [vadd Pd (Pshift st')].
Proof.
  unfold dispatch.
  destruct (QString.startsWith _ "C "); [intros [= <-]; congruence|].
  destruct (QString.startsWith _ "B").
  { pose proof (openBlock_frame (closeBlock host s)) as (_ & H1 & _).
    pose proof (closeBlock_frame host s) as (_ & _ & _ & _ & _ & _ & _ & H2).
    intros [= <-]. congruence. }
  destruct (currentPoly s) as [p|]; [|intros [= <-]; congruence].
  destruct (QString.startsWith _ "CN").
  { pose proof (nameLine_frame p s) as (_ & H & _). intros [= <-]. congruence. }
  destruct (QString.startsWith _ "CP").
  { pose proof (proj1 (descriptorLine_frame host p s)) as H.
    destruct (descriptorLine host p s); try discriminate.
    destruct H as (_ & H & _). intros [= <-]. congruence. }
  destruct (negb _); [|intros [= <-]; congruence].
  unfold pointLine, allocate.
  destruct (pointOfTokens _) as [Pd|]; [|intros [= <-]; simpl; congruence].
  intros E F _.
  destruct (HandleGlobalShift host Pd (Pshift s)) as [recentered shift] eqn:G.
  exists p.
  destruct (Nat.eqb _ _); [destruct (alloc_ok host _)|]; simpl in E;
    try discriminate; rewrite F, G in E; destruct recentered; simpl in E;
    injection E as <-; simpl; eexists; exists Pd; repeat split.
  all: rewrite G; reflexivity.
Qed.

Lemma firstVertexAt_points (lines : list string) (st1 : State)
    (q : ccPolyline) :
  firstVertexAt host lines st1 q -> points (vertices q) <> [].
Proof.
  intros (n & st0 & Pd & _ & _ & _ & _ & _ & _ & _ & _ & _ & H).
  rewrite H. discriminate.
Qed.

Lemma readLine_holder (lines : list string) (st : State) :
  holderInv host lines st -> holderInv host lines (readLine st).
Proof. unfold readLine. destruct (stream st); intros H; exact H. Qed.

Lemma holder_step (lines : list string) (n : nat) (st st' : State) :
  run host n (initialState lines) = Some st ->
  holderInv host lines st ->
  iteration host st = Continue st' ->
  holderInv host lines st'.
Proof.
  intros R H E.
  pose proof (dispatch_transition host (readLine st)) as T.
  pose proof E as E'. unfold iteration in E'. rewrite E' in T.
  pose proof (readLine_holder lines st H) as [B|(st1 & q & F & A)].
  - destruct (transition_before _ _ T B) as [B'|Hf]; [left; exact B'|].
    destruct B as (Bf & Bs & Bc & Bo).
    destruct (dispatch_first_vertex _ _ E' Bf Hf)
      as (p & q & Pd & Hp & Hq & Hc & Hl & Ht & Hs & Hg & Hpts).
    destruct (Bo p Hp) as [Bn Bp].
    rewrite Bs in Hs, Hg. rewrite Bn in Hg. rewrite Bp in Hpts.
    right. exists st', q. split.
    + exists n, st, Pd. repeat split; auto; try congruence.
      unfold readLine in Bf. destruct (stream st); exact Bf.
    + split; [reflexivity|]. split; [exact Hf|]. left.
      split; [congruence|]. exists q. split; [exact Hq|apply continues_refl].
  - right. exists st1, q. split; [exact F|].
    apply (transition_after q (Pshift st1) (readLine st) st');
      [exact (firstVertexAt_points lines st1 q F)| |exact T|exact A].
    intros M p Hp Hne. exact (dispatch_attach _ _ p M E' Hp Hne).
Qed.

(** The container [c] that a load leaves, from the state [st] of its
    last iteration: under [M], every allocation has succeeded and the
    polyline of a block that was open with a vertex has been attached. *)
Lemma holder_exit (lines : list string) (st : State) (c : list ccPolyline)
    (shift : Vec3) (M : Prop) :
  holderInv host lines st ->
  Pshift st = shift ->
  c = container st \/
  (exists p, currentPoly st = Some p /\ points (vertices p) <> [] /\
             c = container st ++ [finalized p]) ->
  (M -> memoryHolds host /\
        forall p, currentPoly st = Some p -> points (vertices p) <> [] ->
                  c = container st ++ [finalized p]) ->
  (shift = vzero /\ c = []) \/
  exists st1 q,
    firstVertexAt host lines st1 q /\ shift = Pshift st1 /\ holderOf q c /\
    (M -> attachedHolder q c).
Proof.
  intros [(Bf & Bs & Bc & Bo)|(st1 & q & F & As & Af & A)] Hs Hc Hm.
  - left. split; [congruence|].
    destruct Hc as [->|(p & Hp & Hne & _)]; [exact Bc|].
    destruct (Bo p Hp) as [_ H]. contradiction.
  - right. exists st1, q. split; [exact F|]. split; [congruence|].
    pose proof (firstVertexAt_points lines st1 q F) as Hq0.
    destruct A as [(Ac & p & Hp & Hq)|(Ah & Aa & Ao)].
    + split.
      * destruct Hc as [->|(p1 & Hp1 & _ & ->)]; rewrite Ac.
        { apply holderOf_nil. }
        assert (p1 = p) as -> by congruence.
        apply holderOf_first, continues_finalized, Hq.
      * intros HM. destruct (Hm HM) as [_ Hatt].
        rewrite (Hatt p Hp (continues_points q p Hq Hq0)), Ac.
        apply attachedHolder_first, continues_finalized, Hq.
    + split.
      * destruct Hc as [->|(p1 & Hp1 & _ & ->)]; [exact Ah|].
        apply holderOf_snoc; [exact Ah|]. apply (Ao p1 Hp1).
      * intros HM. destruct (Hm HM) as [Hmem _].
        destruct Hc as [->|(p1 & Hp1 & _ & ->)]; [exact (Aa Hmem)|].
        apply attachedHolder_snoc; [exact (Aa Hmem)|]. apply (Ao p1 Hp1).
Qed.

(** C10: the shift record of a load is stored on one polyline at most,
    the one that is open when the first vertex is read: it gets the
    record then, when [HandleGlobalShift] returns true.  In the
    container that polyline, if it was attached, comes first, and every
    other polyline has no shift record (when the block of the first
    vertex is dropped, no polyline of the container has one); it is
    attached whenever the load returns and no allocation has failed.
    Every stored vertex of every polyline is a point of a line of the
    file translated by the one shift of the load. *)
Theorem shift_record_on_first_polyline_only (lines : list string) :
  exists x,
    loadFile host (Some lines) = Some x /\
    let st := exitState x in
    Forall noShiftRecord (tl (container st)) /\
    Forall (shiftRecordOf (Pshift st)) (firstn 1 (container st)) /\
    Forall (allTranslated lines (Pshift st)) (container st) /\
    ((Pshift st = vzero /\ container st = []) \/
     exists st1 q,
       firstVertexAt host lines st1 q /\ Pshift st = Pshift st1 /\
       holderOf q (container st) /\
       (memoryHolds host /\ exitStatus x <> None ->
        attachedHolder q (container st))).
Proof.
  destruct (load_shiftInv host lines) as (x & Hx & H1 & H2 & H3).
  exists x. split; [exact Hx|]. cbv zeta.
  split; [exact H1|]. split; [exact H2|]. split; [exact H3|].
  destruct (loadFile_invariant_reached host (holderInv host lines)
    (fun x =>
       let st := exitState x in
       (Pshift st = vzero /\ container st = []) \/
       exists st1 q,
         firstVertexAt host lines st1 q /\ Pshift st = Pshift st1 /\
         holderOf q (container st) /\
         (memoryHolds host /\ exitStatus x <> None ->
          attachedHolder q (container st))) lines) as (x' & Hx' & H).
  - left. split; [reflexivity|]. split; [reflexivity|].
    split; [reflexivity|]. intros p [=].
  - intros n st st' R I _ E. eapply holder_step; eassumption.
  - intros n st _ I. unfold lastBlock.
    destruct (currentPoly st) as [p|] eqn:Hp; simpl.
    + pose proof (attachIfValid_frame host p st) as A. cbv zeta in A.
      destruct A as (As & _ & _ & Ac).
      apply (holder_exit lines st); [exact I|symmetry; exact As| |].
      * destruct Ac as [Ac|[Hne Ac]]; [left; exact Ac|right; eauto].
      * intros [M _]. split; [exact M|]. intros p' Hp' Hne.
        assert (p' = p) as -> by congruence.
        apply attachIfValid_attach; assumption.
    + apply (holder_exit lines st); auto.
      intros [M _]. split; [exact M|]. intros p' Hp'. congruence.
  - intros n st e st' _ I _ E.
    pose proof (dispatch_transition host (readLine st)) as T.
    unfold iteration in E. rewrite E in T.
    destruct T as (_ & Tc & _ & _ & Ts & _). simpl.
    apply (holder_exit lines (readLine st));
      [apply readLine_holder, I|symmetry; exact Ts|left; exact Tc|].
    intros [M _]. apply dispatch_return in E.
    destruct E as (_ & poly & _ & _ & _ & Ha & _).
    rewrite M in Ha. discriminate Ha.
  - intros n st st' _ I _ E.
    pose proof (dispatch_transition host (readLine st)) as T.
    unfold iteration in E. rewrite E in T.
    destruct T as (_ & Tc & _ & _ & Ts & _). simpl.
    apply (holder_exit lines (readLine st));
      [apply readLine_holder, I|symmetry; exact Ts|left; exact Tc|].
    intros [_ H]. contradiction H. reflexivity.
  - rewrite Hx in Hx'. injection Hx' as <-. exact H.
Qed.

End Holder.

(** ** On integer-valued coordinates *)

Import IntegerCoordinates Samples.


(** C3, amended, on a segment. *)
Lemma vertex_lines_in_scientific_notation_witness :
  QString.isEmpty "curve.sx" = false /\
  In (segment "Polyline") (profilesOf (PolylineEntity (segment "Polyline"))) /\
  In " +1.000000000000E+00 -2.000000000000E+00 +3.000000000000E+00 A"
     (outFile (saveToFile (Some (PolylineEntity (segment "Polyline")))
                          "curve.sx" true true)).
Proof.
  split; [reflexivity|]. split; [left; reflexivity|].
  apply (vertex_lines_in_scientific_notation
           (PolylineEntity (segment "Polyline")) "curve.sx"
           (segment "Polyline") 0);
    [reflexivity | left; reflexivity | vm_compute; lia | vm_compute; lia].
Defined.

(** C3, as stated, fails: the file written for a segment holds its
    vertices in scientific notation, and not the line in fixed notation
    that the specification describes. *)
Lemma vertex_line_not_in_fixed_notation :
  outFile (saveToFile (Some (PolylineEntity (segment "Polyline")))
                      "curve.sx" true true) =
    [ "C Generated by CloudCompare"; "B S"; "CN Polyline"; "CP 1 0"; "CP 0";
      " +1.000000000000E+00 -2.000000000000E+00 +3.000000000000E+00 A";
      " +4.000000000000E+00 +5.000000000000E+00 +6.000000000000E+00 A" ] /\
  specVertexLine (segment "Polyline") 0 =
    " +1.000000000000 -2.000000000000 +3.000000000000 A" /\
  ~ In (specVertexLine (segment "Polyline") 0)
       (outFile (saveToFile (Some (PolylineEntity (segment "Polyline")))
                            "curve.sx" true true)).
Proof.
  split; [vm_compute; reflexivity|].
  split; [vm_compute; reflexivity|].
  vm_compute. intros H.
  repeat (destruct H as [H|H]; [discriminate H|]). exact H.
Qed.

(** C4: the name line of a polyline named "my curve" is written with
    its space; the name without spaces that [MakeSinusxName] computes is
    not in the file. *)
Lemma name_line_keeps_spaces :
  outFile (saveToFile (Some (PolylineEntity (segment "my curve")))
                      "curve.sx" true true) =
    [ "C Generated by CloudCompare"; "B S"; "CN my curve"; "CP 1 0"; "CP 0";
      " +1.000000000000E+00 -2.000000000000E+00 +3.000000000000E+00 A";
      " +4.000000000000E+00 +5.000000000000E+00 +6.000000000000E+00 A" ] /\
  MakeSinusxName "my curve" = "my_curve" /\
  ~ In ("CN " ++ MakeSinusxName "my curve")%string
       (outFile (saveToFile (Some (PolylineEntity (segment "my curve")))
                            "curve.sx" true true)).
Proof.
  split; [vm_compute; reflexivity|].
  split; [reflexivity|].
  vm_compute. intros H.
  repeat (destruct H as [H|H]; [discriminate H|]). exact H.
Qed.

(** C7: two curves far from the origin are loaded with one shift, which
    is recorded on the first polyline only; written back, the first
    curve has the coordinates of the file and the second one those of
    the file less five millions. *)
Lemma later_curves_written_shifted :
  exists st,
    loadFile plainHost (Some twoCurves) = Some (Returned CC_FERR_NO_ERROR st) /\
    Pshift st = mkVec3 (-5000000)%Z 0%Z 0%Z /\
    map globalShift (container st) =
      [mkVec3 (-5000000)%Z 0%Z 0%Z; mkVec3 0%Z 0%Z 0%Z] /\
    outFile (saveToFile
               (Some (HierarchyObject (map PolylineEntity (container st))))
               "copy.sx" true true) =
      [ "C Generated by CloudCompare";
        "B S"; "CN one"; "CP 1 0"; "CP 0";
        " +5.000000000000E+06 +2.000000000000E+01 +3.000000000000E+00 A";
        " +5.000010000000E+06 +2.000000000000E+01 +3.000000000000E+00 A";
        "B S"; "CN two"; "CP 1 0"; "CP 0";
        " +2.000000000000E+01 +5.000000000000E+01 +3.000000000000E+00 A";
        " +3.000000000000E+01 +2.000000000000E+01 +3.000000000000E+00 A" ].
Proof.
  exists loadedTwoCurves.
  split; [reflexivity|]. split; [reflexivity|]. split; [reflexivity|].
  vm_compute. reflexivity.
Qed.

(** C1, as stated, fails: a block of a single vertex is attached. *)
Lemma single_vertex_block_is_attached :
  exists st p,
    loadFile plainHost (Some oneVertex) = Some (Returned CC_FERR_NO_ERROR st) /\
    container st = [p] /\
    points (vertices p) = [mkVec3 1 2 3]%Z /\
    size p = 1 /\
    ~ 2 <= size p.
Proof.
  exists loadedOneVertex.
  exists (hd (newPolyline (mkCloud [] 0 false)) (container loadedOneVertex)).
  split; [reflexivity|].
  split; [reflexivity|]. split; [reflexivity|]. split; [reflexivity|].
  vm_compute. lia.
Qed.

(** C2, as stated, fails: with a blank line before its second vertex a
    block is loaded with one vertex, without it with two. *)
Lemma blank_line_not_ignored :
  (exists st,
     loadFile plainHost (Some withBlankLine) = Some (Returned CC_FERR_NO_ERROR st) /\
     map (fun p => points (vertices p)) (container st)
       = [[mkVec3 1 2 3]]%Z) /\
  (exists st,
     loadFile plainHost (Some withoutBlankLine) = Some (Returned CC_FERR_NO_ERROR st) /\
     map (fun p => points (vertices p)) (container st)
       = [[mkVec3 1 2 3; mkVec3 4 5 6]]%Z) /\
  option_map outcome (loadFile plainHost (Some withBlankLine)) <>
  option_map outcome (loadFile plainHost (Some withoutBlankLine)).
Proof.
  split; [exists loadedWithBlankLine; split; reflexivity|].
  split; [exists loadedWithoutBlankLine; split; reflexivity|].
  intros H.
  apply (f_equal (option_map (fun o => map size (snd (fst o))))) in H.
  vm_compute in H. discriminate H.
Qed.

(** C5, amended, on the second line of [badFlags]. *)
Lemma malformed_flags_line_keeps_stage_witness :
  malformedFlags "CP a b" /\
  exists st',
    iteration plainHost afterHeader = Continue st' /\ cpIndex st' = 0.
Proof.
  assert (malformedFlags "CP a b") as M by (right; left; reflexivity).
  split; [exact M|].
  destruct (malformed_flags_line_keeps_stage plainHost afterHeader
              "CP a b" [ "CP 0 1"; "1 2 3 A" ]
              (newPolyline (mkCloud [] 0 false))
              eq_refl eq_refl eq_refl eq_refl M)
    as (st' & H1 & _ & _ & H2 & _).
  exists st'. split; assumption.
Defined.

(** C5, as stated, fails: after the malformed flags line the stage is
    still 0, and the descriptor line that follows is read as the flags
    line (it closes the polyline) and not as the line of stage 1. *)
Lemma malformed_flags_line_does_not_advance :
  exists st st',
    run plainHost 2 (initialState badFlags) = Some st /\
    cpIndex st = 0 /\
    cpIndex st <> 1 /\
    loadFile plainHost (Some badFlags) = Some (Returned CC_FERR_MALFORMED_FILE st') /\
    map closed (container st') = [true] /\
    warnings st' = [FlagsLineCorrupted 2].
Proof.
  exists afterBadFlags, loadedBadFlags.
  split; [reflexivity|].
  split; [reflexivity|]. split; [discriminate|].
  split; [reflexivity|].
  split; reflexivity.
Qed.

(** C6, as stated, fails: a file that holds a comment only is loaded
    with the status "no error", and nothing in the container. *)
Lemma file_without_block_is_no_error :
  exists st,
    loadFile plainHost (Some [ "C Generated by CloudCompare" ])
      = Some (Returned CC_FERR_NO_ERROR st) /\
    container st = [] /\
    CC_FERR_NO_ERROR <> CC_FERR_NO_LOAD.
Proof.
  exists loadedComment.
  split; [reflexivity|].
  split; [reflexivity|discriminate].
Qed.

(** The same, on a descriptor line of three values followed by lines of
    eight and five values. *)
Lemma circle_values_skipped_witness :
  QString.startsWith "CP 1 2 3" "CP" = true /\
  exists st',
    iteration plainHost inCircle = Continue st' /\ cpIndex st' = 2.
Proof.
  split; [reflexivity|].
  destruct (circle_values_skipped plainHost inCircle "CP 1 2 3"
              [ "4 5 6 7 8 9 10 11"; "12 13 14 15 16"; "CP 0" ]
              (newPolyline (mkCloud [] 0 false))
              eq_refl eq_refl eq_refl eq_refl eq_refl)
    as (j & _ & _ & _ & H & _).
  eexists. split; [exact H|reflexivity].
Defined.

(** C8: a Circle block whose descriptor line of stage 1 carries three
    values before the end of the stream.  The loop that skips the values
    ends with three values skipped.  In a build with assertions the
    program then stops on [assert(skipped == 16)], with the stage still
    at 1; the release build goes on to stage 2 and the load returns
    "no error" without a diagnostic.  The loop does not ensure the count
    that the assertion after it requires. *)
Lemma short_circle_block_fails_assertion :
  skipValues [] "CP 1 2 3" 3 (List.length (QString.split "CP 1 2 3") - 1) =
    ([], EmptyString, 4, 3) /\
  (exists st,
     loadFile debugHost (Some shortCircle) = Some (Aborted st) /\
     cpIndex st = 1 /\
     stream st = [] /\
     exitStatus (Aborted st) = None) /\
  (exists st,
     loadFile plainHost (Some shortCircle) =
       Some (Returned CC_FERR_NO_ERROR st) /\
     cpIndex st = 2 /\
     warnings st = []).
Proof.
  split; [reflexivity|]. split.
  - exists afterShortCircle. split; [reflexivity|]. repeat split.
  - exists loadedShortCircle. split; [reflexivity|]. split; reflexivity.
Qed.

(** C9, on [twoBlocks]: the first block is attached when the allocation
    for the second one fails. *)
Lemma out_of_memory_keeps_attached_witness :
  alloc_ok (failingHost 3) 3 = false /\
  exists st',
    loadFile (failingHost 3) (Some twoBlocks)
      = Some (Returned CC_FERR_NOT_ENOUGH_MEMORY st') /\
    List.length (container st') = 1.
Proof.
  split; [reflexivity|].
  destruct (out_of_memory_keeps_attached (failingHost 3) twoBlocks 4
              beforeFailure "7 8 9 A" []
              (newPolyline (mkCloud [] 0 false)) (@mkVec3 numeric 7 8 9)%Z
              eq_refl eq_refl eq_refl eq_refl eq_refl eq_refl eq_refl)
    as (st' & H & Hc & _).
  exists st'. split; [exact H|]. rewrite Hc. reflexivity.
Defined.

(** ** On the samples *)

Import MoreSamples.

(** X2, on the drawing: the polyline of one vertex is skipped with a
    warning, the two others are written in their order. *)
Lemma saved_file_is_header_and_blocks_witness :
  QString.isEmpty "drawing.sx" = false /\
  profilesOf Drawings.drawing <> [] /\
  saveToFile (Some Drawings.drawing) "drawing.sx" true true =
    mkSaved CC_FERR_NO_ERROR Drawings.savedDrawing [NotEnoughVertices "dot"].
Proof.
  split; [reflexivity|]. split; [discriminate|].
  rewrite (saved_file_is_header_and_blocks Drawings.drawing "drawing.sx");
    [reflexivity|reflexivity|discriminate].
Defined.

(** The coordinates of the drawing are read back from what is written
    for them. *)
Lemma drawing_reads_back :
  Forall readsBackProfile (writtenProfiles (profilesOf Drawings.drawing)).
Proof.
  change (writtenProfiles (profilesOf Drawings.drawing))
    with [Drawings.triangle; Drawings.unnamed].
  constructor; [split; [reflexivity|split; [reflexivity|]]|];
    [|constructor; [split; [reflexivity|split; [reflexivity|]]|constructor]].
  all: intros [|[|[|j]]] Hj.
  all: try (exfalso; unfold size in Hj; simpl in Hj; lia).
  all: repeat split; vm_compute; reflexivity.
Qed.

(** X4, on the drawing. *)
Lemma written_file_is_read_back_witness :
  exists st,
    loadFile ScientificCoordinates.quietHost (Some Drawings.savedDrawing) =
      Some (Returned CC_FERR_NO_ERROR st) /\
    container st = Drawings.loadedDrawing /\
    map name (container st) = [ "triangle"; "Polyline" ]%string /\
    warnings st = [].
Proof.
  destruct (written_file_is_read_back ScientificCoordinates.quietHost
              Z.add_0_r Z.sub_0_r eq_refl eq_refl (fun _ => eq_refl)
              Drawings.drawing "drawing.sx" eq_refl)
    as (st & L & C & W).
  - discriminate.
  - exact drawing_reads_back.
  - intros p _. reflexivity.
  - exists st. split; [exact L|]. rewrite C.
    split; [reflexivity|]. split; [reflexivity|exact W].
Defined.

(** X5, on the drawing: the copy differs from the file in the base plane
    of the triangle and in the name of the polyline without name. *)
Lemma read_back_file_is_saved_again_witness :
  exists st,
    loadFile ScientificCoordinates.quietHost (Some Drawings.savedDrawing) =
      Some (Returned CC_FERR_NO_ERROR st) /\
    outFile (saveToFile
               (Some (HierarchyObject (map PolylineEntity (container st))))
               "copy.sx" true true) = Drawings.resavedDrawing /\
    nth 4 Drawings.savedDrawing EmptyString = "CP 1"%string /\
    nth 4 Drawings.resavedDrawing EmptyString = "CP 0"%string.
Proof.
  destruct (read_back_file_is_saved_again ScientificCoordinates.quietHost
              Z.add_0_r Z.sub_0_r eq_refl eq_refl (fun _ => eq_refl)
              Drawings.drawing "drawing.sx" "copy.sx" eq_refl eq_refl)
    as (st & L & S).
  - discriminate.
  - exact drawing_reads_back.
  - intros p _. reflexivity.
  - exists st. split; [exact L|]. rewrite S.
    split; [reflexivity|]. split; reflexivity.
Defined.

(** X7, on lines of every kind but a block header. *)
Lemma no_block_header_nothing_loaded_witness :
  Forall (fun l => QString.startsWith l "B" = false) strayLines /\
  exists st,
    loadFile plainHost (Some strayLines) = Some (Returned CC_FERR_NO_ERROR st) /\
    container st = [] /\ warnings st = [] /\ allocations st = 0.
Proof.
  assert (Forall (fun l => QString.startsWith l "B" = false) strayLines) as H
    by (repeat constructor).
  split; [exact H|].
  exact (no_block_header_nothing_loaded plainHost strayLines H).
Defined.

(** X8, on the third line of [badTag]: the block of the first line is
    attached, and the two vertices that follow the rejected header are
    dropped. *)
Lemma rejected_header_drops_block_witness :
  rejectedHeader "B X" = true /\
  exists st' d,
    run plainHost 3 beforeBadTag = Some st' /\
    stream st' = [ "B S"; "0 0 0 A" ]%string /\
    currentPoly st' = None /\
    container st' = container (closeBlock plainHost beforeBadTag) /\
    result st' = CC_FERR_MALFORMED_FILE /\
    warnings st' = warnings beforeBadTag ++ [d] /\
    (d = BlockLineCorrupted (S (lineNumber beforeBadTag)) \/
     exists tag, d = UnhandledCurveType tag (S (lineNumber beforeBadTag))).
Proof.
  split; [reflexivity|].
  apply (rejected_header_drops_block plainHost beforeBadTag "B X"
           [ "4 5 6 A"; "7 8 9 A" ]%string [ "B S"; "0 0 0 A" ]%string);
    [reflexivity|reflexivity|reflexivity|reflexivity|].
  repeat constructor.
Defined.

(** X10, on a block of eleven vertices: room for twenty. *)
Lemma open_cloud_grows_by_chunks_witness :
  run plainHost 12 (initialState elevenVertices) = Some afterEleven /\
  exists p,
    currentPoly afterEleven = Some p /\
    List.length (points (vertices p)) = 11 /\
    capacity (vertices p) = 20 /\
    Nat.divide 10 (capacity (vertices p)).
Proof.
  assert (run plainHost 12 (initialState elevenVertices) = Some afterEleven)
    as R by reflexivity.
  split; [exact R|].
  destruct (currentPoly afterEleven) as [p|] eqn:E; [|discriminate E].
  exists p. split; [reflexivity|].
  pose proof (open_cloud_grows_by_chunks plainHost elevenVertices 12
                afterEleven p R E) as (_ & _ & D).
  injection E as <-.
  split; [reflexivity|]. split; [reflexivity|exact D].
Defined.

(** X14, on [twoBlocks]. *)
Lemma assertions_do_not_change_a_load_witness :
  loadFile debugHost (Some twoBlocks) =
    Some (Returned CC_FERR_NO_ERROR loadedTwoBlocks) /\
  loadFile (release debugHost) (Some twoBlocks) =
    Some (Returned CC_FERR_NO_ERROR loadedTwoBlocks).
Proof.
  assert (loadFile debugHost (Some twoBlocks) =
            Some (Returned CC_FERR_NO_ERROR loadedTwoBlocks)) as H
    by reflexivity.
  split; [exact H|].
  exact (assertions_do_not_change_a_load debugHost (Some twoBlocks)
           CC_FERR_NO_ERROR loadedTwoBlocks H).
Defined.

(** X16, on [twoBlocks] when the allocation for the first vertex of the
    second block fails: the polyline of the first block stays. *)
Lemma attached_polylines_are_kept_witness :
  run (failingHost 3) 4 (initialState twoBlocks) = Some beforeFailure /\
  List.length (container beforeFailure) = 1 /\
  exists x l,
    loadFile (failingHost 3) (Some twoBlocks) = Some x /\
    container (exitState x) = container beforeFailure ++ l.
Proof.
  assert (run (failingHost 3) 4 (initialState twoBlocks) = Some beforeFailure)
    as R by reflexivity.
  split; [exact R|]. split; [reflexivity|].
  exact (attached_polylines_are_kept (failingHost 3) twoBlocks 4
           beforeFailure R).
Defined.

(** C10, on [twoCurves]: the first vertex is recentered, the record of
    the shift is stored on the first polyline, and the second one has
    none. *)
Lemma shift_record_on_first_polyline_only_witness :
  exists st,
    loadFile plainHost (Some twoCurves) = Some (Returned CC_FERR_NO_ERROR st) /\
    Pshift st = mkVec3 (-5000000)%Z 0%Z 0%Z /\
    map globalShift (container st) =
      [mkVec3 (-5000000)%Z 0%Z 0%Z; mkVec3 0%Z 0%Z 0%Z] /\
    Forall noShiftRecord (tl (container st)) /\
    exists st1 q,
      firstVertexAt plainHost twoCurves st1 q /\
      Pshift st = Pshift st1 /\ attachedHolder q (container st).
Proof.
  destruct (shift_record_on_first_polyline_only plainHost twoCurves)
    as (x & Hx & H1 & _ & _ & H4).
  assert (loadFile plainHost (Some twoCurves) =
            Some (Returned CC_FERR_NO_ERROR loadedTwoCurves)) as L
    by reflexivity.
  rewrite L in Hx. injection Hx as <-.
  exists loadedTwoCurves.
  split; [exact L|]. split; [reflexivity|]. split; [reflexivity|].
  split; [exact H1|].
  destruct H4 as [[_ H]|(st1 & q & F & Hs & _ & H)]; [discriminate H|].
  exists st1, q. split; [exact F|]. split; [exact Hs|].
  apply H. split; [intros k; reflexivity|discriminate].
Defined.
